(** * nmosnode.aggregator: registration proxy and mDNS updater

    A shallow embedding of [src/nmosnode/aggregator.py]: the three error
    classes, the [MDNSUpdater] object, and the [Aggregator] proxy with its
    send primitive, queue worker, heartbeat controller and re-registration
    procedure, followed by the properties established about them.

    Python objects become records, methods become functions on those
    records.  Methods of [Aggregator] run in a state-and-exception monad;
    the collaborators the code talks to (the mDNS bridge, the HTTP library,
    the OAuth client) are oracles stored in the state, so every statement
    quantifies over every behaviour of the network. *)

From Stdlib Require Import ZArith Lia.
From stdpp Require Import gmap strings list sorting.

Local Open Scope string_scope.
Local Open Scope list_scope.
Local Open Scope Z_scope.

(** ** Exceptions *)

(** Exceptions that come from the libraries the module calls: the HTTP
    library's [RequestException], the OAuth library's [OAuth2Error] and its
    subclass [InvalidTokenError] (which the code always tests for first),
    and anything else. *)
Inductive lib_exn : Type :=
| RequestException
| InvalidTokenError
| OAuth2Error
| OtherException.

(** The exception values the module raises or catches; all derive from
    Python's [Exception].  The names ending in E are the values of the
    three classes this module defines; the functions that build them come
    later. *)
Inductive exn : Type :=
| NoAggregatorE
| InvalidRequestE (status_code : Z)
| TooManyRetriesE
| KeyError
| TypeError
| UnboundLocalError
| Lib (e : lib_exn).

Inductive Res (A : Type) : Type :=
| Ok (a : A)
| Raise (e : exn).
Arguments Ok {A} a.
Arguments Raise {A} e.

(** ** Dictionaries whose iteration order is observable

    The mirror is walked with [for ... in dict], so the order of its keys
    reaches the request queue.  Such dictionaries are association lists in
    insertion order: assigning to a present key keeps its position, a new
    key goes last, [del] removes the binding. *)
Abbreviation Dict V := (list (string * V)).

Section Dict.
Context {V : Type}.

Fixpoint dict_get (k : string) (d : Dict V) : option V :=
  match d with
  | [] => None
  | (k', v) :: d' => if String.eqb k k' then Some v else dict_get k d'
  end.

Definition dict_mem (k : string) (d : Dict V) : bool :=
  match dict_get k d with Some _ => true | None => false end.

Fixpoint dict_set (k : string) (v : V) (d : Dict V) : Dict V :=
  match d with
  | [] => [(k, v)]
  | (k', v') :: d' =>
      if String.eqb k k' then (k', v) :: d' else (k', v') :: dict_set k v d'
  end.

Fixpoint dict_del (k : string) (d : Dict V) : Dict V :=
  match d with
  | [] => []
  | (k', v') :: d' =>
      if String.eqb k k' then dict_del k d' else (k', v') :: dict_del k d'
  end.

Definition dict_keys (d : Dict V) : list string := map fst d.
End Dict.

(** ** The mDNS updater *)

(** A TXT record value: the base records are strings, the service versions
    are integers. *)
Inductive TxtValue : Type :=
| TxtStr (s : string)
| TxtInt (z : Z).

Module MDNSUpdater.

(** The fields of the object that the methods below read or write.  The
    mDNS engine handle, name, type, port and logger are collaborators
    outside the model. *)
Record t : Type := mk {
  mappings : gmap string string;
  service_versions : gmap string Z;
  txt_rec_base : gmap string TxtValue;
  p2p_enable : bool;
  p2p_enable_count : Z;
  p2p_cut_in_count : Z;
  _mdns_update_queue : list (gmap string TxtValue)
}.

Definition set_service_versions (sv : gmap string Z) (u : t) : t :=
  mk (mappings u) sv (txt_rec_base u) (p2p_enable u) (p2p_enable_count u)
     (p2p_cut_in_count u) (_mdns_update_queue u).

Definition set_p2p_enable (b : bool) (u : t) : t :=
  mk (mappings u) (service_versions u) (txt_rec_base u) b (p2p_enable_count u)
     (p2p_cut_in_count u) (_mdns_update_queue u).

Definition set_p2p_enable_count (c : Z) (u : t) : t :=
  mk (mappings u) (service_versions u) (txt_rec_base u) (p2p_enable u) c
     (p2p_cut_in_count u) (_mdns_update_queue u).

(** [self._mdns_update_queue.put(recs)] *)
Definition put (recs : gmap string TxtValue) (u : t) : t :=
  mk (mappings u) (service_versions u) (txt_rec_base u) (p2p_enable u)
     (p2p_enable_count u) (p2p_cut_in_count u) (_mdns_update_queue u ++ [recs]).

(** [__init__]: every mapping value gets a service version of 0; the
    base TXT records are [txt_recs] when given and non-empty, else the
    empty dictionary. *)
Definition __init__ (mappings : gmap string string) (p2p_enable : bool)
    (p2p_cut_in_count : Z) (txt_recs : option (gmap string TxtValue)) : t :=
  mk mappings
     (map_fold (fun _ mapValue sv => <[mapValue := 0]> sv) ∅ mappings)
     (match txt_recs with Some r => r | None => ∅ end)
     p2p_enable 0 p2p_cut_in_count [].

(** [base.copy()] then [.update(service_versions)]: on a common key the
    service version wins. *)
Definition _p2p_txt_recs (u : t) : gmap string TxtValue :=
  (TxtInt <$> service_versions u) ∪ txt_rec_base u.

(** Both subscripts are evaluated before the assignment, so a missing
    key raises [KeyError] with the object untouched. *)
Definition _increment_service_version (type : string) (u : t) : Res t :=
  match mappings u !! type with
  | None => Raise KeyError
  | Some m =>
      match service_versions u !! m with
      | None => Raise KeyError
      | Some v =>
          let u1 := set_service_versions (<[m := v + 1]> (service_versions u)) u in
          if 255 <? v + 1
          then Ok (set_service_versions (<[m := 0]> (service_versions u1)) u1)
          else Ok u1
      end
  end.

Definition update_mdns (type action : string) (u : t) : Res t :=
  if p2p_enable u then
    if String.eqb action "register" || String.eqb action "update"
       || String.eqb action "unregister"
    then match _increment_service_version type u with
         | Ok u1 => Ok (put (_p2p_txt_recs u1) u1)
         | Raise e => Raise e
         end
    else Ok u
  else Ok u.

Definition _reset_P2P_enable_count (u : t) : t := set_p2p_enable_count 0 u.

Definition P2P_enable (u : t) : t :=
  if negb (p2p_enable u)
  then let u1 := set_p2p_enable true u in put (_p2p_txt_recs u1) u1
  else u.

Definition inc_P2P_enable_count (u : t) : t :=
  if negb (p2p_enable u) then
    let u1 := set_p2p_enable_count (p2p_enable_count u + 1) u in
    if p2p_cut_in_count u1 <=? p2p_enable_count u1 then P2P_enable u1 else u1
  else u.

Definition P2P_disable (u : t) : t :=
  if p2p_enable u then
    let u1 := _reset_P2P_enable_count (set_p2p_enable false u) in
    put (txt_rec_base u1) u1
  else _reset_P2P_enable_count u.

End MDNSUpdater.

(** ** The error classes

    Each constructor takes the updater it was handed and, when that is not
    [None], calls [inc_P2P_enable_count] on it before the exception object
    exists.  The updater is a shared object, so the call returns its new
    state next to the exception value. *)
Definition NoAggregator (mdns_updater : option MDNSUpdater.t)
  : exn * option MDNSUpdater.t :=
  match mdns_updater with
  | Some u => (NoAggregatorE, Some (MDNSUpdater.inc_P2P_enable_count u))
  | None => (NoAggregatorE, None)
  end.

Definition InvalidRequest (status_code : Z) (mdns_updater : option MDNSUpdater.t)
  : exn * option MDNSUpdater.t :=
  match mdns_updater with
  | Some u => (InvalidRequestE status_code, Some (MDNSUpdater.inc_P2P_enable_count u))
  | None => (InvalidRequestE status_code, None)
  end.

Definition TooManyRetries (mdns_updater : option MDNSUpdater.t)
  : exn * option MDNSUpdater.t :=
  match mdns_updater with
  | Some u => (TooManyRetriesE, Some (MDNSUpdater.inc_P2P_enable_count u))
  | None => (TooManyRetriesE, None)
  end.

(** ** Data of the proxy *)

(** The wire envelope [{"type": ..., "data": ...}].  The payload is the
    keyword dictionary of [register_into]; the code only ever reads its
    ["id"]. *)
Record Envelope : Type := mkEnvelope {
  env_type : string;
  env_data : Dict string
}.

(** A queued request [{"method", "namespace", "res_type", "key"}]. *)
Record Intent : Type := mkIntent {
  method : string;
  namespace : string;
  res_type : string;
  key : string
}.

(** The keyword arguments of one HTTP request.  [urljoin(aggregator, url)]
    is kept as its two arguments; [rq_auth] tells whether the request went
    through the OAuth client. *)
Record Request : Type := mkRequest {
  rq_method : string;
  rq_aggregator : string;
  rq_url : string;
  rq_data : option Envelope;
  rq_auth : bool
}.

(** What [R.json()] does: it returns the decoded body, or it raises (the
    HTTP library's [JSONDecodeError], a [RequestException] in its later
    versions and a plain [ValueError] in earlier ones). *)
Inductive Decoding : Type :=
| Decodes (value : string)
| Undecodable (e : lib_exn).

(** A response object: its status, the [content-type] header when there
    is one, [R.content] and the outcome of [R.json()]. *)
Record Response : Type := mkResponse {
  status_code : Z;
  content_type : option string;
  content : string;
  json : Decoding
}.

(** What one call into the HTTP library (or the OAuth client) does: it
    returns a response object or [None], or it raises. *)
Inductive Reply : Type :=
| Returns (R : option Response)
| Throws (e : lib_exn).

(** What [_SEND] returns: the decoded body, the raw content, or [None]. *)
Inductive Body : Type :=
| Json (value : string)
| Raw (content : string)
| NoBody.

(** Calls that leave the object: a resolution by [_get_api_href] with its
    result, the start of attempt [i] of the retry loop, a request handed to
    the HTTP library or to the OAuth client. *)
Inductive Event : Type :=
| Resolve (href : string)
| Attempt (i : nat)
| Send (rq : Request).

(** The collaborators.  [getHref k srv_type protocol] is the answer of the
    mDNS bridge to the k-th query, [request k rq] what happens to the k-th
    request, [auth_dance k] what the k-th run of the OAuth client
    registration leaves behind: whether it raised, and whether an OAuth
    client is attached afterwards. *)
Record World : Type := mkWorld {
  getHref : nat -> string -> string -> string;
  request : nat -> Request -> Reply;
  auth_dance : nat -> option exn * bool
}.

(** Module constants read from the configuration, which is not part of
    this module. *)
Record Config : Type := mkConfig {
  AGGREGATOR_APIVERSION : string;
  OAUTH_MODE : bool;
  https_mode : bool
}.

Definition APINAMESPACE : string := "x-nmos".
Definition AGGREGATOR_APINAME : string := "registration".
Definition AGGREGATOR_APIROOT : string :=
  "/" +:+ APINAMESPACE +:+ "/" +:+ AGGREGATOR_APINAME +:+ "/".
Definition LEGACY_REG_MDNSTYPE : string := "nmos-registration".
Definition REGISTRATION_MDNSTYPE : string := "nmos-register".

(** [self.registration_order], assigned once in [__init__]. *)
Definition registration_order : list string :=
  ["device"; "source"; "flow"; "sender"; "receiver"].

(** The [Aggregator] object, with the [_registered] mirror flattened into
    [node], [registered] and [entities], together with the world it runs
    in: the oracles, how far each has been consumed, and the trace. *)
Record State : Type := mkState {
  aggregator : string;
  _mdns_updater : option MDNSUpdater.t;
  node : option Envelope;
  registered : bool;
  entities : Dict (Dict (Dict Envelope));
  auth_client : bool;
  _running : bool;
  _reg_queue : list Intent;
  world : World;
  href_calls : nat;
  requests_made : nat;
  auth_calls : nat;
  trace : list Event
}.

Definition set_aggregator (a : string) (s : State) : State :=
  mkState a (_mdns_updater s) (node s) (registered s) (entities s) (auth_client s)
    (_running s) (_reg_queue s) (world s) (href_calls s) (requests_made s)
    (auth_calls s) (trace s).
Definition set_mdns_updater (u : option MDNSUpdater.t) (s : State) : State :=
  mkState (aggregator s) u (node s) (registered s) (entities s) (auth_client s)
    (_running s) (_reg_queue s) (world s) (href_calls s) (requests_made s)
    (auth_calls s) (trace s).
Definition set_node (n : option Envelope) (s : State) : State :=
  mkState (aggregator s) (_mdns_updater s) n (registered s) (entities s) (auth_client s)
    (_running s) (_reg_queue s) (world s) (href_calls s) (requests_made s)
    (auth_calls s) (trace s).
Definition set_registered (b : bool) (s : State) : State :=
  mkState (aggregator s) (_mdns_updater s) (node s) b (entities s) (auth_client s)
    (_running s) (_reg_queue s) (world s) (href_calls s) (requests_made s)
    (auth_calls s) (trace s).
Definition set_entities (e : Dict (Dict (Dict Envelope))) (s : State) : State :=
  mkState (aggregator s) (_mdns_updater s) (node s) (registered s) e (auth_client s)
    (_running s) (_reg_queue s) (world s) (href_calls s) (requests_made s)
    (auth_calls s) (trace s).
Definition set_auth_client (b : bool) (s : State) : State :=
  mkState (aggregator s) (_mdns_updater s) (node s) (registered s) (entities s) b
    (_running s) (_reg_queue s) (world s) (href_calls s) (requests_made s)
    (auth_calls s) (trace s).
Definition set_running (b : bool) (s : State) : State :=
  mkState (aggregator s) (_mdns_updater s) (node s) (registered s) (entities s)
    (auth_client s) b (_reg_queue s) (world s) (href_calls s) (requests_made s)
    (auth_calls s) (trace s).
Definition set_reg_queue (q : list Intent) (s : State) : State :=
  mkState (aggregator s) (_mdns_updater s) (node s) (registered s) (entities s)
    (auth_client s) (_running s) q (world s) (href_calls s) (requests_made s)
    (auth_calls s) (trace s).
Definition set_href_calls (n : nat) (s : State) : State :=
  mkState (aggregator s) (_mdns_updater s) (node s) (registered s) (entities s)
    (auth_client s) (_running s) (_reg_queue s) (world s) n (requests_made s)
    (auth_calls s) (trace s).
Definition set_requests_made (n : nat) (s : State) : State :=
  mkState (aggregator s) (_mdns_updater s) (node s) (registered s) (entities s)
    (auth_client s) (_running s) (_reg_queue s) (world s) (href_calls s) n
    (auth_calls s) (trace s).
Definition set_auth_calls (n : nat) (s : State) : State :=
  mkState (aggregator s) (_mdns_updater s) (node s) (registered s) (entities s)
    (auth_client s) (_running s) (_reg_queue s) (world s) (href_calls s)
    (requests_made s) n (trace s).
Definition set_trace (t : list Event) (s : State) : State :=
  mkState (aggregator s) (_mdns_updater s) (node s) (registered s) (entities s)
    (auth_client s) (_running s) (_reg_queue s) (world s) (href_calls s)
    (requests_made s) (auth_calls s) t.

(** ** The state-and-exception monad *)

Definition M (A : Type) : Type := State -> Res A * State.

Global Instance M_ret : MRet M := fun A a s => (Ok a, s).
Global Instance M_bind : MBind M := fun A B f m s =>
  match m s with
  | (Ok a, s1) => f a s1
  | (Raise e, s1) => (Raise e, s1)
  end.

Definition raise {A : Type} (e : exn) : M A := fun s => (Raise e, s).
Definition gets {A : Type} (f : State -> A) : M A := fun s => (Ok (f s), s).
Definition modify (f : State -> State) : M unit := fun s => (Ok tt, f s).
Definition emit (e : Event) : M unit := modify (fun s => set_trace (trace s ++ [e]) s).

(** [try: body except ...:]; the handler answers [None] for an exception
    that none of its clauses matches, which then propagates. *)
Definition try_except {A : Type} (body : M A) (handler : exn -> option (M A)) : M A :=
  fun s =>
    match body s with
    | (Ok a, s1) => (Ok a, s1)
    | (Raise e, s1) =>
        match handler e with
        | Some h => h s1
        | None => (Raise e, s1)
        end
    end.

Fixpoint for_each {A : Type} (l : list A) (body : A -> M unit) : M unit :=
  match l with
  | [] => mret tt
  | x :: l' => body x;; for_each l' body
  end.

(** A method call on [self._mdns_updater], guarded by [is not None]. *)
Definition on_updater (f : MDNSUpdater.t -> MDNSUpdater.t) (s : State) : State :=
  match _mdns_updater s with
  | Some u => set_mdns_updater (Some (f u)) s
  | None => s
  end.

Definition with_mdns_updater (f : MDNSUpdater.t -> MDNSUpdater.t) : M unit :=
  modify (on_updater f).

(** [raise C(..., self._mdns_updater)] for one of the three error classes. *)
Definition raise_with {A : Type}
    (C : option MDNSUpdater.t -> exn * option MDNSUpdater.t) : M A :=
  fun s => let (e, u) := C (_mdns_updater s) in (Raise e, set_mdns_updater u s).

(** ** Methods of the proxy *)

Section Aggregator.
Variable cfg : Config.

(** One query to the mDNS bridge. *)
Definition mdnsbridge_getHref (srv_type protocol : string) : M string :=
  fun s =>
    (Ok (getHref (world s) (href_calls s) srv_type protocol),
     set_href_calls (S (href_calls s)) s).

Definition _get_api_href : M string :=
  let protocol := if https_mode cfg then "https" else "http" in
  api_href ← mdnsbridge_getHref REGISTRATION_MDNSTYPE protocol;
  api_href ← (if String.eqb api_href ""
              then mdnsbridge_getHref LEGACY_REG_MDNSTYPE protocol
              else mret api_href);
  emit (Resolve api_href);;
  mret api_href.

(** [requests.request] and [self.auth_client.request]:
    the request is recorded, the world answers. *)
Definition requests_request (kwargs : Request) : M (option Response) :=
  fun s =>
    let s1 := set_requests_made (S (requests_made s))
                (set_trace (trace s ++ [Send kwargs]) s) in
    match request (world s) (requests_made s) kwargs with
    | Returns R => (Ok R, s1)
    | Throws e => (Raise (Lib e), s1)
    end.

(** [fetch_auth_token] talks to the browser and to the token endpoint and
    stores the token in the OAuth registry; none of that is state of the
    proxy. *)
Definition fetch_auth_token : M unit := mret tt.

(** The local variable [R] of [_SEND] is unbound until the first
    assignment and keeps its value from one attempt to the next:
    [None] is unbound, [Some None] is Python's [None]. *)
Definition obtain_R (method url : string) (data : option Envelope)
    (R : option (option Response)) : M (option (option Response)) :=
  agg ← gets aggregator;
  client ← gets auth_client;
  if negb (OAUTH_MODE cfg) || negb client then
    r ← requests_request (mkRequest method agg url data false);
    mret (Some r)
  else
    let kwargs := mkRequest method agg url data true in
    try_except
      (r ← requests_request kwargs; mret (Some r))
      (fun e =>
         match e with
         | Lib InvalidTokenError =>
             Some (fetch_auth_token;;
                   try_except
                     (r ← requests_request kwargs; mret (Some r))
                     (fun _ => Some (modify (set_auth_client false);; mret R)))
         | Lib OAuth2Error => Some (mret R)
         | _ => None
         end).

(** How an attempt ends: with the value [_SEND] returns, or by falling
    through to the re-resolution, carrying [R] along. *)
Inductive Step : Type :=
| Return (b : Body)
| Continue (R : option (option Response)).

(** The clause [except requests.exceptions.RequestException]: the attempt
    falls through to the re-resolution, with [R] as it is when the
    exception is raised; any other exception leaves the call. *)
Definition except_RequestException (R : option (option Response)) (e : exn)
  : option (M Step) :=
  match e with
  | Lib RequestException => Some (mret (Continue R))
  | _ => None
  end.

(** The chain [if R is None ... elif ... else] on a bound [R]. *)
Definition dispatch (R1 : option Response) : M Step :=
  match R1 with
  | None => mret (Continue (Some R1))
  | Some r =>
      if (status_code r =? 200) || (status_code r =? 201) then
        match content_type r with
        | Some ct =>
            if String.prefix "application/json" ct
            then match json r with
                 | Decodes value => mret (Return (Json value))
                 | Undecodable e => raise (Lib e)
                 end
            else mret (Return (Raw (content r)))
        | None => mret (Return (Raw (content r)))
        end
      else if status_code r =? 204 then mret (Return NoBody)
      else if status_code r / 100 =? 4 then
        raise_with (InvalidRequest (status_code r))
      else mret (Continue (Some R1))
  end.

(** The body of the [for] loop up to the end of its [try]: one [try]
    with one handler, which finds [R] unchanged while the request is
    under way and bound to the response once it has been assigned. *)
Definition attempt (method url : string) (data : option Envelope)
    (R : option (option Response)) : M Step :=
  try_except
    (R1 ← obtain_R method url data R;
     match R1 with
     | None => raise UnboundLocalError
     | Some R1' => try_except (dispatch R1') (except_RequestException R1)
     end)
    (except_RequestException R).

Fixpoint _SEND_loop (range : list nat) (method url : string)
    (data : option Envelope) (R : option (option Response)) : M Body :=
  match range with
  | [] => raise_with TooManyRetries
  | i :: range' =>
      agg ← gets aggregator;
      if String.eqb agg "" then raise_with NoAggregator
      else
        emit (Attempt i);;
        st ← attempt method url data R;
        match st with
        | Return b => mret b
        | Continue R1 =>
            href ← _get_api_href;
            modify (set_aggregator href);;
            _SEND_loop range' method url data R1
        end
  end.

Definition _SEND (method url : string) (data : option Envelope) : M Body :=
  agg ← gets aggregator;
  (if String.eqb agg ""
   then href ← _get_api_href; modify (set_aggregator href)
   else mret tt);;
  let url := AGGREGATOR_APIROOT +:+ AGGREGATOR_APIVERSION cfg +:+ url in
  _SEND_loop (seq 0 3) method url data None.

Definition _queue_request (method namespace res_type key : string) : M unit :=
  modify (fun s =>
    set_reg_queue (_reg_queue s ++ [mkIntent method namespace res_type key]) s).

(** [self._registered["node"]["data"]["id"]]: subscripting [None] is a
    [TypeError], a payload without ["id"] a [KeyError]. *)
Definition node_id : M string :=
  n ← gets node;
  match n with
  | None => raise TypeError
  | Some e =>
      match dict_get "id" (env_data e) with
      | Some i => mret i
      | None => raise KeyError
      end
  end.

(** [d[k]] *)
Definition subscript {V : Type} (k : string) (d : Dict V) : M V :=
  match dict_get k d with
  | Some v => mret v
  | None => raise KeyError
  end.

(** [del self._registered["entities"][namespace][res_type][res_key]] *)
Definition del_entity (namespace res_type res_key : string) : M unit :=
  ents ← gets entities;
  nsd ← subscript namespace ents;
  td ← subscript res_type nsd;
  if dict_mem res_key td
  then modify (set_entities
                 (dict_set namespace (dict_set res_type (dict_del res_key td) nsd) ents))
  else raise KeyError.

(** What [_process_queue] does with a dequeued item: the body of its
    [try] after [queue_item = self._reg_queue.get()]. *)
Definition process_item (queue_item : Intent) : M unit :=
  let namespace := namespace queue_item in
  let res_type := res_type queue_item in
  let res_key := key queue_item in
  if String.eqb (method queue_item) "POST" then
    if String.eqb res_type "node" then
      data ← gets node;
      try_except
        (node_id;;
         _SEND "POST" ("/" +:+ namespace) data;;
         id ← node_id;
         _SEND "POST" ("/health/nodes/" +:+ id) None;;
         modify (set_registered true);;
         with_mdns_updater MDNSUpdater.P2P_disable)
        (fun _ => Some (mret tt))
    else
      ents ← gets entities;
      nsd ← subscript namespace ents;
      td ← subscript res_type nsd;
      if dict_mem res_key td then
        data ← subscript res_key td;
        try_except
          (_SEND "POST" ("/" +:+ namespace) (Some data);; mret tt)
          (fun e =>
             match e with
             | InvalidRequestE _ => Some (del_entity namespace res_type res_key)
             | _ => None
             end)
      else mret tt
  else if String.eqb (method queue_item) "DELETE" then
    let translated_type := res_type +:+ "s" in
    try_except
      (_SEND "DELETE"
         ("/" +:+ namespace +:+ "/" +:+ translated_type +:+ "/" +:+ res_key)
         None;;
       mret tt)
      (fun e =>
         match e with
         | InvalidRequestE _ => Some (mret tt)
         | _ => None
         end)
  else mret tt.

(** The body of the [while] loop of [_process_queue].  [gevent.sleep]
    changes nothing in the state. *)
Definition _process_queue_body : M unit :=
  reg ← gets registered;
  q ← gets _reg_queue;
  match q with
  | [] => mret tt
  | queue_item :: rest =>
      if negb reg then mret tt
      else
        try_except
          (modify (set_reg_queue rest);;
           process_item queue_item)
          (fun _ =>
             Some (modify (set_registered false);;
                   with_mdns_updater MDNSUpdater.P2P_disable))
  end.

(** [while self._running or (registered and not queue.empty())] *)
Fixpoint _process_queue (fuel : nat) : M unit :=
  match fuel with
  | O => mret tt
  | S fuel' =>
      running ← gets _running;
      reg ← gets registered;
      q ← gets _reg_queue;
      if running || (reg && negb (bool_decide (q = [])))
      then _process_queue_body;; _process_queue fuel'
      else mret tt
  end.

(** The two walks over the mirror that end [_process_reregister]. *)
Definition reregister_ordered : M unit :=
  for_each registration_order (fun res_type =>
    all ← gets entities;
    for_each all (fun '(namespace, entities) =>
      match dict_get res_type entities with
      | Some d =>
          for_each (dict_keys d) (fun key =>
            _queue_request "POST" namespace res_type key)
      | None => mret tt
      end)).

Definition reregister_others : M unit :=
  all ← gets entities;
  for_each all (fun '(namespace, entities) =>
    for_each (dict_keys entities) (fun res_type =>
      if negb (bool_decide (res_type ∈ registration_order)) then
        d ← subscript res_type entities;
        for_each (dict_keys d) (fun key =>
          _queue_request "POST" namespace res_type key)
      else mret tt)).

(** The boolean results stand for the two early [return]s inside the
    [except] clauses. *)
Definition _process_reregister : M unit :=
  n ← gets node;
  match n with
  | None => mret tt
  | Some _ =>
      aborted ← try_except
        (id ← node_id;
         _SEND "DELETE" ("/resource/nodes/" +:+ id) None;;
         mret false)
        (fun e =>
           match e with
           | InvalidRequestE _ => Some (mret false)
           | _ => Some (mret true)
           end);
      if aborted : bool then mret tt
      else
        modify (set_registered false);;
        with_mdns_updater MDNSUpdater.inc_P2P_enable_count;;
        modify (set_reg_queue []);;
        failed ← try_except
          (node_id;;
           n ← gets node;
           _SEND "POST" "/resource" n;;
           id ← node_id;
           _SEND "POST" ("/health/nodes/" +:+ id) None;;
           modify (set_registered true);;
           with_mdns_updater MDNSUpdater.P2P_disable;;
           mret false)
          (fun _ => Some (modify (set_aggregator "");; mret true));
        if failed : bool then mret tt
        else reregister_ordered;; reregister_others
  end.

(** The body of the outer [while] loop of [_heartbeat]; the inner loop
    only sleeps. *)
Definition _heartbeat_body : M unit :=
  reg ← gets registered;
  n ← gets node;
  if negb reg then _process_reregister
  else
    match n with
    | Some _ =>
        try_except
          (id ← node_id;
           _SEND "POST" ("/health/nodes/" +:+ id) None;;
           mret tt)
          (fun e =>
             match e with
             | InvalidRequestE code =>
                 if code =? 404 then
                   Some (modify (set_registered false);;
                         with_mdns_updater MDNSUpdater.inc_P2P_enable_count)
                 else Some (modify (set_running false))
             | _ => Some (modify (set_registered false))
             end)
    | None =>
        modify (set_registered false);;
        with_mdns_updater MDNSUpdater.inc_P2P_enable_count
    end.

(** [while self._running] *)
Fixpoint _heartbeat (fuel : nat) : M unit :=
  match fuel with
  | O => mret tt
  | S fuel' =>
      running ← gets _running;
      if running : bool then _heartbeat_body;; _heartbeat fuel' else mret tt
  end.

Definition _add_mirror_keys (namespace res_type : string) : M unit :=
  ents ← gets entities;
  (if negb (dict_mem namespace ents)
   then modify (set_entities (dict_set namespace [] ents))
   else mret tt);;
  ents ← gets entities;
  nsd ← subscript namespace ents;
  if negb (dict_mem res_type nsd)
  then modify (set_entities (dict_set namespace (dict_set res_type [] nsd) ents))
  else mret tt.

(** [register_auth_client] does nothing unless [OAUTH_MODE] is on; then
    it runs the client registration against the authorization server,
    a collaborator whose class is not in this module: the world tells
    whether it raised and whether a client is attached afterwards. *)
Definition register_auth_client (node_object : Envelope) : M unit :=
  if OAUTH_MODE cfg then
    fun s =>
      let (err, client) := auth_dance (world s) (auth_calls s) in
      let s1 := set_auth_calls (S (auth_calls s)) (set_auth_client client s) in
      match err with
      | Some e => (Raise e, s1)
      | None => (Ok tt, s1)
      end
  else mret tt.

Definition register_into (namespace res_type key : string) (kwargs : Dict string)
  : M unit :=
  let data := if dict_mem "id" kwargs then kwargs else dict_set "id" key kwargs in
  let send_obj := mkEnvelope res_type data in
  (if String.eqb namespace "resource" && String.eqb res_type "node" then
     modify (set_node (Some send_obj));;
     register_auth_client send_obj
   else
     _add_mirror_keys namespace res_type;;
     ents ← gets entities;
     nsd ← subscript namespace ents;
     td ← subscript res_type nsd;
     modify (set_entities
               (dict_set namespace (dict_set res_type (dict_set key send_obj td) nsd) ents)));;
  _queue_request "POST" namespace res_type key.

Definition unregister_from (namespace res_type key : string) : M unit :=
  (if String.eqb namespace "resource" && String.eqb res_type "node" then
     modify (set_node None)
   else
     ents ← gets entities;
     nsd ← subscript namespace ents;
     if dict_mem res_type nsd then
       _add_mirror_keys namespace res_type;;
       ents ← gets entities;
       nsd ← subscript namespace ents;
       td ← subscript res_type nsd;
       if dict_mem key td then del_entity namespace res_type key else mret tt
     else mret tt);;
  _queue_request "DELETE" namespace res_type key.

Definition register (res_type key : string) (kwargs : Dict string) : M unit :=
  register_into "resource" res_type key kwargs.

Definition unregister (res_type key : string) : M unit :=
  unregister_from "resource" res_type key.

(** [stop] clears the flag; joining the two threads is scheduling. *)
Definition stop : M unit := modify (set_running false).
End Aggregator.

(** [Aggregator.__init__]: no aggregator, an empty mirror with the
    [resource] namespace, an empty queue, running. *)
Definition __init__ (mdns_updater : option MDNSUpdater.t) (w : World) : State :=
  mkState "" mdns_updater None false [("resource", [])] false true [] w 0 0 0 [].

(** ** Vocabulary for the statements about the updater *)

(** A call on the public interface of an updater.  A call that raises
    leaves the object as it was. *)
Inductive updater_call : Type :=
| Call_update_mdns (type action : string)
| Call_inc_P2P_enable_count
| Call_P2P_enable
| Call_P2P_disable.

Definition run_call (c : updater_call) (u : MDNSUpdater.t) : MDNSUpdater.t :=
  match c with
  | Call_update_mdns type action =>
      match MDNSUpdater.update_mdns type action u with
      | Ok u1 => u1
      | Raise _ => u
      end
  | Call_inc_P2P_enable_count => MDNSUpdater.inc_P2P_enable_count u
  | Call_P2P_enable => MDNSUpdater.P2P_enable u
  | Call_P2P_disable => MDNSUpdater.P2P_disable u
  end.

Definition run_calls (cs : list updater_call) (u : MDNSUpdater.t) : MDNSUpdater.t :=
  fold_left (fun u c => run_call c u) cs u.

Definition versions_in_range (u : MDNSUpdater.t) : Prop :=
  map_Forall (fun _ v => 0 <= v <= 255) (MDNSUpdater.service_versions u).

(** ** Vocabulary for the statements about the proxy *)

Definition is_attempt (e : Event) : bool :=
  match e with Attempt _ => true | _ => false end.
Definition is_resolve (e : Event) : bool :=
  match e with Resolve _ => true | _ => false end.
Definition is_send (e : Event) : bool :=
  match e with Send _ => true | _ => false end.

Fixpoint count (p : Event -> bool) (ev : list Event) : nat :=
  match ev with
  | [] => O
  | e :: ev' => ((if p e then 1 else 0) + count p ev')%nat
  end.

(** Numbers of attempts started, of resolutions made and of requests
    issued in a stretch of trace. *)
Definition attempts : list Event -> nat := count is_attempt.
Definition resolves : list Event -> nat := count is_resolve.
Definition sends : list Event -> nat := count is_send.

(** What the send primitive never touches. *)
Definition sender_frame (s s' : State) : Prop :=
  node s' = node s /\ registered s' = registered s /\ entities s' = entities s /\
  _running s' = _running s /\ _reg_queue s' = _reg_queue s /\
  world s' = world s /\ auth_calls s' = auth_calls s.

(** The updater after one of the error constructors has run on it. *)
Definition bumped (u : option MDNSUpdater.t) : option MDNSUpdater.t :=
  MDNSUpdater.inc_P2P_enable_count <$> u.

(** The two errors raised by the retry loop itself, outside any attempt. *)
Definition at_loop_level {A : Type} (r : Res A) : bool :=
  match r with
  | Raise NoAggregatorE | Raise TooManyRetriesE => true
  | _ => false
  end.

(** The three errors of the module. *)
Definition sender_error {A : Type} (r : Res A) : bool :=
  match r with
  | Raise NoAggregatorE | Raise (InvalidRequestE _) | Raise TooManyRetriesE => true
  | _ => false
  end.

(** A response that lets the loop go on: neither a success nor a 4xx. *)
Definition unexpected_status (r : Response) : bool :=
  negb ((status_code r =? 200) || (status_code r =? 201) || (status_code r =? 204)
        || (status_code r / 100 =? 4)).

(** A response whose decoding raises [RequestException], where the code
    decodes it: the status is 200 or 201 and the content type is JSON. *)
Definition undecodable (r : Response) : bool :=
  ((status_code r =? 200) || (status_code r =? 201)) &&
  match content_type r with
  | Some ct => String.prefix "application/json" ct
  | None => false
  end &&
  match json r with
  | Undecodable RequestException => true
  | _ => false
  end.

(** What [R] can hold when an attempt starts: nothing, [None], or a
    response that made an earlier attempt fall through. *)
Definition stale (R : option (option Response)) : Prop :=
  match R with
  | Some (Some r) => unexpected_status r || undecodable r = true
  | _ => True
  end.

(** The last event of [ev] is a request that the world answered with
    status [c]; [n] is the number of requests made once it was issued. *)
Definition ends_with_status (w : World) (n : nat) (ev : list Event) (c : Z) : Prop :=
  exists ev0 rq resp,
    ev = ev0 ++ [Send rq] /\
    request w (Nat.pred n) rq = Returns (Some resp) /\
    status_code resp = c.

(** How an attempt may end, and what that does to the updater. *)
Definition attempt_result (s : State) (ev : list Event) (r : Res Step) (s' : State)
  : Prop :=
  match r with
  | Ok (Return _) => _mdns_updater s' = _mdns_updater s
  | Ok (Continue R1) => _mdns_updater s' = _mdns_updater s /\ stale R1
  | Raise (InvalidRequestE c) =>
      c / 100 = 4 /\ _mdns_updater s' = bumped (_mdns_updater s) /\
      ends_with_status (world s) (requests_made s') ev c
  | Raise UnboundLocalError => _mdns_updater s' = _mdns_updater s
  | Raise (Lib e) => e <> RequestException /\ _mdns_updater s' = _mdns_updater s
  | Raise _ => False
  end.

(** What a call of the send primitive guarantees, for a retry loop of [n]
    rounds entered after [init] resolutions: [s] is the state before the
    call, [r] its result, [s'] the state after. *)
Definition SEND_post (cfg : Config) (init n : nat) (s : State) (r : Res Body)
    (s' : State) : Prop :=
  sender_frame s s' /\
  _mdns_updater s' =
    (if sender_error r then bumped (_mdns_updater s) else _mdns_updater s) /\
  (auth_client s = false -> auth_client s' = false) /\
  exists ev,
    trace s' = trace s ++ ev /\
    (attempts ev <= n)%nat /\
    resolves ev =
      (init + if at_loop_level r then attempts ev else Nat.pred (attempts ev))%nat /\
    (at_loop_level r = false -> (1 <= attempts ev)%nat /\ aggregator s' <> "") /\
    (attempts ev <= sends ev <= 2 * attempts ev)%nat /\
    (OAUTH_MODE cfg && auth_client s = false -> sends ev = attempts ev) /\
    requests_made s' = (requests_made s + sends ev)%nat /\
    (r = Raise NoAggregatorE <-> aggregator s' = "" /\ (attempts ev < n)%nat) /\
    (r = Raise TooManyRetriesE <-> attempts ev = n /\ resolves ev = (init + n)%nat) /\
    (forall c, r = Raise (InvalidRequestE c) ->
       c / 100 = 4 /\ ends_with_status (world s) (requests_made s') ev c) /\
    r <> Raise KeyError /\ r <> Raise TypeError /\ r <> Raise (Lib RequestException).

(** The intents that the two closing walks of [_process_reregister] put
    on the queue, as lists: first the ordered types, each across every
    namespace, then every other type. *)
Definition intents_of (namespace res_type : string) (d : Dict Envelope) : list Intent :=
  map (fun key => mkIntent "POST" namespace res_type key) (dict_keys d).

Definition ordered_intents (all : Dict (Dict (Dict Envelope))) : list Intent :=
  flat_map (fun res_type =>
    flat_map (fun '(namespace, entities) =>
      match dict_get res_type entities with
      | Some d => intents_of namespace res_type d
      | None => []
      end) all) registration_order.

Definition other_intents (all : Dict (Dict (Dict Envelope))) : list Intent :=
  flat_map (fun '(namespace, entities) =>
    flat_map (fun res_type =>
      if bool_decide (res_type ∈ registration_order) then []
      else match dict_get res_type entities with
           | Some d => intents_of namespace res_type d
           | None => []
           end) (dict_keys entities)) all.

(** The position of a type in the registration order; the types that are
    not in it all get the position past the last. *)
Fixpoint index_of (x : string) (l : list string) : nat :=
  match l with
  | [] => O
  | y :: l' => if String.eqb x y then O else S (index_of x l')
  end.

Definition rank (res_type : string) : nat := index_of res_type registration_order.

(** Intents compared by the rank of their types. *)
Definition by_rank (x y : Intent) : Prop :=
  (rank (res_type x) <= rank (res_type y))%nat.

(** [T1] comes before [T2] in the registration order. *)
Definition precedes (T1 T2 : string) : Prop :=
  exists a b : nat,
    registration_order !! a = Some T1 /\ registration_order !! b = Some T2 /\
    (a < b)%nat.

(** A DELETE of the node that ends in anything but a return or a 4xx makes
    [_process_reregister] give up. *)
Definition delete_aborts (rd : Res Body) : bool :=
  match rd with
  | Ok _ => false
  | Raise (InvalidRequestE _) => false
  | Raise _ => true
  end.

Definition is_ok {A : Type} (r : Res A) : bool :=
  match r with Ok _ => true | Raise _ => false end.

(** The state in which [_process_reregister] posts the node: unregistered,
    the updater signalled, the queue drained. *)
Definition before_node_post (sd : State) : State :=
  set_reg_queue []
    (on_updater MDNSUpdater.inc_P2P_enable_count (set_registered false sd)).

(** The state it ends in when the node went through: registered, P2P
    disabled, the mirror walked onto the queue. *)
Definition after_walk (sh : State) : State :=
  set_reg_queue (ordered_intents (entities sh) ++ other_intents (entities sh))
    (on_updater MDNSUpdater.P2P_disable (set_registered true sh)).

(** The ways through [_process_reregister], each with the state it
    returns in. *)
Inductive reregister_run (cfg : Config) (s : State) : State -> Prop :=
| RR_no_node :
    node s = None ->
    reregister_run cfg s s
| RR_no_id e :
    node s = Some e -> dict_get "id" (env_data e) = None ->
    reregister_run cfg s s
| RR_delete_failed e id rd sd :
    node s = Some e -> dict_get "id" (env_data e) = Some id ->
    _SEND cfg "DELETE" ("/resource/nodes/" +:+ id) None s = (rd, sd) ->
    delete_aborts rd = true ->
    reregister_run cfg s sd
| RR_post_failed e id rd sd rp sp :
    node s = Some e -> dict_get "id" (env_data e) = Some id ->
    _SEND cfg "DELETE" ("/resource/nodes/" +:+ id) None s = (rd, sd) ->
    delete_aborts rd = false ->
    _SEND cfg "POST" "/resource" (Some e) (before_node_post sd) = (rp, sp) ->
    is_ok rp = false ->
    reregister_run cfg s (set_aggregator "" sp)
| RR_health_failed e id rd sd rp sp rh sh :
    node s = Some e -> dict_get "id" (env_data e) = Some id ->
    _SEND cfg "DELETE" ("/resource/nodes/" +:+ id) None s = (rd, sd) ->
    delete_aborts rd = false ->
    _SEND cfg "POST" "/resource" (Some e) (before_node_post sd) = (rp, sp) ->
    is_ok rp = true ->
    _SEND cfg "POST" ("/health/nodes/" +:+ id) None sp = (rh, sh) ->
    is_ok rh = false ->
    reregister_run cfg s (set_aggregator "" sh)
| RR_done e id rd sd rp sp rh sh :
    node s = Some e -> dict_get "id" (env_data e) = Some id ->
    _SEND cfg "DELETE" ("/resource/nodes/" +:+ id) None s = (rd, sd) ->
    delete_aborts rd = false ->
    _SEND cfg "POST" "/resource" (Some e) (before_node_post sd) = (rp, sp) ->
    is_ok rp = true ->
    _SEND cfg "POST" ("/health/nodes/" +:+ id) None sp = (rh, sh) ->
    is_ok rh = true ->
    reregister_run cfg s (after_walk sh).

(** ** The proxy as a system of actors

    A step of the proxy is one turn of the heartbeat loop (which the loop
    only takes while [_running] holds), one turn of the queue worker, or a
    call of the application. *)
Inductive label : Type :=
| Heartbeat
| Worker
| Register (namespace res_type key : string) (kwargs : Dict string)
| Unregister (namespace res_type key : string)
| Stop.

Inductive proxy_step (cfg : Config) (s : State) : label -> State -> Prop :=
| step_heartbeat :
    _running s = true ->
    proxy_step cfg s Heartbeat (_heartbeat_body cfg s).2
| step_worker :
    proxy_step cfg s Worker (_process_queue_body cfg s).2
| step_register namespace res_type key kwargs :
    proxy_step cfg s (Register namespace res_type key kwargs)
      (register_into cfg namespace res_type key kwargs s).2
| step_unregister namespace res_type key :
    proxy_step cfg s (Unregister namespace res_type key)
      (unregister_from namespace res_type key s).2
| step_stop :
    proxy_step cfg s Stop (stop s).2.

Inductive proxy_run (cfg : Config) : State -> list label -> State -> Prop :=
| run_nil s : proxy_run cfg s [] s
| run_cons s l s1 ls s2 :
    proxy_step cfg s l s1 -> proxy_run cfg s1 ls s2 ->
    proxy_run cfg s (l :: ls) s2.

(** [entities[namespace][res_type][key]], when all three are there. *)
Definition mirror_get (namespace res_type key : string)
    (all : Dict (Dict (Dict Envelope))) : option Envelope :=
  nsd ← dict_get namespace all;
  td ← dict_get res_type nsd;
  dict_get key td.

(** [entities[namespace][res_type]] with [key] deleted. *)
Definition mirror_del (namespace res_type key : string)
    (all : Dict (Dict (Dict Envelope))) : Dict (Dict (Dict Envelope)) :=
  match dict_get namespace all with
  | Some nsd =>
      match dict_get res_type nsd with
      | Some td => dict_set namespace (dict_set res_type (dict_del key td) nsd) all
      | None => all
      end
  | None => all
  end.

(** ** Sample inputs *)

Definition sample_cfg : Config := mkConfig "v1.3" false false.

(** An answer with status [c], no content type and an empty body, which
    does not decode. *)
Definition status (c : Z) : Reply :=
  Returns (Some (mkResponse c None "" (Undecodable RequestException))).

(** A registry that is always found and answers every request alike. *)
Definition answering (r : Reply) : World :=
  mkWorld (fun _ _ _ => "http://reg:4000") (fun _ _ => r) (fun _ => (None, false)).

Definition sample_updater : MDNSUpdater.t :=
  MDNSUpdater.__init__ {[ "device" := "ver_dvc" ]} false 5 None.

Definition sample_node : Envelope :=
  mkEnvelope "node" [("id", "n1"); ("label", "t")].

Definition sample_sender : Envelope := mkEnvelope "sender" [("id", "s1")].

(** A registered proxy holding one sender, with [q] on its queue. *)
Definition registered_proxy (w : World) (q : list Intent) : State :=
  mkState "http://reg:4000" (Some sample_updater) (Some sample_node) true
    [("resource", [("sender", [("s1", sample_sender)])])] false true q w 0 0 0 [].

(** ** Well-formed queues

    A queued POST for a type other than node was put there by
    [register_into] or by the re-registration walk, so the mirror has a
    dictionary for its namespace and type, whether or not the key is still
    in it. *)
Definition has_bucket (namespace res_type : string)
    (all : Dict (Dict (Dict Envelope))) : Prop :=
  exists nsd td, dict_get namespace all = Some nsd /\ dict_get res_type nsd = Some td.

Definition queue_ok (s : State) : Prop :=
  forall item, In item (_reg_queue s) ->
    method item = "POST" -> res_type item <> "node" ->
    has_bucket (namespace item) (res_type item) (entities s).

(** The namespaces of the mirror are the keys of a dictionary. *)
Definition proxy_inv (s : State) : Prop :=
  NoDup (dict_keys (entities s)) /\ queue_ok s.

(** Every dictionary of the mirror before is still there after. *)
Definition buckets_kept (s s' : State) : Prop :=
  forall ns T, has_bucket ns T (entities s) -> has_bucket ns T (entities s').

(** What a step may do to the mirror and its dictionaries. *)
Definition mirror_grows (s s' : State) : Prop :=
  (NoDup (dict_keys (entities s)) -> NoDup (dict_keys (entities s'))) /\
  buckets_kept s s'.
(** ** The status report *)

(** A value of the dictionary that [status] returns. *)
Inductive StatusValue : Type :=
| StatusStr (s : string)
| StatusBool (b : bool).

Module Aggregator.

(** [status]: the aggregator in use, the API version, the flag. *)
Definition status (cfg : Config) (s : State) : Dict StatusValue :=
  [("api_href", StatusStr (aggregator s));
   ("api_version", StatusStr (AGGREGATOR_APIVERSION cfg));
   ("registered", StatusBool (registered s))].

End Aggregator.

(** ** The update thread of the mDNS updater *)

(** What a call of the engine's [update] does: it returns, it raises
    [ServiceNotFoundException], or it raises something else. *)
Inductive EngineReply : Type :=
| Updated
| ServiceNotFoundException
| EngineFailure.

(** The calls made on the engine: [register] by the constructor, [update]
    by the thread, each with the TXT records handed over. *)
Inductive EngineCall : Type :=
| mdns_register (txt_recs : gmap string TxtValue)
| mdns_update (txt_recs : gmap string TxtValue).

Module MDNSThread.

(** The updater together with what its thread reads and the engine it
    drives: [engine k] is what the k-th call of [update] does. *)
Record t : Type := mk {
  updater : MDNSUpdater.t;
  _running : bool;
  engine : nat -> EngineReply;
  engine_calls : list EngineCall
}.

Definition set_updater (u : MDNSUpdater.t) (th : t) : t :=
  mk u (_running th) (engine th) (engine_calls th).

Definition set_running (b : bool) (th : t) : t :=
  mk (updater th) b (engine th) (engine_calls th).

Definition set_engine_calls (cs : list EngineCall) (th : t) : t :=
  mk (updater th) (_running th) (engine th) cs.

Definition set_mdns_update_queue (q : list (gmap string TxtValue))
    (u : MDNSUpdater.t) : MDNSUpdater.t :=
  MDNSUpdater.mk (MDNSUpdater.mappings u) (MDNSUpdater.service_versions u)
    (MDNSUpdater.txt_rec_base u) (MDNSUpdater.p2p_enable u)
    (MDNSUpdater.p2p_enable_count u) (MDNSUpdater.p2p_cut_in_count u) q.

(** The [update] calls among the calls made so far. *)
Fixpoint updates (cs : list EngineCall) : list (gmap string TxtValue) :=
  match cs with
  | [] => []
  | mdns_update r :: cs' => r :: updates cs'
  | mdns_register _ :: cs' => updates cs'
  end.

(** The end of [MDNSUpdater.__init__]: the service is registered with the
    base TXT records, the thread is started. *)
Definition __init__ (mappings : gmap string string) (p2p_enable : bool)
    (p2p_cut_in_count : Z) (txt_recs : option (gmap string TxtValue))
    (engine : nat -> EngineReply) : t :=
  let u := MDNSUpdater.__init__ mappings p2p_enable p2p_cut_in_count txt_recs in
  mk u true engine [mdns_register (MDNSUpdater.txt_rec_base u)].

(** The body of the [while] loop of [_modify_mdns].  With an empty queue
    it sleeps; else it takes the oldest record set and hands it to the
    engine.  [ServiceNotFoundException] is logged; any other exception
    leaves the loop. *)
Definition _modify_mdns_body (th : t) : Res unit * t :=
  match MDNSUpdater._mdns_update_queue (updater th) with
  | [] => (Ok tt, th)
  | txt_recs :: rest =>
      let th1 :=
        set_engine_calls (engine_calls th ++ [mdns_update txt_recs])
          (set_updater (set_mdns_update_queue rest (updater th)) th) in
      match engine th (length (updates (engine_calls th))) with
      | Updated => (Ok tt, th1)
      | ServiceNotFoundException => (Ok tt, th1)
      | EngineFailure => (Raise (Lib OtherException), th1)
      end
  end.

(** [while self._running] *)
Fixpoint _modify_mdns (fuel : nat) (th : t) : Res unit * t :=
  match fuel with
  | O => (Ok tt, th)
  | S fuel' =>
      if _running th then
        match _modify_mdns_body th with
        | (Ok _, th1) => _modify_mdns fuel' th1
        | (Raise e, th1) => (Raise e, th1)
        end
      else (Ok tt, th)
  end.

(** [stop] clears the flag; joining the thread is scheduling. *)
Definition stop (th : t) : t := set_running false th.

(** A call on the public interface of the updater, made while the thread
    exists. *)
Definition call (c : updater_call) (th : t) : t :=
  set_updater (run_call c (updater th)) th.

(** The record sets handed to the engine so far, followed by those still
    waiting. *)
Definition stream (th : t) : list (gmap string TxtValue) :=
  updates (engine_calls th) ++ MDNSUpdater._mdns_update_queue (updater th).

(** A step of the updater and its thread: a turn of the loop that does
    not leave it, or a call of the application. *)
Inductive step : t -> t -> Prop :=
| step_turn th th1 :
    _running th = true -> _modify_mdns_body th = (Ok tt, th1) -> step th th1
| step_call c th : step th (call c th)
| step_stop th : step th (stop th).

Inductive run : t -> t -> Prop :=
| run_refl th : run th th
| run_step th th1 th2 : step th th1 -> run th1 th2 -> run th th2.

End MDNSThread.

(** ** Vocabulary for the further statements about the updater *)

(** Every mapped name has a service version. *)
Definition versions_cover_mappings (u : MDNSUpdater.t) : Prop :=
  forall type m, MDNSUpdater.mappings u !! type = Some m ->
    is_Some (MDNSUpdater.service_versions u !! m).

Definition counted_action (action : string) : bool :=
  String.eqb action "register" || String.eqb action "update"
  || String.eqb action "unregister".

(** ** Vocabulary for the further statements about the send primitive *)

(** The aggregator held once the events [ev] have happened, when [a] was
    held before them. *)
Fixpoint aggregator_after (a : string) (ev : list Event) : string :=
  match ev with
  | [] => a
  | Resolve h :: ev' => aggregator_after h ev'
  | _ :: ev' => aggregator_after a ev'
  end.

(** Every request in [ev] is the request [method url data], addressed to
    the aggregator held when it is issued, which is not the empty URL. *)
Fixpoint well_addressed (a method url : string) (data : option Envelope)
    (ev : list Event) : Prop :=
  match ev with
  | [] => True
  | Resolve h :: ev' => well_addressed h method url data ev'
  | Attempt _ :: ev' => well_addressed a method url data ev'
  | Send rq :: ev' =>
      (a <> "" /\ rq_aggregator rq = a /\ rq_method rq = method /\
       rq_url rq = url /\ rq_data rq = data) /\
      well_addressed a method url data ev'
  end.

(** The value [_SEND] returns for a response it accepts: for 200 and 201
    the decoded body when the content type is JSON, which then has to
    decode, and the raw content otherwise; for 204 nothing. *)
Definition accepted (resp : Response) (b : Body) : Prop :=
  ((status_code resp = 200 \/ status_code resp = 201) /\
   match content_type resp with
   | Some ct =>
       if String.prefix "application/json" ct
       then exists value, json resp = Decodes value /\ b = Json value
       else b = Raw (content resp)
   | None => b = Raw (content resp)
   end) \/
  (status_code resp = 204 /\ b = NoBody).

(** The last event of [ev] is a request that the world answered with a
    response for which the call returned [b]; [n] is the number of
    requests made once it was issued. *)
Definition ends_accepted (w : World) (n : nat) (ev : list Event) (a : string)
    (b : Body) : Prop :=
  exists ev0 rq resp,
    ev = ev0 ++ [Send rq] /\
    request w (Nat.pred n) rq = Returns (Some resp) /\
    rq_aggregator rq = a /\
    accepted resp b.

(** ** Vocabulary for the further statements about the mirror *)

(** An envelope as [register_into] builds it for type [T]: it carries
    that type and an ["id"]. *)
Definition envelope_ok (T : string) (e : Envelope) : Prop :=
  env_type e = T /\ dict_mem "id" (env_data e) = true.

(** Every envelope the proxy holds is such an envelope, and the mirror
    has its [resource] namespace. *)
Definition mirror_ok (s : State) : Prop :=
  dict_mem "resource" (entities s) = true /\
  (forall e, node s = Some e -> envelope_ok "node" e) /\
  (forall ns T k e, mirror_get ns T k (entities s) = Some e -> envelope_ok T e).

(** What a step may do to the envelopes: a namespace stays, and an
    envelope found afterwards was there before or is well formed. *)
Definition mirror_step (s s' : State) : Prop :=
  (forall ns, dict_mem ns (entities s) = true -> dict_mem ns (entities s') = true) /\
  (forall e, node s' = Some e -> node s = Some e \/ envelope_ok "node" e) /\
  (forall ns T k e,
      mirror_get ns T k (entities s') = Some e ->
      mirror_get ns T k (entities s) = Some e \/ envelope_ok T e).

(** ** Vocabulary for the invariants of the counter and of the queue *)

(** The counter is not negative and, while P2P is off, below the
    threshold. *)
Definition count_below_threshold (u : MDNSUpdater.t) : Prop :=
  0 <= MDNSUpdater.p2p_enable_count u /\
  (MDNSUpdater.p2p_enable u = false ->
   MDNSUpdater.p2p_enable_count u < MDNSUpdater.p2p_cut_in_count u).

(** Every queued intent is a POST or a DELETE. *)
Definition queue_methods_ok (s : State) : Prop :=
  forall item, In item (_reg_queue s) ->
    method item = "POST" \/ method item = "DELETE".

(** ** Further sample inputs *)

(** A registry that lets the first request go unanswered and answers 200
    from then on, with a bridge that then names another aggregator. *)
Definition failing_over : World :=
  mkWorld (fun _ _ _ => "http://reg2:4000")
    (fun k _ => match k with O => Throws RequestException | S _ => status 200 end)
    (fun _ => (None, false)).

(** A bridge that knows a registry under the legacy type only. *)
Definition legacy_only : World :=
  mkWorld
    (fun _ srv_type _ =>
       if String.eqb srv_type LEGACY_REG_MDNSTYPE then "http://old:4000" else "")
    (fun _ _ => status 200) (fun _ => (None, false)).

(** An answer 200 that announces JSON and carries a body that does not
    decode. *)
Definition garbled_reply : Reply :=
  Returns (Some (mkResponse 200 (Some "application/json") "not json"
                   (Undecodable RequestException))).

(** A bridge that finds a registry twice and nothing from then on, and a
    network on which every request fails in transport. *)
Definition drying_up : World :=
  mkWorld
    (fun k _ _ => match k with O | 1%nat => "http://reg2:4000" | _ => "" end)
    (fun _ _ => Throws RequestException) (fun _ => (None, false)).

(** A registry that answers 200 with a JSON body. *)
Definition json_reply : Reply :=
  Returns (Some (mkResponse 200 (Some "application/json; charset=utf-8") "{}"
                   (Decodes "{}"))).

Definition oauth_cfg : Config := mkConfig "v1.3" true false.

(** A registered proxy with an OAuth client attached. *)
Definition oauth_proxy (w : World) : State :=
  mkState "http://reg:4000" (Some sample_updater) (Some sample_node) true
    [("resource", [])] true true [] w 0 0 0 [].

(** The sample updater with P2P switched on. *)
Definition enabled_updater : MDNSUpdater.t :=
  run_calls [Call_P2P_enable] sample_updater.

(** An engine that never finds the service. *)
Definition deaf_engine : nat -> EngineReply := fun _ => ServiceNotFoundException.


(** * Properties *)

(** ** The mDNS updater *)

Module UpdaterFacts.
Import MDNSUpdater.

Lemma init_in_range mappings p2p cut txt :
  versions_in_range (__init__ mappings p2p cut txt).
Proof.
  unfold versions_in_range; simpl.
  apply (map_fold_weak_ind (fun sv _ => map_Forall (fun _ v => 0 <= v <= 255) sv)).
  - apply map_Forall_empty.
  - intros i x m r _ IH. apply map_Forall_insert_2; [simpl; lia | exact IH].
Qed.

Lemma increment_in_range type u u1 :
  versions_in_range u ->
  _increment_service_version type u = Ok u1 ->
  versions_in_range u1.
Proof.
  unfold versions_in_range, _increment_service_version. intros Hu.
  destruct (mappings u !! type) as [m|]; [|discriminate].
  destruct (service_versions u !! m) as [v|] eqn:Hv; [|discriminate].
  pose proof (map_Forall_lookup_1 _ _ _ _ Hu Hv) as Hr. simpl in Hr.
  destruct (255 <? v + 1) eqn:Hlt; intros [= <-]; simpl.
  - rewrite insert_insert_eq. apply map_Forall_insert_2; [simpl; lia|exact Hu].
  - apply map_Forall_insert_2; [|exact Hu]. apply Z.ltb_ge in Hlt. simpl. lia.
Qed.

Lemma inc_P2P_versions u :
  service_versions (inc_P2P_enable_count u) = service_versions u.
Proof.
  unfold inc_P2P_enable_count, P2P_enable.
  destruct (p2p_enable u) eqn:He; simpl; [reflexivity|].
  destruct (_ <=? _); simpl; [rewrite He|]; reflexivity.
Qed.

Lemma P2P_enable_versions u : service_versions (P2P_enable u) = service_versions u.
Proof. unfold P2P_enable. destruct (p2p_enable u); reflexivity. Qed.

Lemma P2P_disable_versions u : service_versions (P2P_disable u) = service_versions u.
Proof. unfold P2P_disable. destruct (p2p_enable u); reflexivity. Qed.

Lemma run_call_in_range c u : versions_in_range u -> versions_in_range (run_call c u).
Proof.
  intros Hu. destruct c as [type action| | |]; simpl.
  - unfold update_mdns.
    destruct (p2p_enable u); [|exact Hu].
    destruct (_ || _); [|exact Hu].
    destruct (_increment_service_version type u) as [u1|e] eqn:Hinc; [|exact Hu].
    apply (increment_in_range _ _ _ Hu) in Hinc. exact Hinc.
  - unfold versions_in_range. rewrite inc_P2P_versions. exact Hu.
  - unfold versions_in_range. rewrite P2P_enable_versions. exact Hu.
  - unfold versions_in_range. rewrite P2P_disable_versions. exact Hu.
Qed.

Lemma run_calls_in_range cs u : versions_in_range u -> versions_in_range (run_calls cs u).
Proof.
  revert u. induction cs as [|c cs IH]; intros u Hu; [exact Hu|].
  apply IH, run_call_in_range, Hu.
Qed.

(** [k] signals below the threshold only move the counter. *)
Lemma inc_below_threshold u (k : nat) :
  p2p_enable u = false ->
  p2p_enable_count u = 0 ->
  Z.of_nat k < p2p_cut_in_count u ->
  Nat.iter k inc_P2P_enable_count u = set_p2p_enable_count (Z.of_nat k) u.
Proof.
  intros He Hc. induction k as [|k IH]; intros Hk.
  - simpl. destruct u; simpl in *; subst; reflexivity.
  - rewrite Nat.iter_succ, IH by lia.
    unfold inc_P2P_enable_count; simpl. rewrite He; simpl.
    destruct (p2p_cut_in_count u <=? Z.of_nat k + 1) eqn:Hle.
    + apply Z.leb_le in Hle. lia.
    + unfold set_p2p_enable_count; simpl. f_equal. lia.
Qed.
End UpdaterFacts.

(** C9.  From construction onwards, whatever calls are made on the
    updater, every service version stays within 0..255; and the increment
    that [update_mdns] performs on a version standing at 255 leaves it
    at 0. *)
Theorem service_version_wrap :
  (forall mappings p2p cut txt (cs : list updater_call) (m : string) (v : Z),
      MDNSUpdater.service_versions
        (run_calls cs (MDNSUpdater.__init__ mappings p2p cut txt)) !! m = Some v ->
      0 <= v <= 255) /\
  (forall (u : MDNSUpdater.t) (type action m : string),
      MDNSUpdater.p2p_enable u = true ->
      action = "register" \/ action = "update" \/ action = "unregister" ->
      MDNSUpdater.mappings u !! type = Some m ->
      MDNSUpdater.service_versions u !! m = Some 255 ->
      exists u1, MDNSUpdater.update_mdns type action u = Ok u1 /\
                 MDNSUpdater.service_versions u1 !! m = Some 0).
Proof.
  split.
  - intros mappings p2p cut txt cs m v Hv.
    pose proof (UpdaterFacts.run_calls_in_range cs _
                  (UpdaterFacts.init_in_range mappings p2p cut txt)) as Hr.
    exact (map_Forall_lookup_1 _ _ _ _ Hr Hv).
  - intros u type action m He Ha Hm Hv.
    unfold MDNSUpdater.update_mdns, MDNSUpdater._increment_service_version.
    rewrite He, Hm, Hv.
    replace (_ || _) with true by (destruct Ha as [->|[->| ->]]; reflexivity).
    simpl. eexists; split; [reflexivity|]. simpl. apply lookup_insert_eq.
Qed.

(** C8.  With P2P off and the counter at 0, the first N - 1 signals leave
    P2P off and the update queue untouched, and the N-th turns P2P on and
    puts the merged TXT records (base updated with the service versions) on
    the queue, once; N is [p2p_cut_in_count], at least 1. *)
Theorem p2p_engagement (u : MDNSUpdater.t) (n : nat) :
  MDNSUpdater.p2p_enable u = false ->
  MDNSUpdater.p2p_enable_count u = 0 ->
  MDNSUpdater.p2p_cut_in_count u = Z.of_nat n ->
  (1 <= n)%nat ->
  let after k := Nat.iter k MDNSUpdater.inc_P2P_enable_count u in
  MDNSUpdater.p2p_enable (after n) = true /\
  MDNSUpdater._mdns_update_queue (after n) =
    MDNSUpdater._mdns_update_queue u ++
      [(TxtInt <$> MDNSUpdater.service_versions u) ∪ MDNSUpdater.txt_rec_base u] /\
  (forall k, (k < n)%nat ->
     MDNSUpdater.p2p_enable (after k) = false /\
     MDNSUpdater._mdns_update_queue (after k) = MDNSUpdater._mdns_update_queue u).
Proof.
  intros He Hc Hn Hpos after.
  assert (Hbelow : forall k, (k < n)%nat ->
            after k = MDNSUpdater.set_p2p_enable_count (Z.of_nat k) u).
  { intros k Hk. apply UpdaterFacts.inc_below_threshold; [exact He|exact Hc|lia]. }
  destruct n as [|n']; [lia|].
  assert (Hlast : after (S n') =
            MDNSUpdater.inc_P2P_enable_count (after n')) by apply Nat.iter_succ.
  rewrite Hlast, (Hbelow n') by lia.
  unfold MDNSUpdater.inc_P2P_enable_count, MDNSUpdater.P2P_enable; simpl.
  rewrite He; simpl. rewrite Hn.
  replace (Z.of_nat (S n') <=? Z.of_nat n' + 1) with true
    by (symmetry; apply Z.leb_le; lia).
  simpl. split; [reflexivity|]. split; [reflexivity|].
  intros k Hk. rewrite (Hbelow k Hk). simpl. split; [exact He|reflexivity].
Qed.

(** ** The send primitive *)

Lemma bind_eq {A B : Type} (m : M A) (f : A -> M B) (s : State) :
  (m ≫= f) s =
  match m s with
  | (Ok a, s1) => f a s1
  | (Raise e, s1) => (Raise e, s1)
  end.
Proof. reflexivity. Qed.

Lemma count_app p ev1 ev2 : count p (ev1 ++ ev2) = (count p ev1 + count p ev2)%nat.
Proof. induction ev1 as [|e ev1 IH]; simpl; [reflexivity|]. rewrite IH. lia. Qed.

(** Unfolding the monad operations leaves calls to methods folded. *)
Create HintDb monad discriminated.
#[global] Hint Unfold mbind M_bind mret M_ret gets modify emit raise raise_with
  with_mdns_updater try_except : monad.

Ltac mstep := autounfold with monad in *; cbn beta iota zeta in *.

Lemma _get_api_href_spec cfg s r s' :
  _get_api_href cfg s = (r, s') ->
  exists h k,
    r = Ok h /\ s' = set_trace (trace s ++ [Resolve h]) (set_href_calls k s).
Proof.
  unfold _get_api_href, mdnsbridge_getHref. mstep.
  repeat case_match; intros; simplify_eq; eexists _, _; split; reflexivity.
Qed.

(** Settles a goal or a hypothesis about the status tests of a response
    from the tests already decided. *)
Ltac decide_status :=
  unfold stale, unexpected_status, undecodable in *;
  repeat match goal with
         | H : json _ = _ |- _ => rewrite H in *; clear H
         | H : content_type _ = _ |- _ => rewrite H in *; clear H
         | H : String.prefix _ _ = _ |- _ => rewrite H in *; clear H
         | H : (_ =? _) = _ |- _ => rewrite H in *; clear H
         | H : (_ =? _) || (_ =? _) = _ |- _ => rewrite H in *; clear H
         end;
  cbn [negb orb andb] in *; rewrite ?orb_true_r, ?andb_false_r in *;
  cbn [negb orb andb] in *;
  first [reflexivity | discriminate | assumption | exact I].

Lemma attempt_spec cfg method url data R s r s' :
  stale R ->
  attempt cfg method url data R s = (r, s') ->
  sender_frame s s' /\ aggregator s' = aggregator s /\
  (auth_client s = false -> auth_client s' = false) /\
  exists ev,
    trace s' = trace s ++ ev /\
    attempts ev = 0%nat /\ resolves ev = 0%nat /\ (1 <= sends ev <= 2)%nat /\
    (OAUTH_MODE cfg && auth_client s = false -> sends ev = 1%nat) /\
    requests_made s' = (requests_made s + sends ev)%nat /\
    attempt_result s ev r s'.
Proof.
  intros HR H. revert H.
  unfold attempt, dispatch, except_RequestException, obtain_R, requests_request,
    fetch_auth_token, InvalidRequest. mstep.
  intros H. simpl in H.
  repeat (case_match; simpl in *; simplify_eq).
  all: try (exfalso; decide_status).
  all: split; [unfold sender_frame; simpl; repeat split|].
  all: split; [reflexivity|]. all: split; [simpl; intros; first [assumption|reflexivity]|].
  all: simpl; rewrite <- ?app_assoc; eexists; split; [reflexivity|].
  all: split; [reflexivity|]. all: split; [reflexivity|].
  all: split; [unfold sends; simpl; lia|].
  all: split;
    [unfold sends; simpl; first [reflexivity | intros; destruct (OAUTH_MODE cfg), (auth_client s); discriminate]|].
  all: split; [unfold sends; simpl; lia|].
  all: simpl in *.
  all: try match goal with
       | H : _mdns_updater _ = _ |- _ => unfold bumped; rewrite H; simpl
       end.
  all: repeat match goal with
       | |- _ /\ _ => split
       | |- _ = _ => reflexivity
       | |- True => exact I
       | H : (?x =? 4) = true |- ?x = 4 => apply Z.eqb_eq, H
       | |- _ <> _ => discriminate
       | |- ends_with_status _ _ [_] _ => eexists [], _, _
       | |- ends_with_status _ _ [?a; _] _ => eexists [a], _, _
       | |- _ = Returns _ => simpl; eassumption
       | |- stale _ => decide_status
       | |- _ || _ = true => decide_status
       end.
Qed.

Lemma _SEND_loop_spec cfg method url data range :
  forall R s r s',
    stale R ->
    _SEND_loop cfg range method url data R s = (r, s') ->
    SEND_post cfg 0 (length range) s r s'.
Proof.
  induction range as [|i range' IH]; intros R s r s' HR.
  - (* the range is exhausted *)
    simpl. unfold TooManyRetries. mstep.
    destruct (_mdns_updater s) eqn:Hu; intros [= <- <-].
    all: split; [unfold sender_frame; simpl; repeat split|].
    all: split; [simpl; rewrite Hu; reflexivity|].
    all: split; [simpl; tauto|].
    all: exists []; unfold sends, attempts, resolves; simpl; rewrite app_nil_r.
    all: repeat split; try discriminate; try lia; try reflexivity.
    all: intros; try discriminate; intuition (try discriminate; try lia).
  - simpl. mstep.
    destruct (String.eqb (aggregator s) "") eqn:Hagg.
    + (* nothing to talk to *)
      unfold NoAggregator. apply String.eqb_eq in Hagg.
      destruct (_mdns_updater s) eqn:Hu; intros [= <- <-].
      all: split; [unfold sender_frame; simpl; repeat split|].
      all: split; [simpl; rewrite Hu; reflexivity|].
      all: split; [simpl; tauto|].
      all: exists []; unfold sends, attempts, resolves; simpl; rewrite app_nil_r.
      all: repeat split; try discriminate; try lia; try reflexivity; try assumption.
      all: intros; try discriminate; intuition (try discriminate; try lia).
    + apply String.eqb_neq in Hagg.
      destruct (attempt _ _ _ _ _ _) as [r1 s1] eqn:Hatt.
      apply attempt_spec in Hatt; [|exact HR].
      destruct Hatt as (Hfr & Hag & Hac & ev1 & Htr & Ha1 & Hr1 & Hs1 & Hoa & Hrm & Hres).
      unfold sender_frame in Hfr. simpl in Hfr, Hag, Hac, Htr, Hoa, Hrm, Hres.
      destruct Hfr as (Hf1 & Hf2 & Hf3 & Hf4 & Hf5 & Hf6 & Hf7).
      rewrite <- app_assoc in Htr.
      destruct r1 as [[b|R1]|e].
      * (* the attempt returned *)
        intros [= <- <-]. simpl in Hres.
        split; [unfold sender_frame; tauto|].
        split; [exact Hres|]. split; [exact Hac|].
        eexists; split; [exact Htr|].
        unfold sends, attempts, resolves in *. rewrite !count_app. simpl.
        rewrite Ha1, Hr1, Hag.
        repeat split; try discriminate; try lia; try assumption.
        all: intros; try discriminate; intuition (try discriminate; try lia).
      * (* the attempt failed over *)
        destruct Hres as [Hu1 HR1].
        destruct (_get_api_href cfg s1) as [rh s2] eqn:Hhref.
        apply _get_api_href_spec in Hhref. destruct Hhref as (h & k & -> & ->).
        intros Hloop. apply IH in Hloop; [|exact HR1].
        destruct Hloop as (Gfr & Gu & Gac & ev2 & Gtr & Ga & Gr & Gl & Gs & Go & Grm & Gna & Gtm & Gir & Gk & Gt & Gq).
        unfold sender_frame in Gfr. simpl in Gfr, Gu, Gac, Gtr, Go, Grm, Gir.
        destruct Gfr as (Gf1 & Gf2 & Gf3 & Gf4 & Gf5 & Gf6 & Gf7).
        split; [unfold sender_frame; intuition congruence|].
        split; [rewrite Gu, Hu1; reflexivity|].
        split; [tauto|].
        exists ([Attempt i] ++ ev1 ++ [Resolve h] ++ ev2).
        split; [rewrite Gtr, Htr, <- !app_assoc; reflexivity|].
        unfold sends, attempts, resolves in *. rewrite !count_app. simpl.
        rewrite Ha1, Hr1. simpl in Hu1.
        assert (Hoa' : OAUTH_MODE cfg && auth_client s = false ->
                       OAUTH_MODE cfg && auth_client s1 = false).
        { destruct (OAUTH_MODE cfg); simpl; [exact Hac|reflexivity]. }
        assert (Hends : forall c, r = Raise (InvalidRequestE c) ->
                  c / 100 = 4 /\
                  ends_with_status (world s) (requests_made s')
                    (Attempt i :: ev1 ++ Resolve h :: ev2) c).
        { intros c Hc. destruct (Gir c Hc) as (Hc4 & ev0 & rq & resp & -> & Hq & Hst).
          split; [exact Hc4|].
          exists (Attempt i :: ev1 ++ Resolve h :: ev0), rq, resp.
          split; [simpl; rewrite <- app_assoc; reflexivity|].
          split; [rewrite <- Hf6; exact Hq|exact Hst]. }
        destruct (at_loop_level r) eqn:Hl.
        -- split; [lia|]. split; [lia|]. split; [discriminate|].
           split; [lia|]. split; [intros Ho; rewrite (Hoa Ho), (Go (Hoa' Ho)); lia|].
           split; [lia|].
           split; [rewrite Gna; intuition lia|].
           split; [rewrite Gtm; intuition lia|].
           split; [exact Hends|]. tauto.
        -- destruct (Gl eq_refl) as [Gl1 Gl2].
           split; [lia|]. split; [lia|]. split; [intros _; split; [lia|exact Gl2]|].
           split; [lia|]. split; [intros Ho; rewrite (Hoa Ho), (Go (Hoa' Ho)); lia|].
           split; [lia|].
           split; [rewrite Gna; intuition lia|].
           split; [rewrite Gtm; intuition lia|].
           split; [exact Hends|]. tauto.
      * (* the attempt raised *)
        intros [= <- <-].
        destruct e as [| c | | | | | e]; simpl in Hres; try contradiction.
        all: split; [unfold sender_frame; tauto|].
        all: split; [simpl; tauto|]. all: split; [exact Hac|].
        all: exists ([Attempt i] ++ ev1); split; [exact Htr|].
        all: unfold sends, attempts, resolves in *; rewrite !count_app; simpl.
        all: rewrite Ha1, Hr1, Hag.
        all: split; [lia|]. all: split; [lia|]. all: split; [intros _; split; [lia|exact Hagg]|].
        all: split; [lia|]. all: split; [intros Ho; rewrite (Hoa Ho); lia|].
        all: split; [lia|].
        all: split; [split; [discriminate|tauto]|].
        all: split; [split; [discriminate|lia]|].
        all: split; [|repeat split; try discriminate].
        all: try (intros c0; discriminate).
        -- intros c0 [= <-].
           destruct Hres as (Hc4 & _ & ev0 & rq & resp & -> & Hq & Hst).
           split; [exact Hc4|]. exists (Attempt i :: ev0), rq, resp. tauto.
        -- intros [= ->]. tauto.
Qed.

(** The send primitive resolves once more when it starts without an
    aggregator, then runs a loop of three rounds. *)
Lemma _SEND_spec cfg method url data s r s' :
  _SEND cfg method url data s = (r, s') ->
  SEND_post cfg (if String.eqb (aggregator s) "" then 1 else 0) 3 s r s'.
Proof.
  unfold _SEND. mstep.
  destruct (String.eqb (aggregator s) "") eqn:Hagg.
  - destruct (_get_api_href cfg s) as [rh s2] eqn:Hhref.
    apply _get_api_href_spec in Hhref. destruct Hhref as (h & k & -> & ->).
    intros Hloop. apply _SEND_loop_spec in Hloop; [|exact I].
    destruct Hloop as (Gfr & Gu & Gac & ev2 & Gtr & Ga & Gr & Gl & Gs & Go & Grm & Gna & Gtm & Gir & Gk & Gt & Gq).
    unfold sender_frame in Gfr. simpl in Gfr, Gu, Gac, Gtr, Ga, Go, Grm, Gir, Gna, Gtm.
    split; [exact Gfr|]. split; [exact Gu|]. split; [exact Gac|].
    exists ([Resolve h] ++ ev2).
    split; [rewrite Gtr, <- !app_assoc; reflexivity|].
    unfold sends, attempts, resolves in *. rewrite !count_app. simpl.
    split; [lia|]. split; [lia|]. split; [exact Gl|]. split; [lia|].
    split; [exact Go|]. split; [lia|]. split; [exact Gna|].
    split; [rewrite Gtm; intuition lia|].
    split; [|tauto].
    intros c Hc. destruct (Gir c Hc) as (Hc4 & ev0 & rq & resp & -> & Hq & Hst).
    split; [exact Hc4|]. exists (Resolve h :: ev0), rq, resp. tauto.
  - intros Hloop. apply _SEND_loop_spec in Hloop; [|exact I]. exact Hloop.
Qed.

(** Whatever else an attempt does, it begins by issuing the request. *)
Lemma attempt_first cfg method url data R s r s' :
  attempt cfg method url data R s = (r, s') ->
  exists rest,
    trace s' =
    trace s ++
      Send (mkRequest method (aggregator s) url data
              (OAUTH_MODE cfg && auth_client s)) :: rest.
Proof.
  intros H. revert H.
  unfold attempt, dispatch, except_RequestException, obtain_R, requests_request,
    fetch_auth_token, InvalidRequest. mstep.
  intros H. simpl in H.
  repeat (case_match; simpl in *; simplify_eq).
  all: match goal with
       | H : negb (OAUTH_MODE _) || negb (auth_client _) = _ |- _ =>
           destruct (OAUTH_MODE cfg), (auth_client s); simpl in H; try discriminate
       end.
  all: simpl; rewrite <- ?app_assoc; simpl; eexists; reflexivity.
Qed.

(** One round of the retry loop, as the three ways it can go. *)
Lemma _SEND_loop_step cfg method url data i range' R s r s' :
  stale R ->
  _SEND_loop cfg (i :: range') method url data R s = (r, s') ->
  (aggregator s = "" /\ r = Raise NoAggregatorE /\ trace s' = trace s) \/
  (aggregator s <> "" /\
   exists ev1, attempts ev1 = 0%nat /\ resolves ev1 = 0%nat /\
     (exists ev1', ev1 = Send (mkRequest method (aggregator s) url data
                                 (OAUTH_MODE cfg && auth_client s)) :: ev1') /\
     ((at_loop_level r = false /\ trace s' = trace s ++ Attempt i :: ev1) \/
      (exists R1 h s3,
          stale R1 /\ trace s3 = trace s ++ Attempt i :: ev1 ++ [Resolve h] /\
          aggregator s3 = h /\
          _SEND_loop cfg range' method url data R1 s3 = (r, s')))).
Proof.
  intros HR. simpl. mstep.
  destruct (String.eqb (aggregator s) "") eqn:Hagg.
  - apply String.eqb_eq in Hagg. unfold NoAggregator.
    destruct (_mdns_updater s); intros [= <- <-]; left; auto.
  - apply String.eqb_neq in Hagg.
    destruct (attempt _ _ _ _ _ _) as [r1 s1] eqn:Hatt.
    pose proof (attempt_first _ _ _ _ _ _ _ _ Hatt) as (rest & Hfirst).
    apply attempt_spec in Hatt; [|exact HR].
    destruct Hatt as (_ & _ & _ & ev1 & Htr & Ha1 & Hr1 & _ & _ & _ & Hres).
    simpl in Htr, Hres, Hfirst.
    assert (Hev1 : ev1 = Send (mkRequest method (aggregator s) url data
                                 (OAUTH_MODE cfg && auth_client s)) :: rest).
    { rewrite Htr in Hfirst. apply app_inv_head in Hfirst. exact Hfirst. }
    rewrite <- app_assoc in Htr.
    intros Hrun. right. split; [exact Hagg|].
    exists ev1. split; [exact Ha1|]. split; [exact Hr1|].
    split; [exists rest; exact Hev1|].
    destruct r1 as [[b|R1]|e].
    + injection Hrun as <- <-. left. split; [reflexivity|exact Htr].
    + destruct Hres as [_ HR1].
      destruct (_get_api_href cfg s1) as [rh s2] eqn:Hhref.
      apply _get_api_href_spec in Hhref. destruct Hhref as (h & k & -> & ->).
      right. eexists R1, h, _.
      split; [exact HR1|]. split; [|split; [|exact Hrun]]; simpl.
      * rewrite Htr, <- !app_assoc. reflexivity.
      * reflexivity.
    + injection Hrun as <- <-. left. split; [|exact Htr].
      destruct e; simpl in Hres; try contradiction; reflexivity.
Qed.

(** Where a resolution sits in a trace that has one. *)
Lemma split_at_resolve (A B ev0 ev1 : list Event) (x h : string) :
  resolves A = 0%nat ->
  ev0 ++ Resolve x :: ev1 = A ++ Resolve h :: B ->
  (ev0 = A /\ x = h /\ ev1 = B) \/
  (exists ev0', ev0 = A ++ Resolve h :: ev0' /\ B = ev0' ++ Resolve x :: ev1).
Proof.
  revert ev0. induction A as [|a A IH]; intros ev0 HA Heq.
  - destruct ev0 as [|e ev0]; simpl in Heq; injection Heq as -> <-.
    + left. auto.
    + right. exists ev0. auto.
  - unfold resolves in HA. simpl in HA.
    destruct ev0 as [|e ev0]; simpl in Heq; injection Heq as <- Heq.
    + simpl in HA. discriminate.
    + destruct (IH ev0) as [(-> & -> & ->)|(ev0' & -> & ->)];
        [unfold resolves; lia|exact Heq| |].
      * left. auto.
      * right. exists ev0'. auto.
Qed.

Lemma no_resolve_inside (A ev0 ev1 : list Event) (x : string) :
  resolves A = 0%nat -> ev0 ++ Resolve x :: ev1 <> A.
Proof.
  intros HA <-. unfold resolves in HA. rewrite count_app in HA. simpl in HA. lia.
Qed.

(** In the loop, a resolution that yields the empty URL while a round is
    left ends the call with [NoAggregator], and nothing follows it. *)
Lemma loop_resolve_empty cfg method url data range :
  forall R s r s' ev,
    stale R ->
    _SEND_loop cfg range method url data R s = (r, s') ->
    trace s' = trace s ++ ev ->
    forall ev0 ev1,
      ev = ev0 ++ Resolve "" :: ev1 ->
      (attempts ev0 < length range)%nat ->
      r = Raise NoAggregatorE /\ ev1 = [].
Proof.
  induction range as [|i range' IH]; intros R s r s' ev HR Hrun Htr ev0 ev1 Hev Hlt.
  - simpl in Hlt. lia.
  - destruct (_SEND_loop_step _ _ _ _ _ _ _ _ _ _ HR Hrun)
      as [(_ & _ & Hsame)|(_ & evA & HaA & HrA & _ & [(_ & Hend)|(R1 & h & s3 & HR1 & Htr3 & Hag3 & Hrec)])].
    + rewrite Hsame in Htr. rewrite <- (app_nil_r (trace s)) in Htr at 1.
      apply app_inv_head in Htr. subst ev. destruct ev0; discriminate.
    + rewrite Hend in Htr. apply app_inv_head in Htr. subst ev.
      exfalso. apply (no_resolve_inside (Attempt i :: evA) ev0 ev1 "").
      * unfold resolves in *. simpl. exact HrA.
      * symmetry. exact Hev.
    + destruct (_SEND_loop_spec _ _ _ _ _ _ _ _ _ HR1 Hrec)
        as (_ & _ & _ & ev2 & Htr2 & _).
      rewrite Htr2, Htr3, <- !app_assoc in Htr. apply app_inv_head in Htr.
      simpl in Htr. rewrite <- app_assoc in Htr. simpl in Htr.
      subst ev. change (Attempt i :: evA ++ Resolve h :: ev2)
        with ((Attempt i :: evA) ++ Resolve h :: ev2) in Hev.
      symmetry in Hev. apply split_at_resolve in Hev;
        [|unfold resolves in *; simpl; exact HrA].
      destruct Hev as [(-> & <- & ->)|(ev0' & -> & ->)].
      * (* this very resolution came back empty *)
        unfold attempts in Hlt. simpl in Hlt. unfold attempts in HaA.
        destruct range' as [|j range'']; [simpl in Hlt; lia|].
        destruct (_SEND_loop_step _ _ _ _ _ _ _ _ _ _ HR1 Hrec)
          as [(_ & -> & Hsame)|(Hne & _)]; [|contradiction].
        split; [reflexivity|].
        rewrite Hsame in Htr2. rewrite <- (app_nil_r (trace s3)) in Htr2 at 1.
        apply app_inv_head in Htr2. symmetry. exact Htr2.
      * (* a later one did *)
        apply (IH R1 s3 r s' _ HR1 Hrec Htr2 ev0' ev1 eq_refl).
        unfold attempts in *. rewrite count_app in Hlt. simpl in Hlt. lia.
Qed.

Lemma loop_NoAggregator cfg method url data range :
  forall R s r s' ev,
    stale R ->
    _SEND_loop cfg range method url data R s = (r, s') ->
    trace s' = trace s ++ ev ->
    r = Raise NoAggregatorE ->
    (aggregator s = "" /\ ev = []) \/ exists ev0, ev = ev0 ++ [Resolve ""].
Proof.
  induction range as [|i range' IH]; intros R s r s' ev HR Hrun Htr Hr.
  - simpl in Hrun. revert Hrun. unfold TooManyRetries. mstep.
    destruct (_mdns_updater s); intros [= <- <-]; discriminate.
  - destruct (_SEND_loop_step _ _ _ _ _ _ _ _ _ _ HR Hrun)
      as [(Hagg & _ & Hsame)|(_ & evA & HaA & HrA & _ & [(Hl & _)|(R1 & h & s3 & HR1 & Htr3 & Hag3 & Hrec)])].
    + left. split; [exact Hagg|].
      rewrite Hsame in Htr. rewrite <- (app_nil_r (trace s)) in Htr at 1.
      apply app_inv_head in Htr. symmetry. exact Htr.
    + subst r. discriminate.
    + destruct (_SEND_loop_spec _ _ _ _ _ _ _ _ _ HR1 Hrec)
        as (_ & _ & _ & ev2 & Htr2 & _).
      right.
      rewrite Htr2, Htr3, <- !app_assoc in Htr. apply app_inv_head in Htr.
      simpl in Htr. rewrite <- app_assoc in Htr. simpl in Htr. subst ev.
      destruct (IH R1 s3 r s' ev2 HR1 Hrec Htr2 Hr) as [(Hemp & ->)|(ev0 & ->)].
      * exists (Attempt i :: evA). rewrite <- Hag3, Hemp. reflexivity.
      * exists (Attempt i :: evA ++ Resolve h :: ev0).
        simpl. rewrite <- app_assoc. reflexivity.
Qed.


(** The call as its optional first resolution followed by the loop. *)
Lemma _SEND_unfold cfg method url data s r s' :
  _SEND cfg method url data s = (r, s') ->
  exists s3 pre,
    trace s3 = trace s ++ pre /\
    _SEND_loop cfg (seq 0 3) method
      (AGGREGATOR_APIROOT +:+ AGGREGATOR_APIVERSION cfg +:+ url) data None s3 = (r, s') /\
    ((aggregator s <> "" /\ s3 = s /\ pre = []) \/
     (aggregator s = "" /\ pre = [Resolve (aggregator s3)])).
Proof.
  unfold _SEND. mstep.
  destruct (String.eqb (aggregator s) "") eqn:Hagg.
  - apply String.eqb_eq in Hagg.
    destruct (_get_api_href cfg s) as [rh s2] eqn:Hhref.
    apply _get_api_href_spec in Hhref. destruct Hhref as (h & k & -> & ->).
    intros Hloop. eexists _, [Resolve h]. split; [|split; [exact Hloop|]].
    + reflexivity.
    + right. split; [exact Hagg|reflexivity].
  - apply String.eqb_neq in Hagg. intros Hloop.
    exists s, []. rewrite app_nil_r.
    split; [reflexivity|]. split; [exact Hloop|]. left. auto.
Qed.

(** C2, as the code has it.  A call of the send primitive starts at most
    three attempts (each issues one request, or at most two through the
    OAuth client); every attempt that does not end the call is followed by
    one re-resolution of the aggregator; a resolution that yields the empty
    URL while an attempt is left ends the call with [NoAggregator], which
    is raised in no other way; and [TooManyRetries] is raised exactly when
    three attempts have been made and each was followed by its
    re-resolution, whatever the last of these yielded. *)
Theorem retry_budget cfg method url data s :
  let r := (_SEND cfg method url data s).1 in
  let s' := (_SEND cfg method url data s).2 in
  let initial := if String.eqb (aggregator s) "" then 1%nat else 0%nat in
  exists ev,
    trace s' = trace s ++ ev /\
    (attempts ev <= 3)%nat /\
    (attempts ev <= sends ev <= 2 * attempts ev)%nat /\
    (OAUTH_MODE cfg && auth_client s = false -> sends ev = attempts ev) /\
    resolves ev =
      (initial + if at_loop_level r then attempts ev else Nat.pred (attempts ev))%nat /\
    (forall ev0 ev1,
        ev = ev0 ++ Resolve "" :: ev1 -> (attempts ev0 < 3)%nat ->
        r = Raise NoAggregatorE /\ ev1 = []) /\
    (r = Raise NoAggregatorE -> exists ev0, ev = ev0 ++ [Resolve ""]) /\
    (r = Raise TooManyRetriesE <->
     attempts ev = 3%nat /\ resolves ev = (initial + 3)%nat).
Proof.
  destruct (_SEND cfg method url data s) as [r s'] eqn:Hrun. simpl.
  pose proof (_SEND_spec _ _ _ _ _ _ _ Hrun)
    as (_ & _ & _ & ev & Htr & Ha & Hr & _ & Hs & Ho & _ & _ & Htm & _).
  exists ev. split; [exact Htr|]. split; [exact Ha|]. split; [exact Hs|].
  split; [exact Ho|]. split; [exact Hr|].
  destruct (_SEND_unfold _ _ _ _ _ _ _ Hrun) as (s3 & pre & Htr3 & Hloop & Hpre).
  destruct (_SEND_loop_spec _ _ _ _ _ None _ _ _ I Hloop) as (_ & _ & _ & ev2 & Htr2 & _).
  assert (Hev : ev = pre ++ ev2).
  { rewrite Htr2, Htr3, <- app_assoc in Htr. apply app_inv_head in Htr.
    symmetry. exact Htr. }
  split; [|split; [|exact Htm]].
  - intros ev0 ev1 Hsplit Hlt.
    destruct Hpre as [(_ & -> & ->)|(Hemp & ->)]; simpl in Hev; subst ev.
    + exact (loop_resolve_empty _ _ _ _ _ None _ _ _ _ I Hloop Htr2 _ _ Hsplit Hlt).
    + destruct ev0 as [|e ev0]; simpl in Hsplit; injection Hsplit as Hh Hrest.
      * (* the first resolution found nothing *)
        destruct (_SEND_loop_step _ _ _ _ _ _ None _ _ _ I Hloop)
          as [(_ & -> & Hsame)|(Hne & _)]; [|congruence].
        split; [reflexivity|].
        rewrite Hsame in Htr2. rewrite <- (app_nil_r (trace s3)) in Htr2 at 1.
        apply app_inv_head in Htr2. congruence.
      * subst e. unfold attempts in Hlt. simpl in Hlt.
        exact (loop_resolve_empty _ _ _ _ _ None _ _ _ _ I Hloop Htr2 _ _ Hrest Hlt).
  - intros HrN.
    destruct (loop_NoAggregator _ _ _ _ _ None _ _ _ _ I Hloop Htr2 HrN)
      as [(Hemp3 & ->)|(ev0 & ->)].
    + destruct Hpre as [(Hne & -> & _)|(_ & ->)]; [contradiction|].
      exists []. rewrite Hev, Hemp3. reflexivity.
    + exists (pre ++ ev0). rewrite Hev, app_assoc. reflexivity.
Qed.

(** With an aggregator at hand, the call begins with attempt 0 and its
    request to that aggregator. *)
Lemma _SEND_first cfg method url data s r s' :
  aggregator s <> "" ->
  _SEND cfg method url data s = (r, s') ->
  exists rest,
    trace s' =
    trace s ++
      Attempt 0 ::
      Send (mkRequest method (aggregator s)
              (AGGREGATOR_APIROOT +:+ AGGREGATOR_APIVERSION cfg +:+ url) data
              (OAUTH_MODE cfg && auth_client s)) :: rest.
Proof.
  intros Hagg Hrun.
  destruct (_SEND_unfold _ _ _ _ _ _ _ Hrun) as (s3 & pre & _ & Hloop & Hpre).
  destruct Hpre as [(_ & -> & _)|(Hemp & _)]; [|contradiction].
  change (seq 0 3) with [0; 1; 2]%nat in Hloop.
  destruct (_SEND_loop_step _ _ _ _ _ _ None _ _ _ I Hloop)
    as [(Hemp & _)|(_ & ev1 & _ & _ & (ev1' & ->) & [(_ & Hend)|(R1 & h & s3 & HR1 & Htr3 & _ & Hrec)])];
    [contradiction| |].
  - exists ev1'. exact Hend.
  - destruct (_SEND_loop_spec _ _ _ _ _ _ _ _ _ HR1 Hrec) as (_ & _ & _ & ev2 & Htr2 & _).
    exists (ev1' ++ [Resolve h] ++ ev2).
    rewrite Htr2, Htr3, <- !app_assoc. simpl. rewrite <- !app_assoc. reflexivity.
Qed.

(** ** The walks over the mirror *)

Lemma set_reg_queue_id s : set_reg_queue (_reg_queue s) s = s.
Proof. destruct s; reflexivity. Qed.

(** A loop whose body only appends to the queue appends the concatenation. *)
Lemma for_each_appends {A : Type} (f : A -> list Intent) (body : A -> M unit) :
  (forall x s, body x s = (Ok tt, set_reg_queue (_reg_queue s ++ f x) s)) ->
  forall l s,
    for_each l body s = (Ok tt, set_reg_queue (_reg_queue s ++ flat_map f l) s).
Proof.
  intros Hbody. induction l as [|x l IH]; intros s; simpl.
  - rewrite app_nil_r, set_reg_queue_id. reflexivity.
  - rewrite bind_eq, Hbody, IH. simpl. rewrite <- app_assoc. reflexivity.
Qed.

Lemma enqueue_keys namespace res_type (d : Dict Envelope) s :
  for_each (dict_keys d) (fun key => _queue_request "POST" namespace res_type key) s =
  (Ok tt, set_reg_queue (_reg_queue s ++ intents_of namespace res_type d) s).
Proof.
  unfold intents_of. generalize (dict_keys d) as keys. intros keys. revert s.
  induction keys as [|k keys IH]; intros s; simpl.
  - rewrite app_nil_r, set_reg_queue_id. reflexivity.
  - rewrite bind_eq. unfold _queue_request at 1, modify.
    rewrite IH. simpl. rewrite <- app_assoc. reflexivity.
Qed.

Lemma dict_get_key {V : Type} (k : string) (d : Dict V) :
  In k (dict_keys d) -> dict_get k d <> None.
Proof.
  induction d as [|[k' v] d IH]; simpl; [tauto|].
  intros [->|Hin]; [rewrite String.eqb_refl; discriminate|].
  destruct (String.eqb k k'); [discriminate|exact (IH Hin)].
Qed.

Lemma reregister_ordered_spec s :
  reregister_ordered s =
  (Ok tt, set_reg_queue (_reg_queue s ++ ordered_intents (entities s)) s).
Proof.
  unfold reregister_ordered, ordered_intents.
  generalize registration_order as order. intros order. revert s.
  induction order as [|T order IH]; intros s; simpl.
  - rewrite app_nil_r, set_reg_queue_id. reflexivity.
  - rewrite !bind_eq. unfold gets at 1. cbn beta iota.
    rewrite (for_each_appends
               (fun '(namespace, entities) =>
                  match dict_get T entities with
                  | Some d => intents_of namespace T d
                  | None => []
                  end)).
    + rewrite IH. simpl. rewrite <- app_assoc. reflexivity.
    + intros [namespace ents] s0. destruct (dict_get T ents) as [d|].
      * apply enqueue_keys.
      * rewrite app_nil_r, set_reg_queue_id. reflexivity.
Qed.

Lemma reregister_others_spec s :
  reregister_others s =
  (Ok tt, set_reg_queue (_reg_queue s ++ other_intents (entities s)) s).
Proof.
  unfold reregister_others, other_intents. rewrite bind_eq. unfold gets at 1.
  cbn beta iota.
  apply for_each_appends. intros [namespace ents] s0.
  assert (Hkeys : forall keys, (forall k, In k keys -> In k (dict_keys ents)) ->
            forall s1,
              for_each keys (fun res_type =>
                if negb (bool_decide (res_type ∈ registration_order)) then
                  d ← subscript res_type ents;
                  for_each (dict_keys d) (fun key =>
                    _queue_request "POST" namespace res_type key)
                else mret tt) s1 =
              (Ok tt, set_reg_queue
                 (_reg_queue s1 ++
                  flat_map (fun res_type =>
                    if bool_decide (res_type ∈ registration_order) then []
                    else match dict_get res_type ents with
                         | Some d => intents_of namespace res_type d
                         | None => []
                         end) keys) s1)).
  { induction keys as [|T keys IH]; intros Hsub s1; simpl.
    - rewrite app_nil_r, set_reg_queue_id. reflexivity.
    - rewrite bind_eq.
      assert (Hstep : (if negb (bool_decide (T ∈ registration_order)) then
                  d ← subscript T ents;
                  for_each (dict_keys d) (fun key =>
                    _queue_request "POST" namespace T key)
                else mret tt) s1 =
              (Ok tt, set_reg_queue
                 (_reg_queue s1 ++
                  (if bool_decide (T ∈ registration_order) then []
                   else match dict_get T ents with
                        | Some d => intents_of namespace T d
                        | None => []
                        end)) s1)).
      { destruct (bool_decide (T ∈ registration_order)); simpl.
        - rewrite app_nil_r, set_reg_queue_id. reflexivity.
        - pose proof (dict_get_key T ents (Hsub T (or_introl eq_refl))) as Hsome.
          rewrite bind_eq. unfold subscript.
          destruct (dict_get T ents) as [d|]; [|contradiction].
          apply enqueue_keys. }
      rewrite Hstep, IH by (intros k Hk; apply Hsub; right; exact Hk).
      simpl. rewrite <- app_assoc. reflexivity. }
  apply Hkeys. auto.
Qed.

(** ** Re-registration, path by path *)

Lemma SEND_frame cfg method url data s r s' :
  _SEND cfg method url data s = (r, s') -> sender_frame s s'.
Proof. intros H. apply _SEND_spec in H. apply H. Qed.

Ltac msimp := cbn beta iota zeta delta [negb andb orb fst snd].

Lemma _process_reregister_run cfg s :
  exists s', _process_reregister cfg s = (Ok tt, s') /\ reregister_run cfg s s'.
Proof.
  unfold _process_reregister, node_id. mstep.
  destruct (node s) as [e|] eqn:Hnode;
    [|exists s; split; [reflexivity|constructor; exact Hnode]].
  rewrite Hnode. msimp.
  destruct (dict_get "id" (env_data e)) as [id|] eqn:Hid; msimp.
  2:{ exists s. split; [reflexivity|]. eapply RR_no_id; eassumption. }
  destruct (_SEND cfg "DELETE" ("/resource/nodes/" +:+ id) None s) as [rd sd] eqn:Hdel.
  destruct (delete_aborts rd) eqn:Hab.
  { exists sd. split; [|eapply RR_delete_failed; eassumption].
    destruct rd as [b|[]]; try discriminate; reflexivity. }
  pose proof (SEND_frame _ _ _ _ _ _ _ Hdel) as (Hn & _).
  assert (Hnode' : node (before_node_post sd) = Some e).
  { unfold before_node_post, on_updater. simpl.
    destruct (_mdns_updater sd); simpl; congruence. }
  destruct rd as [b|[| c | | | | |]]; try discriminate; msimp.
  all: fold (before_node_post sd); repeat (progress (rewrite ?Hnode', ?Hid; msimp)).
  all: destruct (_SEND cfg "POST" "/resource" (Some e) (before_node_post sd))
         as [rp sp] eqn:Hpost.
  all: pose proof (SEND_frame _ _ _ _ _ _ _ Hpost) as Hfp; pose proof Hfp as (Hnp & _).
  all: destruct rp as [bp|ep]; msimp.
  all: try (eexists; split; [reflexivity|]; eapply RR_post_failed; eauto; fail).
  all: repeat (progress (rewrite ?Hnp, ?Hnode', ?Hid; msimp)).
  all: destruct (_SEND cfg "POST" ("/health/nodes/" +:+ id) None sp) as [rh sh] eqn:Hh.
  all: destruct rh as [bh|eh]; msimp.
  all: try (eexists; split; [reflexivity|]; eapply RR_health_failed; eauto; fail).
  all: exists (after_walk sh); split; [|eapply RR_done; eauto].
  all: rewrite reregister_ordered_spec; msimp; rewrite reregister_others_spec.
  all: f_equal; unfold after_walk.
  all: pose proof (SEND_frame _ _ _ _ _ _ _ Hh) as (_ & _ & _ & _ & Hqh & _).
  all: destruct Hfp as (_ & _ & _ & _ & Hqp & _).
  all: assert (Hq : _reg_queue sh = [])
         by (rewrite Hqh, Hqp; unfold before_node_post; reflexivity).
  all: unfold on_updater; simpl; destruct (_mdns_updater sh); simpl.
  all: rewrite Hq; reflexivity.
Qed.

(** ** The order of the walk *)

Lemma intents_of_In namespace res_type d x :
  In x (intents_of namespace res_type d) <->
  exists k, In k (dict_keys d) /\ x = mkIntent "POST" namespace res_type k.
Proof.
  unfold intents_of. rewrite in_map_iff. split; intros (k & H1 & H2); exists k; auto.
Qed.

Lemma dict_get_In {V : Type} (k : string) (d : Dict V) (v : V) :
  dict_get k d = Some v -> In (k, v) d.
Proof.
  induction d as [|[k' v'] d IH]; simpl; [discriminate|].
  destruct (String.eqb_spec k k') as [->|Hne].
  - intros [= ->]. left. reflexivity.
  - intros H. right. exact (IH H).
Qed.

Lemma dict_get_keys {V : Type} (k : string) (d : Dict V) (v : V) :
  dict_get k d = Some v -> In k (dict_keys d).
Proof.
  intros H. apply dict_get_In in H. unfold dict_keys.
  apply in_map_iff. exists (k, v). auto.
Qed.

(** What the ordered walk enqueues: POSTs of listed types. *)
Lemma ordered_intents_In all x :
  In x (ordered_intents all) ->
  method x = "POST" /\ In (res_type x) registration_order.
Proof.
  unfold ordered_intents. rewrite in_flat_map. intros (T & HT & Hx).
  rewrite in_flat_map in Hx. destruct Hx as ([ns nsd] & _ & Hx).
  destruct (dict_get T nsd) as [d|]; [|contradiction].
  apply intents_of_In in Hx. destruct Hx as (k & _ & ->). simpl. auto.
Qed.

(** What the second walk enqueues: POSTs of unlisted types. *)
Lemma other_intents_In all x :
  In x (other_intents all) ->
  method x = "POST" /\ ~ In (res_type x) registration_order.
Proof.
  unfold other_intents. rewrite in_flat_map. intros ([ns nsd] & _ & Hx).
  rewrite in_flat_map in Hx. destruct Hx as (T & _ & Hx).
  destruct (bool_decide (T ∈ registration_order)) eqn:Hdec; [contradiction|].
  apply bool_decide_eq_false in Hdec. rewrite list_elem_of_In in Hdec.
  destruct (dict_get T nsd) as [d|]; [|contradiction].
  apply intents_of_In in Hx. destruct Hx as (k & _ & ->). simpl. auto.
Qed.

(** Every entity of the mirror is enqueued. *)
Lemma walk_covers all ns nsd T d k :
  dict_get ns all = Some nsd -> dict_get T nsd = Some d -> In k (dict_keys d) ->
  In (mkIntent "POST" ns T k) (ordered_intents all ++ other_intents all).
Proof.
  intros Hns HT Hk. apply dict_get_In in Hns. apply in_or_app.
  destruct (decide (T ∈ registration_order)) as [Hin|Hout].
  - left. unfold ordered_intents. apply in_flat_map. exists T.
    split; [apply list_elem_of_In; exact Hin|].
    apply in_flat_map. exists (ns, nsd). split; [exact Hns|].
    rewrite HT. apply intents_of_In. eauto.
  - right. unfold other_intents. apply in_flat_map. exists (ns, nsd).
    split; [exact Hns|]. apply in_flat_map. exists T.
    split; [exact (dict_get_keys _ _ _ HT)|].
    rewrite bool_decide_eq_false_2 by exact Hout.
    rewrite HT. apply intents_of_In. eauto.
Qed.

Lemma rank_listed T : In T registration_order -> (rank T < 5)%nat.
Proof.
  unfold registration_order. simpl.
  intros [<-|[<-|[<-|[<-|[<-|[]]]]]]; vm_compute; lia.
Qed.

Lemma rank_unlisted T : ~ In T registration_order -> rank T = 5%nat.
Proof.
  unfold rank, registration_order. simpl. intros Hout.
  repeat match goal with
         | |- context [String.eqb T ?x] =>
             destruct (String.eqb_spec T x) as [->|_]; [exfalso; apply Hout; tauto|]
         end.
  reflexivity.
Qed.

Lemma precedes_rank T1 T2 : precedes T1 T2 -> (rank T1 < rank T2)%nat.
Proof.
  intros (a & b & Ha & Hb & Hlt). unfold registration_order in *.
  destruct a as [|[|[|[|[|a]]]]]; simpl in Ha; try discriminate;
  destruct b as [|[|[|[|[|b]]]]]; simpl in Hb; try discriminate;
  try lia; simplify_eq; vm_compute; lia.
Qed.

(** The blocks of the ordered walk come in ascending rank. *)
Lemma ordered_block_rank all T x :
  In x (flat_map (fun '(namespace, entities) =>
          match dict_get T entities with
          | Some d => intents_of namespace T d
          | None => []
          end) all) ->
  res_type x = T.
Proof.
  rewrite in_flat_map. intros ([ns nsd] & _ & Hx).
  destruct (dict_get T nsd) as [d|]; [|contradiction].
  apply intents_of_In in Hx. destruct Hx as (k & _ & ->). reflexivity.
Qed.

Lemma walk_sorted all :
  StronglySorted by_rank (ordered_intents all ++ other_intents all).
Proof.
  assert (Hblock : forall T l,
            (forall x, In x l -> res_type x = T) -> StronglySorted by_rank l).
  { intros T l Hl. induction l as [|x l IH]; constructor.
    - apply IH. intros y Hy. apply Hl. right. exact Hy.
    - apply List.Forall_forall. intros y Hy. unfold by_rank.
      rewrite (Hl x (or_introl eq_refl)), (Hl y (or_intror Hy)). lia. }
  assert (Hothers : StronglySorted by_rank (other_intents all)).
  { generalize (other_intents_In all). generalize (other_intents all) as l.
    induction l as [|x l IH]; intros Hl; constructor.
    - apply IH. intros y Hy. apply Hl. right. exact Hy.
    - apply List.Forall_forall. intros y Hy. unfold by_rank.
      rewrite (rank_unlisted _ (proj2 (Hl x (or_introl eq_refl)))).
      rewrite (rank_unlisted _ (proj2 (Hl y (or_intror Hy)))). lia. }
  apply StronglySorted_app. split; [|split; [|exact Hothers]].
  - intros x y Hx Hy. rewrite list_elem_of_In in Hx, Hy. unfold by_rank.
    apply ordered_intents_In in Hx. apply other_intents_In in Hy.
    pose proof (rank_listed _ (proj2 Hx)).
    rewrite (rank_unlisted _ (proj2 Hy)). lia.
  - unfold ordered_intents, registration_order. simpl. rewrite app_nil_r.
    repeat (apply StronglySorted_app; split; [|split]).
    all: try (eapply Hblock; intros x Hx; eapply ordered_block_rank; exact Hx).
    all: intros x y Hx Hy; rewrite list_elem_of_In in Hx, Hy; unfold by_rank.
    all: repeat (apply in_app_or in Hy; destruct Hy as [Hy|Hy]).
    all: apply ordered_block_rank in Hx; apply ordered_block_rank in Hy.
    all: rewrite Hx, Hy; vm_compute; lia.
Qed.

Lemma sorted_lookup {A : Type} (R : A -> A -> Prop) (l : list A) :
  StronglySorted R l ->
  forall (i j : nat) (x y : A),
    l !! i = Some x -> l !! j = Some y -> (i < j)%nat -> R x y.
Proof.
  induction 1 as [|a l Hs IH Hall]; intros i j x y Hi Hj Hlt.
  - discriminate.
  - destruct j as [|j]; [lia|]. simpl in Hj.
    destruct i as [|i]; simpl in Hi.
    + injection Hi as <-. rewrite List.Forall_forall in Hall.
      apply Hall. apply list_elem_of_In. eapply list_elem_of_lookup_2. exact Hj.
    + apply (IH i j); [exact Hi|exact Hj|lia].
Qed.

(** A call on the updater leaves the rest of the proxy alone. *)
Lemma on_updater_frame f s :
  node (on_updater f s) = node s /\ registered (on_updater f s) = registered s /\
  entities (on_updater f s) = entities s /\ _running (on_updater f s) = _running s /\
  _reg_queue (on_updater f s) = _reg_queue s /\ trace (on_updater f s) = trace s /\
  aggregator (on_updater f s) = aggregator s /\
  _mdns_updater (on_updater f s) = f <$> _mdns_updater s.
Proof. unfold on_updater. destruct (_mdns_updater s) eqn:Hu; simpl; rewrite ?Hu; tauto. Qed.

(** C3.  The two walks that close a re-registration pass put on the queue
    one POST intent for every entity of the mirror, and in that stretch of
    queue every entity of a type T1 stands before every entity of a type
    T2 that comes later in device, source, flow, sender, receiver, and
    every entity of a listed type stands before every entity of any other
    type.  A pass either gives up with the queue as it found it, or fails
    to register the node and leaves the queue drained, or completes and
    leaves exactly that stretch on the queue. *)
Theorem reregister_order cfg s :
  exists enq : list Intent,
    (reregister_ordered;; reregister_others) s =
      (Ok tt, set_reg_queue (_reg_queue s ++ enq) s) /\
    (forall x, In x enq -> method x = "POST") /\
    (forall ns nsd T d k,
        dict_get ns (entities s) = Some nsd -> dict_get T nsd = Some d ->
        In k (dict_keys d) ->
        In (mkIntent "POST" ns T k) enq) /\
    (forall (i j : nat) x y,
        enq !! i = Some x -> enq !! j = Some y ->
        precedes (res_type x) (res_type y) -> (i < j)%nat) /\
    (forall (i j : nat) x y,
        enq !! i = Some x -> enq !! j = Some y ->
        In (res_type x) registration_order -> ~ In (res_type y) registration_order ->
        (i < j)%nat) /\
    let s' := (_process_reregister cfg s).2 in
    _reg_queue s' = _reg_queue s \/
    _reg_queue s' = [] \/
    (registered s' = true /\ entities s' = entities s /\ _reg_queue s' = enq).
Proof.
  exists (ordered_intents (entities s) ++ other_intents (entities s)).
  pose proof (walk_sorted (entities s)) as Hsorted.
  split; [|split; [|split; [|split; [|split]]]].
  - rewrite bind_eq, reregister_ordered_spec. cbn beta iota.
    rewrite reregister_others_spec. simpl. rewrite <- app_assoc. reflexivity.
  - intros x Hx. apply in_app_or in Hx.
    destruct Hx as [Hx|Hx]; [apply ordered_intents_In in Hx|apply other_intents_In in Hx];
      tauto.
  - intros ns nsd T d k. apply walk_covers.
  - intros i j x y Hi Hj Hprec. apply precedes_rank in Hprec.
    destruct (Nat.lt_trichotomy i j) as [Hlt|[->|Hgt]]; [exact Hlt| |].
    + rewrite Hi in Hj. injection Hj as ->. lia.
    + pose proof (sorted_lookup _ _ Hsorted j i y x Hj Hi Hgt) as Hr.
      unfold by_rank in Hr. lia.
  - intros i j x y Hi Hj Hin Hout.
    apply rank_listed in Hin. apply rank_unlisted in Hout.
    destruct (Nat.lt_trichotomy i j) as [Hlt|[->|Hgt]]; [exact Hlt| |].
    + rewrite Hi in Hj. injection Hj as ->. lia.
    + pose proof (sorted_lookup _ _ Hsorted j i y x Hj Hi Hgt) as Hr.
      unfold by_rank in Hr. lia.
  - destruct (_process_reregister_run cfg s) as (s' & -> & Hrun). simpl.
    inversion Hrun as
      [ Hn Heq | e Hn Hid Heq | e id rd sd Hn Hid Hdel Hab Heq
      | e id rd sd rp sp Hn Hid Hdel Hab Hpost Hok Heq
      | e id rd sd rp sp rh sh Hn Hid Hdel Hab Hpost Hok Hh Hokh Heq
      | e id rd sd rp sp rh sh Hn Hid Hdel Hab Hpost Hok Hh Hokh Heq ].
    + left. reflexivity.
    + left. reflexivity.
    + left. apply SEND_frame in Hdel. apply Hdel.
    + right. left. apply SEND_frame in Hpost. simpl.
      destruct Hpost as (_ & _ & _ & _ & -> & _).
      unfold before_node_post. reflexivity.
    + right. left. apply SEND_frame in Hpost. apply SEND_frame in Hh. simpl.
      destruct Hh as (_ & _ & _ & _ & -> & _).
      destruct Hpost as (_ & _ & _ & _ & -> & _).
      unfold before_node_post. reflexivity.
    + right. right. apply SEND_frame in Hdel. apply SEND_frame in Hpost.
      apply SEND_frame in Hh.
      destruct Hh as (_ & _ & Eh & _). destruct Hpost as (_ & _ & Ep & _).
      destruct Hdel as (_ & _ & Ed & _).
      assert (Ee : entities sh = entities s).
      { rewrite Eh, Ep. unfold before_node_post. simpl.
        destruct (on_updater_frame MDNSUpdater.inc_P2P_enable_count (set_registered false sd))
          as (_ & _ & -> & _). simpl. exact Ed. }
      unfold after_walk. simpl.
      destruct (on_updater_frame MDNSUpdater.P2P_disable (set_registered true sh))
        as (_ & -> & -> & _). simpl.
      rewrite Ee. auto.
Qed.

(** ** The heartbeat controller *)

(** A heartbeat turn of a registered proxy that holds a node, by the
    result of the one call it makes. *)
Lemma _heartbeat_body_send cfg s e id r s1 :
  registered s = true -> node s = Some e -> dict_get "id" (env_data e) = Some id ->
  _SEND cfg "POST" ("/health/nodes/" +:+ id) None s = (r, s1) ->
  _heartbeat_body cfg s =
  (Ok tt,
   match r with
   | Ok _ => s1
   | Raise (InvalidRequestE code) =>
       if code =? 404
       then on_updater MDNSUpdater.inc_P2P_enable_count (set_registered false s1)
       else set_running false s1
   | Raise _ => set_registered false s1
   end).
Proof.
  intros Hreg Hnode Hid Hsend.
  unfold _heartbeat_body, node_id. mstep.
  repeat (progress (rewrite ?Hreg, ?Hnode, ?Hid, ?Hsend; msimp)).
  destruct r as [b|[| c | | | | |]]; msimp; try reflexivity.
  destruct (c =? 404); reflexivity.
Qed.

Lemma _heartbeat_body_unregistered cfg s :
  registered s = false -> _heartbeat_body cfg s = _process_reregister cfg s.
Proof.
  intros Hreg. unfold _heartbeat_body. mstep. rewrite Hreg. reflexivity.
Qed.

Lemma inc_P2P_count u :
  MDNSUpdater.p2p_enable u = false ->
  MDNSUpdater.p2p_enable_count (MDNSUpdater.inc_P2P_enable_count u) =
  MDNSUpdater.p2p_enable_count u + 1.
Proof.
  intros He. unfold MDNSUpdater.inc_P2P_enable_count, MDNSUpdater.P2P_enable.
  rewrite He. simpl. destruct (_ <=? _); simpl; [rewrite He|]; reflexivity.
Qed.

Lemma inc_P2P_still_off u :
  MDNSUpdater.p2p_enable u = false ->
  MDNSUpdater.p2p_enable_count u + 1 < MDNSUpdater.p2p_cut_in_count u ->
  MDNSUpdater.p2p_enable (MDNSUpdater.inc_P2P_enable_count u) = false.
Proof.
  intros He Hlt. unfold MDNSUpdater.inc_P2P_enable_count. rewrite He. simpl.
  destruct (_ <=? _) eqn:Hle; [apply Z.leb_le in Hle; lia|exact He].
Qed.

Lemma before_node_post_frame sd :
  trace (before_node_post sd) = trace sd /\
  aggregator (before_node_post sd) = aggregator sd /\
  auth_client (before_node_post sd) = auth_client sd.
Proof.
  unfold before_node_post, on_updater. simpl.
  destruct (_mdns_updater sd); simpl; auto.
Qed.

(** Once the DELETE and the POST of the node have been made, whatever the
    pass does next only extends the trace. *)
Lemma reregister_trace_tail cfg s e id rd sd rp sp s' :
  aggregator s <> "" ->
  _SEND cfg "DELETE" ("/resource/nodes/" +:+ id) None s = (rd, sd) ->
  delete_aborts rd = false ->
  _SEND cfg "POST" "/resource" (Some e) (before_node_post sd) = (rp, sp) ->
  (exists tail, trace s' = trace sp ++ tail) ->
  (exists rest,
      trace s' =
      trace s ++
        Attempt 0 ::
        Send (mkRequest "DELETE" (aggregator s)
                (AGGREGATOR_APIROOT +:+ AGGREGATOR_APIVERSION cfg +:+
                 "/resource/nodes/" +:+ id) None
                (OAUTH_MODE cfg && auth_client s)) :: rest) /\
  (forall rd' sd',
      _SEND cfg "DELETE" ("/resource/nodes/" +:+ id) None s = (rd', sd') ->
      delete_aborts rd' = false ->
      exists rest,
        trace s' =
        trace sd' ++
          Attempt 0 ::
          Send (mkRequest "POST" (aggregator sd')
                  (AGGREGATOR_APIROOT +:+ AGGREGATOR_APIVERSION cfg +:+ "/resource")
                  (Some e) (OAUTH_MODE cfg && auth_client sd')) :: rest).
Proof.
  intros Hagg Hdel Hab Hpost (tail & Htail).
  destruct (_SEND_first _ _ _ _ _ _ _ Hagg Hdel) as (rest1 & Htr1).
  destruct (_SEND_spec _ _ _ _ _ _ _ Hdel) as (_ & _ & _ & evd & _ & _ & _ & Hlvl & _).
  assert (Haggd : aggregator sd <> "").
  { apply Hlvl. destruct rd as [b|[]]; try discriminate; reflexivity. }
  destruct (before_node_post_frame sd) as (Bt & Ba & Bc).
  assert (Haggb : aggregator (before_node_post sd) <> "") by (rewrite Ba; exact Haggd).
  destruct (_SEND_first _ _ _ _ _ _ _ Haggb Hpost) as (rest2 & Htr2).
  rewrite Bt, Ba, Bc in Htr2.
  split.
  - eexists. rewrite Htail, Htr2, Htr1, <- !app_assoc. simpl. reflexivity.
  - intros rd' sd' Hdel' _. assert (sd' = sd) by congruence. subst sd'.
    eexists. rewrite Htail, Htr2, <- !app_assoc. simpl. reflexivity.
Qed.

(** The trace of a re-registration pass that finds a node with an id and
    an aggregator: the DELETE first, and the POST of the node once the
    DELETE has not made the pass give up. *)
Lemma reregister_trace cfg s e id :
  node s = Some e -> dict_get "id" (env_data e) = Some id -> aggregator s <> "" ->
  let s' := (_process_reregister cfg s).2 in
  (exists rest,
      trace s' =
      trace s ++
        Attempt 0 ::
        Send (mkRequest "DELETE" (aggregator s)
                (AGGREGATOR_APIROOT +:+ AGGREGATOR_APIVERSION cfg +:+
                 "/resource/nodes/" +:+ id) None
                (OAUTH_MODE cfg && auth_client s)) :: rest) /\
  (forall rd sd,
      _SEND cfg "DELETE" ("/resource/nodes/" +:+ id) None s = (rd, sd) ->
      delete_aborts rd = false ->
      exists rest,
        trace s' =
        trace sd ++
          Attempt 0 ::
          Send (mkRequest "POST" (aggregator sd)
                  (AGGREGATOR_APIROOT +:+ AGGREGATOR_APIVERSION cfg +:+ "/resource")
                  (Some e) (OAUTH_MODE cfg && auth_client sd)) :: rest).
Proof.
  intros Hnode Hid Hagg.
  destruct (_process_reregister_run cfg s) as (s' & -> & Hrun). simpl.
  inversion Hrun as
    [ Hn Heq | e' Hn Hid' Heq | e' id' rd sd Hn Hid' Hdel Hab Heq
    | e' id' rd sd rp sp Hn Hid' Hdel Hab Hpost Hok Heq
    | e' id' rd sd rp sp rh sh Hn Hid' Hdel Hab Hpost Hok Hh Hokh Heq
    | e' id' rd sd rp sp rh sh Hn Hid' Hdel Hab Hpost Hok Hh Hokh Heq ];
    try congruence.
  all: assert (e' = e) by congruence; subst e'.
  all: assert (id' = id) by congruence; subst id'.
  - (* the DELETE made the pass give up *)
    subst s'. split; [exact (_SEND_first _ _ _ _ _ _ _ Hagg Hdel)|].
    intros rd' sd' Hdel' Hab'. congruence.
  - apply (reregister_trace_tail cfg s e id rd sd rp sp); auto.
    exists []. subst s'. simpl. rewrite app_nil_r. reflexivity.
  - apply (reregister_trace_tail cfg s e id rd sd rp sp); auto.
    destruct (_SEND_spec _ _ _ _ _ _ _ Hh) as (_ & _ & _ & evh & Htrh & _).
    exists evh. subst s'. simpl. exact Htrh.
  - apply (reregister_trace_tail cfg s e id rd sd rp sp); auto.
    destruct (_SEND_spec _ _ _ _ _ _ _ Hh) as (_ & _ & _ & evh & Htrh & _).
    exists evh. subst s'. unfold after_walk. simpl.
    destruct (on_updater_frame MDNSUpdater.P2P_disable (set_registered true sh))
      as (_ & _ & _ & _ & _ & -> & _). simpl. exact Htrh.
Qed.

(** C1, as the code has it.  When a registered proxy's heartbeat is
    answered 404, [registered] becomes false and the P2P-enable counter,
    from 0 with P2P off and a threshold of at least 2, stands at 2: the
    error constructor signals the updater once and the controller once
    more.  The next turn of the loop is the re-register procedure; it
    begins with the DELETE of the node, and unless the DELETE call ends in
    a transport failure the POST of the node follows. *)
Theorem heartbeat_404 cfg s e id u s1 :
  registered s = true -> node s = Some e -> dict_get "id" (env_data e) = Some id ->
  _mdns_updater s = Some u ->
  MDNSUpdater.p2p_enable u = false -> MDNSUpdater.p2p_enable_count u = 0 ->
  2 <= MDNSUpdater.p2p_cut_in_count u ->
  _SEND cfg "POST" ("/health/nodes/" +:+ id) None s = (Raise (InvalidRequestE 404), s1) ->
  let s2 := (_heartbeat_body cfg s).2 in
  let s3 := (_heartbeat_body cfg s2).2 in
  registered s2 = false /\
  (exists u2, _mdns_updater s2 = Some u2 /\ MDNSUpdater.p2p_enable_count u2 = 2) /\
  _heartbeat_body cfg s2 = _process_reregister cfg s2 /\
  (exists rest,
      trace s3 =
      trace s2 ++
        Attempt 0 ::
        Send (mkRequest "DELETE" (aggregator s2)
                (AGGREGATOR_APIROOT +:+ AGGREGATOR_APIVERSION cfg +:+
                 "/resource/nodes/" +:+ id) None
                (OAUTH_MODE cfg && auth_client s2)) :: rest) /\
  (forall rd sd,
      _SEND cfg "DELETE" ("/resource/nodes/" +:+ id) None s2 = (rd, sd) ->
      delete_aborts rd = false ->
      exists rest,
        trace s3 =
        trace sd ++
          Attempt 0 ::
          Send (mkRequest "POST" (aggregator sd)
                  (AGGREGATOR_APIROOT +:+ AGGREGATOR_APIVERSION cfg +:+ "/resource")
                  (Some e) (OAUTH_MODE cfg && auth_client sd)) :: rest).
Proof.
  intros Hreg Hnode Hid Hu He Hc Hcut Hsend.
  rewrite (_heartbeat_body_send _ _ _ _ _ _ Hreg Hnode Hid Hsend). simpl.
  destruct (_SEND_spec _ _ _ _ _ _ _ Hsend)
    as ((Fn & _) & Hu1 & _ & ev & _ & _ & _ & Hlvl & _).
  simpl in Hu1. rewrite Hu in Hu1. simpl in Hu1.
  destruct (Hlvl eq_refl) as [_ Hagg1].
  set (s2 := on_updater MDNSUpdater.inc_P2P_enable_count (set_registered false s1)).
  destruct (on_updater_frame MDNSUpdater.inc_P2P_enable_count (set_registered false s1))
    as (Gn & Gr & _ & _ & _ & _ & Ga & Gu).
  fold s2 in Gn, Gr, Ga, Gu. simpl in Gn, Gr, Ga, Gu. rewrite Hu1 in Gu. simpl in Gu.
  assert (Hreg2 : registered s2 = false) by exact Gr.
  rewrite (_heartbeat_body_unregistered cfg s2 Hreg2).
  split; [exact Hreg2|]. split.
  - eexists. split; [exact Gu|].
    rewrite inc_P2P_count, inc_P2P_count by (try apply inc_P2P_still_off; auto; lia).
    lia.
  - split; [reflexivity|].
    apply (reregister_trace cfg s2 e id).
    + rewrite Gn, Fn. exact Hnode.
    + exact Hid.
    + rewrite Ga. exact Hagg1.
Qed.

(** *** What the other actors leave of the running flag *)

Lemma process_item_frame cfg item s :
  _running (process_item cfg item s).2 = _running s.
Proof.
  unfold process_item, node_id, del_entity, subscript. mstep.
  repeat (case_match; msimp).
  all: repeat match goal with
       | H : _SEND _ _ _ _ _ = _ |- _ =>
           apply SEND_frame in H; destruct H as (_ & _ & _ & H & _)
       end.
  all: simplify_eq; simpl in *.
  all: unfold on_updater; repeat case_match; simpl; congruence.
Qed.

Lemma _process_queue_body_running cfg s :
  _running (_process_queue_body cfg s).2 = _running s.
Proof.
  unfold _process_queue_body. mstep.
  destruct (_reg_queue s) as [|item rest]; [reflexivity|].
  destruct (registered s); msimp; [|reflexivity].
  pose proof (process_item_frame cfg item (set_reg_queue rest s)) as Hp.
  destruct (process_item cfg item (set_reg_queue rest s)) as [[[]|ex] s1]; simpl in *.
  - exact Hp.
  - unfold on_updater. simpl. destruct (_mdns_updater s1); simpl; exact Hp.
Qed.






(** ** The queue worker *)

Section DictFacts.
Context {V : Type}.
Implicit Types (d : Dict V) (k : string) (v : V).

Lemma dict_get_set_eq k v d : dict_get k (dict_set k v d) = Some v.
Proof.
  induction d as [|[k' v'] d IH]; simpl.
  - rewrite String.eqb_refl. reflexivity.
  - destruct (String.eqb_spec k k') as [->|Hne]; simpl.
    + rewrite String.eqb_refl. reflexivity.
    + destruct (String.eqb_spec k k'); [contradiction|exact IH].
Qed.

Lemma dict_get_set_ne k k' v d : k' <> k -> dict_get k' (dict_set k v d) = dict_get k' d.
Proof.
  intros Hne. induction d as [|[k0 v0] d IH]; simpl.
  - destruct (String.eqb_spec k' k); [contradiction|reflexivity].
  - destruct (String.eqb_spec k k0) as [->|Hk]; simpl.
    + destruct (String.eqb_spec k' k0); [contradiction|reflexivity].
    + destruct (String.eqb_spec k' k0); [reflexivity|exact IH].
Qed.

Lemma dict_get_del_eq k d : dict_get k (dict_del k d) = None.
Proof.
  induction d as [|[k' v'] d IH]; simpl; [reflexivity|].
  destruct (String.eqb_spec k k') as [->|Hne]; simpl; [exact IH|].
  destruct (String.eqb_spec k k'); [contradiction|exact IH].
Qed.

Lemma dict_get_del_ne k k' d : k' <> k -> dict_get k' (dict_del k d) = dict_get k' d.
Proof.
  intros Hne. induction d as [|[k0 v0] d IH]; simpl; [reflexivity|].
  destruct (String.eqb_spec k k0) as [->|Hk]; simpl.
  - rewrite IH. destruct (String.eqb_spec k' k0); [contradiction|reflexivity].
  - destruct (String.eqb_spec k' k0); [reflexivity|exact IH].
Qed.

Lemma dict_mem_get k d v : dict_get k d = Some v -> dict_mem k d = true.
Proof. unfold dict_mem. intros ->. reflexivity. Qed.

Lemma dict_mem_get_None k d : dict_get k d = None -> dict_mem k d = false.
Proof. unfold dict_mem. intros ->. reflexivity. Qed.
End DictFacts.

Lemma mirror_get_del_eq ns T k all : mirror_get ns T k (mirror_del ns T k all) = None.
Proof.
  unfold mirror_get, mirror_del.
  destruct (dict_get ns all) as [nsd|] eqn:Hns; simpl; [|rewrite Hns; reflexivity].
  destruct (dict_get T nsd) as [td|] eqn:HT; simpl.
  - rewrite dict_get_set_eq. simpl. rewrite dict_get_set_eq. simpl.
    apply dict_get_del_eq.
  - rewrite Hns. simpl. rewrite HT. reflexivity.
Qed.

Lemma mirror_get_del_ne ns T k ns' T' k' all :
  (ns', T', k') <> (ns, T, k) ->
  mirror_get ns' T' k' (mirror_del ns T k all) = mirror_get ns' T' k' all.
Proof.
  intros Hne. unfold mirror_get, mirror_del.
  destruct (dict_get ns all) as [nsd|] eqn:Hns; [|reflexivity].
  destruct (dict_get T nsd) as [td|] eqn:HT; [|reflexivity].
  destruct (decide (ns' = ns)) as [->|Hn].
  - rewrite dict_get_set_eq, Hns. simpl.
    destruct (decide (T' = T)) as [->|Ht].
    + rewrite dict_get_set_eq, HT. simpl.
      apply dict_get_del_ne. congruence.
    + rewrite dict_get_set_ne by exact Ht. reflexivity.
  - rewrite dict_get_set_ne by exact Hn. reflexivity.
Qed.

(** The handling of a POST for a mirrored entity that is not the node, by
    the result of the one call it makes. *)
Lemma process_item_post cfg item s nsd td data r s1 :
  method item = "POST" -> res_type item <> "node" ->
  dict_get (namespace item) (entities s) = Some nsd ->
  dict_get (res_type item) nsd = Some td ->
  dict_get (key item) td = Some data ->
  _SEND cfg "POST" ("/" +:+ namespace item) (Some data) s = (r, s1) ->
  process_item cfg item s =
  match r with
  | Ok _ => (Ok tt, s1)
  | Raise (InvalidRequestE _) =>
      (Ok tt,
       set_entities
         (mirror_del (namespace item) (res_type item) (key item) (entities s)) s1)
  | Raise e => (Raise e, s1)
  end.
Proof.
  intros Hm HT Hns Htd Hk Hsend.
  apply String.eqb_neq in HT.
  pose proof (SEND_frame _ _ _ _ _ _ _ Hsend) as (_ & _ & He & _).
  unfold process_item, del_entity, subscript. mstep.
  rewrite Hm, HT. change (String.eqb "POST" "POST") with true. msimp.
  repeat (progress (rewrite ?Hns, ?Htd, ?Hk, ?(dict_mem_get _ _ _ Hk), ?Hsend; msimp)).
  destruct r as [b|[| c | | | | |]]; msimp; try reflexivity.
  unfold mirror_del.
  repeat (progress (rewrite ?He, ?Hns, ?Htd, ?(dict_mem_get _ _ _ Hk); msimp)).
  reflexivity.
Qed.

Lemma process_item_delete cfg item s r s1 :
  method item = "DELETE" ->
  _SEND cfg "DELETE"
    ("/" +:+ namespace item +:+ "/" +:+ (res_type item +:+ "s") +:+ "/" +:+ key item)
    None s = (r, s1) ->
  process_item cfg item s =
  match r with
  | Ok _ | Raise (InvalidRequestE _) => (Ok tt, s1)
  | Raise e => (Raise e, s1)
  end.
Proof.
  intros Hm Hsend. unfold process_item. mstep.
  rewrite Hm. change (String.eqb "DELETE" "POST") with false.
  change (String.eqb "DELETE" "DELETE") with true. msimp. rewrite Hsend. msimp.
  destruct r as [b|[| c | | | | |]]; reflexivity.
Qed.

(** The POST of the node lets no exception out. *)
Lemma process_item_node cfg item s :
  method item = "POST" -> res_type item = "node" ->
  exists s1, process_item cfg item s = (Ok tt, s1).
Proof.
  intros Hm HT. unfold process_item, node_id. mstep.
  rewrite Hm, HT. change (String.eqb "POST" "POST") with true.
  change (String.eqb "node" "node") with true. msimp.
  repeat (case_match; msimp); simplify_eq; eexists; reflexivity.
Qed.

(** A turn of the worker on a registered proxy with a non-empty queue. *)
Lemma _process_queue_body_item cfg s item rest :
  registered s = true -> _reg_queue s = item :: rest ->
  _process_queue_body cfg s =
  match process_item cfg item (set_reg_queue rest s) with
  | (Ok _, s1) => (Ok tt, s1)
  | (Raise _, s1) =>
      (Ok tt, on_updater MDNSUpdater.P2P_disable (set_registered false s1))
  end.
Proof.
  intros Hreg Hq. unfold _process_queue_body. mstep. rewrite Hreg, Hq. msimp.
  destruct (process_item cfg item (set_reg_queue rest s)) as [[[]|e] s1]; reflexivity.
Qed.

(** C4.  When the worker takes a POST intent for an entity that is not the
    node and is in the mirror, and the send primitive ends in a 4xx, the
    turn ends normally with that key, and only that key, deleted from the
    mirror; the intent is gone from the queue and not put back; the proxy
    stays registered; and the 4xx answer is the last request the turn
    makes. *)
Theorem rejected_post_dropped cfg s item rest nsd td data code s1 :
  registered s = true -> _reg_queue s = item :: rest ->
  method item = "POST" -> res_type item <> "node" ->
  dict_get (namespace item) (entities s) = Some nsd ->
  dict_get (res_type item) nsd = Some td ->
  dict_get (key item) td = Some data ->
  _SEND cfg "POST" ("/" +:+ namespace item) (Some data) (set_reg_queue rest s) =
    (Raise (InvalidRequestE code), s1) ->
  let s' := (_process_queue_body cfg s).2 in
  _process_queue_body cfg s = (Ok tt, s') /\
  code / 100 = 4 /\
  mirror_get (namespace item) (res_type item) (key item) (entities s') = None /\
  (forall ns T k,
      (ns, T, k) <> (namespace item, res_type item, key item) ->
      mirror_get ns T k (entities s') = mirror_get ns T k (entities s)) /\
  _reg_queue s' = rest /\
  registered s' = true /\
  exists ev,
    trace s' = trace s ++ ev /\
    ends_with_status (world s) (requests_made s') ev code.
Proof.
  intros Hreg Hq Hm HT Hns Htd Hk Hsend.
  rewrite (_process_queue_body_item _ _ _ _ Hreg Hq).
  rewrite (process_item_post cfg item (set_reg_queue rest s) nsd td data _ s1
             Hm HT Hns Htd Hk Hsend).
  simpl.
  destruct (_SEND_spec _ _ _ _ _ _ _ Hsend)
    as ((_ & Fr & _ & _ & Fq & _) & _ & _ & ev & Htr & _ & _ & _ & _ & _ & _ & _ & _ & Hinv & _).
  destruct (Hinv code eq_refl) as [Hc4 Hends].
  simpl in Fr, Fq, Htr, Hends.
  split; [reflexivity|]. split; [exact Hc4|].
  split; [apply mirror_get_del_eq|].
  split; [intros ns T k Hne; apply mirror_get_del_ne; exact Hne|].
  split; [exact Fq|]. split; [rewrite Fr; exact Hreg|].
  exists ev. split; [exact Htr|exact Hends].
Qed.

(** A POST for a key that is missing from an existing dictionary of the
    mirror only leaves the queue. *)
Lemma absent_key_is_noop cfg s item rest nsd td :
  registered s = true -> _reg_queue s = item :: rest ->
  method item = "POST" -> res_type item <> "node" ->
  dict_get (namespace item) (entities s) = Some nsd ->
  dict_get (res_type item) nsd = Some td ->
  dict_get (key item) td = None ->
  _process_queue_body cfg s = (Ok tt, set_reg_queue rest s).
Proof.
  intros Hreg Hq Hm HT Hns Htd Hk.
  rewrite (_process_queue_body_item _ _ _ _ Hreg Hq).
  apply String.eqb_neq in HT.
  unfold process_item, subscript. mstep.
  rewrite Hm, HT. change (String.eqb "POST" "POST") with true. msimp.
  change (entities (set_reg_queue rest s)) with (entities s).
  repeat (progress (rewrite ?Hns, ?Htd, ?(dict_mem_get_None _ _ Hk); msimp)).
  reflexivity.
Qed.


(** ** Queued intents and the dictionaries of the mirror *)

Lemma dict_keys_set {V : Type} (k : string) (v : V) (d : Dict V) :
  dict_keys (dict_set k v d) =
  if dict_mem k d then dict_keys d else dict_keys d ++ [k].
Proof.
  unfold dict_mem. induction d as [|[k' v'] d IH]; simpl; [reflexivity|].
  destruct (String.eqb_spec k k') as [->|Hne]; simpl; [reflexivity|].
  rewrite IH. destruct (dict_get k d); reflexivity.
Qed.

Lemma dict_mem_keys {V : Type} (k : string) (d : Dict V) :
  dict_mem k d = false -> ~ In k (dict_keys d).
Proof.
  unfold dict_mem. intros Hm Hin. apply dict_get_key in Hin.
  destruct (dict_get k d); [discriminate|contradiction].
Qed.

Lemma NoDup_dict_set {V : Type} (k : string) (v : V) (d : Dict V) :
  NoDup (dict_keys d) -> NoDup (dict_keys (dict_set k v d)).
Proof.
  intros Hnd. rewrite dict_keys_set. destruct (dict_mem k d) eqn:Hm; [exact Hnd|].
  apply NoDup_app. split; [exact Hnd|]. split; [|apply NoDup_singleton].
  intros x Hx Hk. apply list_elem_of_singleton in Hk. subst x.
  apply (dict_mem_keys _ _ Hm). apply list_elem_of_In. exact Hx.
Qed.

Lemma NoDup_dict_get {V : Type} (k : string) (v : V) (d : Dict V) :
  NoDup (dict_keys d) -> In (k, v) d -> dict_get k d = Some v.
Proof.
  induction d as [|[k' v'] d IH]; simpl; [tauto|].
  intros Hnd Hin. apply NoDup_cons in Hnd. destruct Hnd as [Hk' Hnd].
  destruct Hin as [[= -> ->]|Hin].
  - rewrite String.eqb_refl. reflexivity.
  - destruct (String.eqb_spec k k') as [->|Hne]; [|exact (IH Hnd Hin)].
    exfalso. apply Hk'. apply list_elem_of_In. unfold dict_keys.
    apply in_map_iff. exists (k', v). auto.
Qed.

(** Replacing the dictionary of one type inside an existing namespace
    keeps every dictionary there is and provides that one. *)
Lemma has_bucket_update ns' T' (X : Dict Envelope) nsd' all ns T :
  dict_get ns' all = Some nsd' ->
  has_bucket ns T all ->
  has_bucket ns T (dict_set ns' (dict_set T' X nsd') all).
Proof.
  intros Hns' (nsd & td & Hns & HT). unfold has_bucket.
  destruct (decide (ns = ns')) as [->|Hn].
  - rewrite dict_get_set_eq. assert (nsd = nsd') by congruence. subst nsd.
    destruct (decide (T = T')) as [->|Ht].
    + eexists _, _. split; [reflexivity|apply dict_get_set_eq].
    + eexists _, _. split; [reflexivity|].
      rewrite dict_get_set_ne by exact Ht. exact HT.
  - rewrite dict_get_set_ne by exact Hn. eauto.
Qed.

Lemma has_bucket_new ns' T' (X : Dict Envelope) nsd' all :
  has_bucket ns' T' (dict_set ns' (dict_set T' X nsd') all).
Proof.
  unfold has_bucket. eexists _, _. split; [apply dict_get_set_eq|apply dict_get_set_eq].
Qed.

Lemma has_bucket_add_namespace ns' all ns T :
  dict_get ns' all = None ->
  has_bucket ns T all -> has_bucket ns T (dict_set ns' [] all).
Proof.
  intros Hnew (nsd & td & Hns & HT). unfold has_bucket.
  assert (Hn : ns <> ns') by congruence.
  rewrite dict_get_set_ne by exact Hn. eauto.
Qed.

Lemma has_bucket_del ns' T' k' all ns T :
  has_bucket ns T all -> has_bucket ns T (mirror_del ns' T' k' all).
Proof.
  intros Hb. unfold mirror_del.
  destruct (dict_get ns' all) as [nsd'|] eqn:Hns'; [|exact Hb].
  destruct (dict_get T' nsd') as [td'|]; [|exact Hb].
  apply has_bucket_update; assumption.
Qed.

Lemma NoDup_mirror_del ns T k all :
  NoDup (dict_keys all) -> NoDup (dict_keys (mirror_del ns T k all)).
Proof.
  intros Hnd. unfold mirror_del.
  destruct (dict_get ns all) as [nsd|]; [|exact Hnd].
  destruct (dict_get T nsd) as [td|]; [|exact Hnd].
  apply NoDup_dict_set. exact Hnd.
Qed.

Lemma mirror_grows_refl s s' : entities s' = entities s -> mirror_grows s s'.
Proof. intros He. unfold mirror_grows, buckets_kept. rewrite He. tauto. Qed.

Lemma mirror_grows_trans s1 s2 s3 :
  mirror_grows s1 s2 -> mirror_grows s2 s3 -> mirror_grows s1 s3.
Proof. unfold mirror_grows, buckets_kept. intros [A B] [C D]. split; auto. Qed.

Lemma mirror_grows_del ns T k s s' :
  entities s' = mirror_del ns T k (entities s) -> mirror_grows s s'.
Proof.
  intros He. unfold mirror_grows, buckets_kept. rewrite He. split.
  - apply NoDup_mirror_del.
  - intros ns0 T0. apply has_bucket_del.
Qed.

Lemma mirror_grows_update ns T (X : Dict Envelope) nsd s s' :
  dict_get ns (entities s) = Some nsd ->
  entities s' = dict_set ns (dict_set T X nsd) (entities s) ->
  mirror_grows s s'.
Proof.
  intros Hns He. unfold mirror_grows, buckets_kept. rewrite He. split.
  - apply NoDup_dict_set.
  - intros ns0 T0. apply has_bucket_update. exact Hns.
Qed.

Lemma _add_mirror_keys_spec namespace res_type s :
  let res := _add_mirror_keys namespace res_type s in
  res.1 = Ok tt /\
  _reg_queue res.2 = _reg_queue s /\
  mirror_grows s res.2 /\
  has_bucket namespace res_type (entities res.2).
Proof.
  unfold _add_mirror_keys, subscript, dict_mem. mstep.
  destruct (dict_get namespace (entities s)) as [nsd|] eqn:Hns;
    repeat (progress (rewrite ?Hns; msimp)).
  - destruct (dict_get res_type nsd) as [td|] eqn:HT; msimp.
    + split; [reflexivity|]. split; [reflexivity|].
      split; [apply mirror_grows_refl; reflexivity|].
      exists nsd, td. auto.
    + split; [reflexivity|]. split; [reflexivity|].
      split; [eapply mirror_grows_update; [exact Hns|reflexivity]|].
      apply has_bucket_new.
  - change (entities (set_entities (dict_set namespace [] (entities s)) s))
      with (dict_set namespace [] (entities s)).
    rewrite dict_get_set_eq. msimp.
    change (dict_mem res_type []) with false. msimp.
    split; [reflexivity|]. split; [reflexivity|].
    split; [|apply has_bucket_new].
    apply (mirror_grows_trans _ (set_entities (dict_set namespace [] (entities s)) s)).
    + unfold mirror_grows, buckets_kept. simpl. split.
      * apply NoDup_dict_set.
      * intros ns T. apply has_bucket_add_namespace. exact Hns.
    + eapply mirror_grows_update; [|reflexivity]. simpl. apply dict_get_set_eq.
Qed.

Lemma del_entity_spec namespace res_type key s :
  let s' := (del_entity namespace res_type key s).2 in
  _reg_queue s' = _reg_queue s /\ mirror_grows s s'.
Proof.
  unfold del_entity, subscript. mstep.
  destruct (dict_get namespace (entities s)) as [nsd|] eqn:Hns;
    repeat (progress (rewrite ?Hns; msimp));
    [|split; [reflexivity|apply mirror_grows_refl; reflexivity]].
  destruct (dict_get res_type nsd) as [td|] eqn:HT; msimp;
    [|split; [reflexivity|apply mirror_grows_refl; reflexivity]].
  destruct (dict_mem key td); msimp;
    [|split; [reflexivity|apply mirror_grows_refl; reflexivity]].
  split; [reflexivity|]. eapply mirror_grows_update; [exact Hns|reflexivity].
Qed.

(** What the handling of an intent does to the queue and the mirror. *)
Lemma process_item_mirror cfg item s :
  let s' := (process_item cfg item s).2 in
  _reg_queue s' = _reg_queue s /\ mirror_grows s s'.
Proof.
  unfold process_item, node_id, del_entity, subscript. mstep.
  repeat (case_match; msimp).
  all: repeat match goal with
       | H : _SEND _ _ _ _ _ = _ |- _ =>
           apply SEND_frame in H; destruct H as (_ & _ & ? & _ & ? & _)
       end.
  all: simplify_eq; simpl in *.
  all: split; [unfold on_updater; repeat case_match; simpl; congruence|].
  all: try (apply mirror_grows_refl; unfold on_updater; repeat case_match; simpl;
            congruence).
  match goal with
  | He : entities ?s3 = entities ?s2,
    Hn : dict_get _ (entities ?s2) = Some ?nsd,
    Ht : dict_get _ ?nsd = Some ?td,
    Hm : dict_mem _ ?td = true |- _ =>
      rewrite He, Hn; msimp; rewrite Ht; msimp; rewrite Hm; msimp;
      eapply mirror_grows_update; [exact Hn|simpl; rewrite ?He; reflexivity]
  end.
Qed.

Lemma _process_queue_body_mirror cfg s :
  let s' := (_process_queue_body cfg s).2 in
  (_reg_queue s' = _reg_queue s \/ exists item, _reg_queue s = item :: _reg_queue s') /\
  mirror_grows s s'.
Proof.
  unfold _process_queue_body. mstep.
  destruct (_reg_queue s) as [|item rest] eqn:Hq; msimp;
    [split; [left; exact Hq|apply mirror_grows_refl; reflexivity]|].
  destruct (registered s); msimp;
    [|split; [left; exact Hq|apply mirror_grows_refl; reflexivity]].
  pose proof (process_item_mirror cfg item (set_reg_queue rest s)) as [Hpq Hpm].
  destruct (process_item cfg item (set_reg_queue rest s)) as [[[]|ex] s1]; simpl in *.
  - split; [right; exists item; rewrite Hpq; reflexivity|exact Hpm].
  - destruct (on_updater_frame MDNSUpdater.P2P_disable (set_registered false s1))
      as (_ & _ & He & _ & Hq' & _). simpl in He, Hq'.
    split; [right; exists item; rewrite Hq', Hpq; reflexivity|].
    eapply mirror_grows_trans; [exact Hpm|apply mirror_grows_refl; exact He].
Qed.

Lemma _heartbeat_body_mirror cfg s :
  let s' := (_heartbeat_body cfg s).2 in
  entities s' = entities s /\
  (_reg_queue s' = _reg_queue s \/ _reg_queue s' = [] \/
   _reg_queue s' = ordered_intents (entities s) ++ other_intents (entities s)).
Proof.
  destruct (registered s) eqn:Hreg.
  - unfold _heartbeat_body, node_id. mstep. rewrite Hreg. msimp.
    repeat (case_match; msimp).
    all: repeat match goal with
         | H : _SEND _ _ _ _ _ = _ |- _ =>
             apply SEND_frame in H; destruct H as (_ & _ & ? & _ & ? & _)
         end.
    all: simplify_eq; simpl in *.
    all: unfold on_updater; repeat case_match; simpl.
    all: (split; [|left]); congruence.
  - rewrite (_heartbeat_body_unregistered cfg s Hreg).
    destruct (_process_reregister_run cfg s) as (s' & -> & Hrun). simpl.
    inversion Hrun as
      [ Hn Heq | e Hn Hid Heq | e id rd sd Hn Hid Hdel Hab Heq
      | e id rd sd rp sp Hn Hid Hdel Hab Hpost Hok Heq
      | e id rd sd rp sp rh sh Hn Hid Hdel Hab Hpost Hok Hh Hokh Heq
      | e id rd sd rp sp rh sh Hn Hid Hdel Hab Hpost Hok Hh Hokh Heq ].
    all: repeat match goal with
         | H : _SEND _ _ _ _ _ = _ |- _ =>
             apply SEND_frame in H; destruct H as (_ & _ & ? & _ & ? & _)
         end.
    all: unfold after_walk, before_node_post, on_updater in *.
    all: repeat case_match; simpl in *.
    all: split; [congruence|].
    all: try (left; congruence).
    all: try (right; left; congruence).
    all: right; right; f_equal; f_equal; congruence.
Qed.

Lemma register_into_mirror cfg namespace res_type key kwargs s :
  let s' := (register_into cfg namespace res_type key kwargs s).2 in
  mirror_grows s s' /\
  (_reg_queue s' = _reg_queue s \/
   (_reg_queue s' = _reg_queue s ++ [mkIntent "POST" namespace res_type key] /\
    (res_type = "node" \/ has_bucket namespace res_type (entities s')))).
Proof.
  unfold register_into, register_auth_client, _queue_request, subscript. mstep.
  destruct (String.eqb namespace "resource" && String.eqb res_type "node") eqn:Hnode; msimp.
  - apply andb_true_iff in Hnode. destruct Hnode as [_ Hnode].
    apply String.eqb_eq in Hnode.
    destruct (OAUTH_MODE cfg); msimp.
    + destruct (auth_dance _ _) as [[ex|] client]; simpl.
      * split; [apply mirror_grows_refl; reflexivity|left; reflexivity].
      * split; [apply mirror_grows_refl; reflexivity|right; auto].
    + simpl. split; [apply mirror_grows_refl; reflexivity|right; auto].
  - destruct (_add_mirror_keys_spec namespace res_type s) as (Hok & Hq & Hgrow & Hb).
    destruct (_add_mirror_keys namespace res_type s) as [r s1]. simpl in Hok, Hq, Hgrow, Hb.
    subst r. msimp.
    destruct Hb as (nsd & td & Hns & HT).
    repeat (progress (rewrite ?Hns, ?HT; msimp)). simpl.
    split.
    + eapply mirror_grows_trans; [exact Hgrow|].
      eapply mirror_grows_update; [exact Hns|reflexivity].
    + right. split; [rewrite Hq; reflexivity|]. right. apply has_bucket_new.
Qed.

Lemma unregister_from_mirror namespace res_type key s :
  let s' := (unregister_from namespace res_type key s).2 in
  mirror_grows s s' /\
  (_reg_queue s' = _reg_queue s \/
   _reg_queue s' = _reg_queue s ++ [mkIntent "DELETE" namespace res_type key]).
Proof.
  unfold unregister_from, _queue_request, subscript. mstep.
  destruct (String.eqb namespace "resource" && String.eqb res_type "node"); msimp.
  - simpl. split; [apply mirror_grows_refl; reflexivity|right; reflexivity].
  - destruct (dict_get namespace (entities s)) as [nsd0|] eqn:Hns0; msimp;
      [|simpl; split; [apply mirror_grows_refl; reflexivity|left; reflexivity]].
    destruct (dict_mem res_type nsd0); msimp;
      [|simpl; split; [apply mirror_grows_refl; reflexivity|right; reflexivity]].
    destruct (_add_mirror_keys_spec namespace res_type s) as (Hok & Hq & Hgrow & Hb).
    destruct (_add_mirror_keys namespace res_type s) as [r s1]. simpl in Hok, Hq, Hgrow, Hb.
    subst r. msimp.
    destruct Hb as (nsd & td & Hns & HT).
    repeat (progress (rewrite ?Hns, ?HT; msimp)).
    destruct (dict_mem key td); msimp.
    + destruct (del_entity_spec namespace res_type key s1) as [Hdq Hdg].
      destruct (del_entity namespace res_type key s1) as [[[]|ex] s2]; simpl in *.
      * split; [eapply mirror_grows_trans; eassumption|right; congruence].
      * split; [eapply mirror_grows_trans; eassumption|left; congruence].
    + simpl. split; [exact Hgrow|right; rewrite Hq; reflexivity].
Qed.

(** The intents of the walk come from dictionaries of the mirror. *)
Lemma walk_buckets all x :
  NoDup (dict_keys all) ->
  In x (ordered_intents all ++ other_intents all) ->
  has_bucket (namespace x) (res_type x) all.
Proof.
  intros Hnd Hx. apply in_app_or in Hx. destruct Hx as [Hx|Hx].
  - unfold ordered_intents in Hx. rewrite in_flat_map in Hx.
    destruct Hx as (T & _ & Hx). rewrite in_flat_map in Hx.
    destruct Hx as ([ns nsd] & Hin & Hx).
    destruct (dict_get T nsd) as [d|] eqn:HT; [|contradiction].
    apply intents_of_In in Hx. destruct Hx as (k & _ & ->). simpl.
    exists nsd, d. split; [apply NoDup_dict_get; assumption|exact HT].
  - unfold other_intents in Hx. rewrite in_flat_map in Hx.
    destruct Hx as ([ns nsd] & Hin & Hx). rewrite in_flat_map in Hx.
    destruct Hx as (T & _ & Hx).
    destruct (bool_decide (T ∈ registration_order)); [contradiction|].
    destruct (dict_get T nsd) as [d|] eqn:HT; [|contradiction].
    apply intents_of_In in Hx. destruct Hx as (k & _ & ->). simpl.
    exists nsd, d. split; [apply NoDup_dict_get; assumption|exact HT].
Qed.

Lemma queue_ok_step s s' :
  queue_ok s -> buckets_kept s s' ->
  (forall item, In item (_reg_queue s') ->
     In item (_reg_queue s) \/ method item <> "POST" \/ res_type item = "node" \/
     has_bucket (namespace item) (res_type item) (entities s')) ->
  queue_ok s'.
Proof.
  intros Hok Hkept Hq item Hin Hm HT.
  destruct (Hq item Hin) as [Hold|[Hne|[Hnode|Hb]]];
    [apply Hkept, Hok; assumption|contradiction|contradiction|exact Hb].
Qed.

(** Every step of the proxy keeps the queue well formed. *)
Lemma proxy_step_inv cfg s l s' :
  proxy_step cfg s l s' -> proxy_inv s -> proxy_inv s'.
Proof.
  intros Hstep [Hnd Hok]. destruct Hstep as [Hon| |ns T k kw|ns T k|].
  - destruct (_heartbeat_body_mirror cfg s) as [He Hq].
    split; [rewrite He; exact Hnd|].
    apply (queue_ok_step s); [exact Hok|intros ns T; rewrite He; tauto|].
    intros item Hin. destruct Hq as [Hq|[Hq|Hq]]; rewrite Hq in Hin.
    + left. exact Hin.
    + destruct Hin.
    + right. right. right. rewrite He. apply walk_buckets; assumption.
  - destruct (_process_queue_body_mirror cfg s) as [Hq [Hg1 Hg2]].
    split; [exact (Hg1 Hnd)|].
    apply (queue_ok_step s); [exact Hok|exact Hg2|].
    intros item Hin. left. destruct Hq as [Hq|(hd & Hq)].
    + rewrite Hq in Hin. exact Hin.
    + rewrite Hq. right. exact Hin.
  - destruct (register_into_mirror cfg ns T k kw s) as [[Hg1 Hg2] Hq].
    split; [exact (Hg1 Hnd)|].
    apply (queue_ok_step s); [exact Hok|exact Hg2|].
    intros item Hin. destruct Hq as [Hq|[Hq Hnew]]; rewrite Hq in Hin; [left; exact Hin|].
    apply in_app_or in Hin. destruct Hin as [Hin|[<-|[]]]; [left; exact Hin|].
    simpl. destruct Hnew as [Hnode|Hb]; auto.
  - destruct (unregister_from_mirror ns T k s) as [[Hg1 Hg2] Hq].
    split; [exact (Hg1 Hnd)|].
    apply (queue_ok_step s); [exact Hok|exact Hg2|].
    intros item Hin. destruct Hq as [Hq|Hq]; rewrite Hq in Hin; [left; exact Hin|].
    apply in_app_or in Hin. destruct Hin as [Hin|[<-|[]]]; [left; exact Hin|].
    right. left. simpl. discriminate.
  - split; [exact Hnd|]. exact Hok.
Qed.

Lemma proxy_run_inv cfg s ls s' :
  proxy_run cfg s ls s' -> proxy_inv s -> proxy_inv s'.
Proof.
  induction 1 as [s|s l s1 ls s2 Hstep Hrun IH]; intros Hinv; [exact Hinv|].
  apply IH. exact (proxy_step_inv _ _ _ _ Hstep Hinv).
Qed.

Lemma __init___inv mdns_updater w : proxy_inv (__init__ mdns_updater w).
Proof.
  split.
  - simpl. apply NoDup_cons. split; [apply not_elem_of_nil|apply NoDup_nil_2].
  - intros item [].
Qed.

(** C7.  In every state that the proxy reaches from its construction, by
    whatever turns of the heartbeat loop and of the worker and whatever
    calls of the application, a worker turn that takes a POST intent for a
    type other than node whose envelope is not in the mirror ends normally
    and changes nothing but the queue, which loses the intent: no request
    is sent, the mirror and [registered] are as they were. *)
Theorem absent_post_is_noop cfg mdns_updater w ls s item rest :
  proxy_run cfg (__init__ mdns_updater w) ls s ->
  registered s = true -> _reg_queue s = item :: rest ->
  method item = "POST" -> res_type item <> "node" ->
  mirror_get (namespace item) (res_type item) (key item) (entities s) = None ->
  _process_queue_body cfg s = (Ok tt, set_reg_queue rest s) /\
  trace (_process_queue_body cfg s).2 = trace s /\
  entities (_process_queue_body cfg s).2 = entities s /\
  registered (_process_queue_body cfg s).2 = registered s.
Proof.
  intros Hrun Hreg Hq Hm HT Habsent.
  destruct (proxy_run_inv _ _ _ _ Hrun (__init___inv mdns_updater w)) as [_ Hok].
  destruct (Hok item) as (nsd & td & Hns & Htd);
    [rewrite Hq; left; reflexivity|exact Hm|exact HT|].
  unfold mirror_get in Habsent. rewrite Hns in Habsent. simpl in Habsent.
  rewrite Htd in Habsent. simpl in Habsent.
  rewrite (absent_key_is_noop cfg s item rest nsd td Hreg Hq Hm HT Hns Htd Habsent).
  auto.
Qed.
(** * Further properties *)

(** ** The mDNS updater: versions, publication, the update thread *)

Lemma init_covers mappings p2p cut txt :
  versions_cover_mappings (MDNSUpdater.__init__ mappings p2p cut txt).
Proof.
  unfold versions_cover_mappings; simpl.
  apply (map_fold_weak_ind
           (fun (sv : gmap string Z) (mp : gmap string string) =>
              forall type m, mp !! type = Some m -> is_Some (sv !! m))).
  - intros type m Hm. rewrite lookup_empty in Hm. discriminate.
  - intros i x mp r _ IH type m Hm.
    destruct (decide (type = i)) as [->|Hne].
    + rewrite lookup_insert_eq in Hm. injection Hm as ->.
      rewrite lookup_insert_eq. eauto.
    + rewrite lookup_insert_ne in Hm by congruence.
      apply lookup_insert_is_Some'. right. exact (IH _ _ Hm).
Qed.

Lemma inc_P2P_mappings u :
  MDNSUpdater.mappings (MDNSUpdater.inc_P2P_enable_count u) = MDNSUpdater.mappings u.
Proof.
  unfold MDNSUpdater.inc_P2P_enable_count, MDNSUpdater.P2P_enable.
  destruct (MDNSUpdater.p2p_enable u) eqn:He; simpl; [reflexivity|].
  destruct (_ <=? _); simpl; [rewrite He|]; reflexivity.
Qed.

Lemma P2P_enable_mappings u :
  MDNSUpdater.mappings (MDNSUpdater.P2P_enable u) = MDNSUpdater.mappings u.
Proof. unfold MDNSUpdater.P2P_enable. destruct (MDNSUpdater.p2p_enable u); reflexivity. Qed.

Lemma P2P_disable_mappings u :
  MDNSUpdater.mappings (MDNSUpdater.P2P_disable u) = MDNSUpdater.mappings u.
Proof. unfold MDNSUpdater.P2P_disable. destruct (MDNSUpdater.p2p_enable u); reflexivity. Qed.

(** What [update_mdns] does once it has passed its two tests, on an
    updater whose mapped name has a version within range. *)
Lemma update_mdns_counted u type action m v :
  MDNSUpdater.p2p_enable u = true -> counted_action action = true ->
  MDNSUpdater.mappings u !! type = Some m ->
  MDNSUpdater.service_versions u !! m = Some v -> 0 <= v <= 255 ->
  exists u1,
    MDNSUpdater.update_mdns type action u = Ok u1 /\
    MDNSUpdater.service_versions u1 =
      <[m := (v + 1) mod 256]> (MDNSUpdater.service_versions u) /\
    MDNSUpdater._mdns_update_queue u1 =
      MDNSUpdater._mdns_update_queue u ++ [MDNSUpdater._p2p_txt_recs u1] /\
    MDNSUpdater.mappings u1 = MDNSUpdater.mappings u /\
    MDNSUpdater.txt_rec_base u1 = MDNSUpdater.txt_rec_base u /\
    MDNSUpdater.p2p_enable u1 = true /\
    MDNSUpdater.p2p_enable_count u1 = MDNSUpdater.p2p_enable_count u /\
    MDNSUpdater.p2p_cut_in_count u1 = MDNSUpdater.p2p_cut_in_count u.
Proof.
  intros He Ha Hm Hv Hr.
  unfold MDNSUpdater.update_mdns, MDNSUpdater._increment_service_version.
  unfold counted_action in Ha. rewrite He, Ha, Hm, Hv.
  destruct (255 <? v + 1) eqn:Hlt.
  - apply Z.ltb_lt in Hlt. assert (v = 255) by lia. subst v.
    eexists. split; [reflexivity|]. simpl. rewrite insert_insert_eq.
    repeat split; try reflexivity. exact He.
  - apply Z.ltb_ge in Hlt. rewrite (Z.mod_small (v + 1) 256) by lia.
    eexists. split; [reflexivity|]. simpl.
    repeat split; try reflexivity. exact He.
Qed.

Lemma run_call_mappings c u :
  MDNSUpdater.mappings (run_call c u) = MDNSUpdater.mappings u.
Proof.
  destruct c as [type action| | |]; simpl.
  - unfold MDNSUpdater.update_mdns, MDNSUpdater._increment_service_version.
    repeat case_match; simplify_eq; reflexivity.
  - apply inc_P2P_mappings.
  - apply P2P_enable_mappings.
  - apply P2P_disable_mappings.
Qed.

Lemma run_call_covers c u :
  versions_cover_mappings u -> versions_cover_mappings (run_call c u).
Proof.
  intros Hu type m. rewrite run_call_mappings. intros Hm.
  specialize (Hu type m Hm).
  destruct c as [type' action| | |]; simpl.
  - unfold MDNSUpdater.update_mdns, MDNSUpdater._increment_service_version.
    repeat case_match; simplify_eq; simpl; try exact Hu.
    all: repeat (apply lookup_insert_is_Some'; right); exact Hu.
  - rewrite UpdaterFacts.inc_P2P_versions. exact Hu.
  - rewrite UpdaterFacts.P2P_enable_versions. exact Hu.
  - rewrite UpdaterFacts.P2P_disable_versions. exact Hu.
Qed.

Lemma run_calls_snoc cs c u : run_calls (cs ++ [c]) u = run_call c (run_calls cs u).
Proof. unfold run_calls. rewrite fold_left_app. reflexivity. Qed.

Lemma run_calls_mappings cs u :
  MDNSUpdater.mappings (run_calls cs u) = MDNSUpdater.mappings u.
Proof.
  revert u. induction cs as [|c cs IH]; intros u; [reflexivity|].
  simpl. change (fold_left _ cs ?x) with (run_calls cs x).
  rewrite IH. apply run_call_mappings.
Qed.

Lemma run_calls_covers cs u :
  versions_cover_mappings u -> versions_cover_mappings (run_calls cs u).
Proof.
  revert u. induction cs as [|c cs IH]; intros u Hu; [exact Hu|].
  apply IH, run_call_covers, Hu.
Qed.

(** On an updater reached from its construction, a counted action on a
    mapped type goes through. *)
Lemma update_mdns_reachable mappings p2p cut txt cs type action m :
  let u := run_calls cs (MDNSUpdater.__init__ mappings p2p cut txt) in
  MDNSUpdater.p2p_enable u = true -> counted_action action = true ->
  mappings !! type = Some m ->
  exists v u1,
    MDNSUpdater.service_versions u !! m = Some v /\ 0 <= v <= 255 /\
    MDNSUpdater.update_mdns type action u = Ok u1 /\
    MDNSUpdater.service_versions u1 =
      <[m := (v + 1) mod 256]> (MDNSUpdater.service_versions u) /\
    MDNSUpdater._mdns_update_queue u1 =
      MDNSUpdater._mdns_update_queue u ++ [MDNSUpdater._p2p_txt_recs u1] /\
    MDNSUpdater.p2p_enable u1 = true /\
    MDNSUpdater.p2p_enable_count u1 = MDNSUpdater.p2p_enable_count u.
Proof.
  intros u He Ha Hm.
  assert (Hmu : MDNSUpdater.mappings u !! type = Some m).
  { unfold u. rewrite run_calls_mappings. exact Hm. }
  destruct (run_calls_covers cs _ (init_covers mappings p2p cut txt) type m Hmu)
    as [v Hv].
  pose proof (UpdaterFacts.run_calls_in_range cs _
                (UpdaterFacts.init_in_range mappings p2p cut txt)) as Hrange.
  pose proof (map_Forall_lookup_1 _ _ _ _ Hrange Hv) as Hr. simpl in Hr.
  destruct (update_mdns_counted u type action m v He Ha Hmu Hv Hr)
    as (u1 & H1 & H2 & H3 & _ & _ & H6 & H7 & _).
  exists v, u1. auto 10.
Qed.

(** X1.  On an updater reached from its construction by any calls,
    [update_mdns] does nothing, whatever the type, while P2P is off or for
    an action other than register, update and unregister; with P2P on and
    such an action it raises [KeyError] for a type that is not mapped and
    for a mapped type always goes through: the version of the mapped name
    becomes the next one modulo 256, every other version is kept, and one
    set of TXT records carrying the new version is put on the queue. *)
Theorem update_mdns_outcome mappings p2p cut txt (cs : list updater_call)
    (type action : string) :
  let u := run_calls cs (MDNSUpdater.__init__ mappings p2p cut txt) in
  (MDNSUpdater.p2p_enable u && counted_action action = false ->
   MDNSUpdater.update_mdns type action u = Ok u) /\
  (MDNSUpdater.p2p_enable u && counted_action action = true ->
   match mappings !! type with
   | None => MDNSUpdater.update_mdns type action u = Raise KeyError
   | Some m =>
       exists v u1,
         MDNSUpdater.service_versions u !! m = Some v /\
         MDNSUpdater.update_mdns type action u = Ok u1 /\
         MDNSUpdater.service_versions u1 !! m = Some ((v + 1) mod 256) /\
         (forall m', m' <> m ->
            MDNSUpdater.service_versions u1 !! m' =
            MDNSUpdater.service_versions u !! m') /\
         (exists recs,
            MDNSUpdater._mdns_update_queue u1 =
              MDNSUpdater._mdns_update_queue u ++ [recs] /\
            recs !! m = Some (TxtInt ((v + 1) mod 256)) /\
            (forall k, MDNSUpdater.service_versions u1 !! k = None ->
               recs !! k = MDNSUpdater.txt_rec_base u !! k)) /\
         MDNSUpdater.p2p_enable u1 = true /\
         MDNSUpdater.p2p_enable_count u1 = MDNSUpdater.p2p_enable_count u
   end).
Proof.
  intros u. split.
  - intros Hoff. unfold MDNSUpdater.update_mdns. fold (counted_action action).
    destruct (MDNSUpdater.p2p_enable u); [|reflexivity].
    simpl in Hoff. rewrite Hoff. reflexivity.
  - intros Hon. apply andb_true_iff in Hon. destruct Hon as [He Ha].
    destruct (mappings !! type) as [m|] eqn:Hm.
    + destruct (update_mdns_reachable mappings p2p cut txt cs type action m He Ha Hm)
        as (v & u1 & Hv & Hr & Hrun & Hsv & Hq & He1 & Hc1).
      fold u in Hv, Hrun, Hsv, Hq, Hc1.
      exists v, u1. split; [exact Hv|]. split; [exact Hrun|].
      split; [rewrite Hsv; apply lookup_insert_eq|].
      split; [intros m' Hne; rewrite Hsv; apply lookup_insert_ne; congruence|].
      split; [|auto].
      exists (MDNSUpdater._p2p_txt_recs u1). split; [exact Hq|].
      assert (Hbase : MDNSUpdater.txt_rec_base u1 = MDNSUpdater.txt_rec_base u).
      { revert Hrun. unfold MDNSUpdater.update_mdns,
          MDNSUpdater._increment_service_version.
        repeat case_match; intros; simplify_eq; reflexivity. }
      unfold MDNSUpdater._p2p_txt_recs. split.
      * apply lookup_union_Some_l. rewrite lookup_fmap, Hsv, lookup_insert_eq.
        reflexivity.
      * intros k Hk. rewrite lookup_union_r, Hbase; [reflexivity|].
        rewrite lookup_fmap, Hk. reflexivity.
    + unfold MDNSUpdater.update_mdns, MDNSUpdater._increment_service_version.
      fold (counted_action action). rewrite He, Ha.
      unfold u. rewrite run_calls_mappings. simpl. rewrite Hm. reflexivity.
Qed.

(** X2.  The service version of a mapped name counts the counted actions
    modulo 256: after [n] updates of a type, on an updater reached from
    its construction with P2P on, the version is the old one plus [n]
    modulo 256, so 256 updates bring it back; no other version moves, and
    [n] sets of TXT records have been put on the queue. *)
Theorem service_version_counts_mod_256 mappings p2p cut txt
    (cs : list updater_call) (type m : string) (v : Z) (n : nat) :
  let u := run_calls cs (MDNSUpdater.__init__ mappings p2p cut txt) in
  let u' := run_calls (repeat (Call_update_mdns type "update") n) u in
  MDNSUpdater.p2p_enable u = true ->
  mappings !! type = Some m ->
  MDNSUpdater.service_versions u !! m = Some v ->
  MDNSUpdater.service_versions u' !! m = Some ((v + Z.of_nat n) mod 256) /\
  (n = 256%nat -> MDNSUpdater.service_versions u' !! m = Some v) /\
  (forall m', m' <> m ->
     MDNSUpdater.service_versions u' !! m' = MDNSUpdater.service_versions u !! m') /\
  length (MDNSUpdater._mdns_update_queue u') =
    (length (MDNSUpdater._mdns_update_queue u) + n)%nat.
Proof.
  intros u u' He Hm Hv.
  assert (Hrange : 0 <= v <= 255).
  { pose proof (UpdaterFacts.run_calls_in_range cs _
                  (UpdaterFacts.init_in_range mappings p2p cut txt)) as Hr.
    exact (map_Forall_lookup_1 _ _ _ _ Hr Hv). }
  assert (Hmain :
    MDNSUpdater.service_versions u' !! m = Some ((v + Z.of_nat n) mod 256) /\
    (forall m', m' <> m ->
       MDNSUpdater.service_versions u' !! m' = MDNSUpdater.service_versions u !! m') /\
    length (MDNSUpdater._mdns_update_queue u') =
      (length (MDNSUpdater._mdns_update_queue u) + n)%nat).
  { unfold u'. clear u'. revert He Hv Hrange. unfold u. clear u.
    revert cs v. induction n as [|n IH]; intros cs v He Hv Hrange.
    - simpl. rewrite Z.add_0_r, Z.mod_small by lia. split; [exact Hv|].
      split; [reflexivity|lia].
    - destruct (update_mdns_reachable mappings p2p cut txt cs type "update" m
                  He eq_refl Hm)
        as (v0 & u1 & Hv0 & _ & Hrun & Hsv & Hq & He1 & _).
      assert (v0 = v) by congruence. subst v0.
      set (u := run_calls cs (MDNSUpdater.__init__ mappings p2p cut txt)) in *.
      assert (Hu1 : run_calls (cs ++ [Call_update_mdns type "update"])
                      (MDNSUpdater.__init__ mappings p2p cut txt) = u1).
      { rewrite run_calls_snoc. fold u. simpl. rewrite Hrun. reflexivity. }
      assert (Hstep : run_calls (repeat (Call_update_mdns type "update") (S n)) u =
                      run_calls (repeat (Call_update_mdns type "update") n) u1).
      { simpl. rewrite Hrun. reflexivity. }
      rewrite Hstep, <- Hu1.
      assert (Hv1 : MDNSUpdater.service_versions u1 !! m = Some ((v + 1) mod 256))
        by (rewrite Hsv; apply lookup_insert_eq).
      destruct (IH (cs ++ [Call_update_mdns type "update"]) ((v + 1) mod 256))
        as (I1 & I2 & I3).
      + rewrite Hu1. exact He1.
      + rewrite Hu1. exact Hv1.
      + pose proof (Z.mod_pos_bound (v + 1) 256). lia.
      + rewrite Hu1 in I1, I2, I3. rewrite Hu1. split; [|split].
        * rewrite I1. f_equal. rewrite Zplus_mod_idemp_l. f_equal. lia.
        * intros m' Hne. rewrite (I2 m' Hne), Hsv. apply lookup_insert_ne. congruence.
        * rewrite I3, Hq, length_app. simpl. lia. }
  destruct Hmain as (H1 & H2 & H3).
  split; [exact H1|]. split; [|split; [exact H2|exact H3]].
  intros ->. rewrite H1. f_equal.
  change (Z.of_nat 256) with (1 * 256). rewrite Z.mod_add by lia.
  apply Z.mod_small. lia.
Qed.

(** X3.  [P2P_disable] always leaves P2P off and the counter at 0, puts
    the base TXT records on the queue exactly when P2P was on, and is
    idempotent; the signals counted before it are forgotten: with a
    threshold of N, at least 1, the N-th signal after it, and none before
    that, turns P2P on again and publishes the merged records. *)
Theorem P2P_disable_resets (u : MDNSUpdater.t) :
  let d := MDNSUpdater.P2P_disable u in
  MDNSUpdater.p2p_enable d = false /\
  MDNSUpdater.p2p_enable_count d = 0 /\
  MDNSUpdater._mdns_update_queue d =
    MDNSUpdater._mdns_update_queue u ++
      (if MDNSUpdater.p2p_enable u then [MDNSUpdater.txt_rec_base u] else []) /\
  MDNSUpdater.P2P_disable d = d /\
  (forall n : nat,
     (1 <= n)%nat -> MDNSUpdater.p2p_cut_in_count u = Z.of_nat n ->
     let after k := Nat.iter k MDNSUpdater.inc_P2P_enable_count d in
     (forall k, (k < n)%nat ->
        MDNSUpdater.p2p_enable (after k) = false /\
        MDNSUpdater._mdns_update_queue (after k) = MDNSUpdater._mdns_update_queue d) /\
     MDNSUpdater.p2p_enable (after n) = true /\
     MDNSUpdater._mdns_update_queue (after n) =
       MDNSUpdater._mdns_update_queue d ++ [MDNSUpdater._p2p_txt_recs u]).
Proof.
  intros d.
  assert (He : MDNSUpdater.p2p_enable d = false).
  { unfold d, MDNSUpdater.P2P_disable.
    destruct (MDNSUpdater.p2p_enable u) eqn:E; simpl; [reflexivity|exact E]. }
  assert (Hc : MDNSUpdater.p2p_enable_count d = 0).
  { unfold d, MDNSUpdater.P2P_disable.
    destruct (MDNSUpdater.p2p_enable u); reflexivity. }
  split; [exact He|]. split; [exact Hc|]. split; [|split].
  - unfold d, MDNSUpdater.P2P_disable.
    destruct (MDNSUpdater.p2p_enable u); simpl; [reflexivity|].
    rewrite app_nil_r. reflexivity.
  - unfold MDNSUpdater.P2P_disable at 1. rewrite He.
    unfold MDNSUpdater._reset_P2P_enable_count, MDNSUpdater.set_p2p_enable_count.
    rewrite <- Hc. destruct d; reflexivity.
  - intros n Hpos Hn after.
    assert (Hcut : MDNSUpdater.p2p_cut_in_count d = Z.of_nat n).
    { rewrite <- Hn. unfold d, MDNSUpdater.P2P_disable.
      destruct (MDNSUpdater.p2p_enable u); reflexivity. }
    assert (Hrecs : MDNSUpdater._p2p_txt_recs d = MDNSUpdater._p2p_txt_recs u).
    { unfold d, MDNSUpdater.P2P_disable.
      destruct (MDNSUpdater.p2p_enable u); reflexivity. }
    assert (Hbelow : forall k, (k < n)%nat ->
              after k = MDNSUpdater.set_p2p_enable_count (Z.of_nat k) d).
    { intros k Hk. apply UpdaterFacts.inc_below_threshold; [exact He|exact Hc|lia]. }
    split.
    + intros k Hk. rewrite (Hbelow k Hk). simpl. split; [exact He|reflexivity].
    + destruct n as [|n']; [lia|].
      assert (Hlast : after (S n') = MDNSUpdater.inc_P2P_enable_count (after n'))
        by apply Nat.iter_succ.
      rewrite Hlast, (Hbelow n') by lia. rewrite <- Hrecs.
      unfold MDNSUpdater.inc_P2P_enable_count, MDNSUpdater.P2P_enable; simpl.
      rewrite He; simpl. rewrite Hcut.
      replace (Z.of_nat (S n') <=? Z.of_nat n' + 1) with true
        by (symmetry; apply Z.leb_le; lia).
      simpl. split; reflexivity.
Qed.

(** *** The update thread *)

Lemma updates_app cs1 cs2 :
  MDNSThread.updates (cs1 ++ cs2) = MDNSThread.updates cs1 ++ MDNSThread.updates cs2.
Proof.
  induction cs1 as [|[r|r] cs1 IH]; simpl; [reflexivity|exact IH|].
  rewrite IH. reflexivity.
Qed.

(** No call of the public interface takes a record set off the queue. *)
Lemma run_call_queue c u :
  exists more,
    MDNSUpdater._mdns_update_queue (run_call c u) =
    MDNSUpdater._mdns_update_queue u ++ more.
Proof.
  destruct c as [type action| | |]; simpl.
  - unfold MDNSUpdater.update_mdns, MDNSUpdater._increment_service_version.
    repeat case_match; simplify_eq; simpl;
      first [eexists; reflexivity | exists []; rewrite app_nil_r; reflexivity].
  - unfold MDNSUpdater.inc_P2P_enable_count, MDNSUpdater.P2P_enable.
    repeat case_match; simpl;
      first [eexists; reflexivity | exists []; rewrite app_nil_r; reflexivity].
  - unfold MDNSUpdater.P2P_enable.
    repeat case_match; simpl;
      first [eexists; reflexivity | exists []; rewrite app_nil_r; reflexivity].
  - unfold MDNSUpdater.P2P_disable.
    repeat case_match; simpl;
      first [eexists; reflexivity | exists []; rewrite app_nil_r; reflexivity].
Qed.

(** A turn of the thread moves the oldest waiting record set, if there is
    one, to the engine, whatever the engine makes of it. *)
Lemma _modify_mdns_body_moves th r th1 :
  MDNSThread._modify_mdns_body th = (r, th1) ->
  MDNSThread._running th1 = MDNSThread._running th /\
  MDNSThread.engine th1 = MDNSThread.engine th /\
  match MDNSUpdater._mdns_update_queue (MDNSThread.updater th) with
  | [] => r = Ok tt /\ th1 = th
  | recs :: rest =>
      MDNSThread.updates (MDNSThread.engine_calls th1) =
        MDNSThread.updates (MDNSThread.engine_calls th) ++ [recs] /\
      MDNSUpdater._mdns_update_queue (MDNSThread.updater th1) = rest /\
      (r = Ok tt <->
       MDNSThread.engine th (length (MDNSThread.updates (MDNSThread.engine_calls th)))
         <> EngineFailure)
  end.
Proof.
  unfold MDNSThread._modify_mdns_body.
  destruct (MDNSUpdater._mdns_update_queue (MDNSThread.updater th)) as [|recs rest].
  - intros [= <- <-]. auto.
  - destruct (MDNSThread.engine th _); intros [= <- <-]; simpl.
    all: rewrite updates_app; simpl.
    all: repeat split; try reflexivity; try discriminate; try congruence.
Qed.

(** X4.  The update thread hands the queued TXT record sets to the engine
    in the order in which they were queued, each once: along any run of
    thread turns and application calls, what has been handed over followed
    by what waits is the earlier such sequence, extended at its end.  Left
    alone with [n] record sets waiting and an engine that raises nothing
    but [ServiceNotFoundException], [n] turns hand over all of them, a
    record set whose update raised [ServiceNotFoundException] included, and
    further turns do nothing; once stopped, the thread hands over
    nothing. *)
Theorem update_thread_delivers_in_order :
  (forall th th',
      MDNSThread.run th th' ->
      exists handed more,
        MDNSThread.updates (MDNSThread.engine_calls th') =
          MDNSThread.updates (MDNSThread.engine_calls th) ++ handed /\
        MDNSThread.stream th' = MDNSThread.stream th ++ more) /\
  (forall th,
      MDNSThread._running th = true ->
      (forall k, MDNSThread.engine th k <> EngineFailure) ->
      let q := MDNSUpdater._mdns_update_queue (MDNSThread.updater th) in
      forall extra,
        exists th',
          MDNSThread._modify_mdns (length q + extra) th = (Ok tt, th') /\
          MDNSThread.updates (MDNSThread.engine_calls th') =
            MDNSThread.updates (MDNSThread.engine_calls th) ++ q /\
          MDNSUpdater._mdns_update_queue (MDNSThread.updater th') = []) /\
  (forall th fuel,
      MDNSThread._modify_mdns fuel (MDNSThread.stop th) = (Ok tt, MDNSThread.stop th)).
Proof.
  split; [|split].
  - induction 1 as [th|th th1 th2 Hstep Hrun IH].
    + exists [], []. rewrite !app_nil_r. auto.
    + destruct IH as (handed2 & more2 & IH1 & IH2).
      assert (Hone : exists handed more,
                MDNSThread.updates (MDNSThread.engine_calls th1) =
                  MDNSThread.updates (MDNSThread.engine_calls th) ++ handed /\
                MDNSThread.stream th1 = MDNSThread.stream th ++ more).
      { destruct Hstep as [th th1 Hon Hbody|c th|th].
        - apply _modify_mdns_body_moves in Hbody. destruct Hbody as (_ & _ & Hb).
          unfold MDNSThread.stream.
          destruct (MDNSUpdater._mdns_update_queue (MDNSThread.updater th))
            as [|recs rest] eqn:Hq.
          + destruct Hb as [_ ->]. exists [], []. rewrite Hq, !app_nil_r. auto.
          + destruct Hb as (Hu & Hrest & _). exists [recs], [].
            rewrite Hu, Hrest, app_nil_r, <- app_assoc. auto.
        - destruct (run_call_queue c (MDNSThread.updater th)) as [more Hmore].
          exists [], more. unfold MDNSThread.stream, MDNSThread.call. simpl.
          rewrite Hmore, app_nil_r, app_assoc. auto.
        - exists [], []. unfold MDNSThread.stream, MDNSThread.stop. simpl.
          rewrite !app_nil_r. auto. }
      destruct Hone as (handed1 & more1 & H1 & H2).
      exists (handed1 ++ handed2), (more1 ++ more2).
      rewrite IH1, IH2, H1, H2, !app_assoc. auto.
  - intros th Hon Hengine q extra. subst q.
    remember (MDNSUpdater._mdns_update_queue (MDNSThread.updater th)) as q eqn:Hq.
    revert th Hon Hengine Hq. induction q as [|recs rest IH]; intros th Hon Hengine Hq.
    + exists th. rewrite app_nil_r. split; [|auto].
      simpl. induction extra as [|extra IHe]; simpl; [reflexivity|].
      rewrite Hon. unfold MDNSThread._modify_mdns_body. rewrite <- Hq. exact IHe.
    + destruct (MDNSThread._modify_mdns_body th) as [r th1] eqn:Hbody.
      pose proof (_modify_mdns_body_moves _ _ _ Hbody) as (Hrun1 & Heng1 & Hb).
      rewrite <- Hq in Hb. destruct Hb as (Hu & Hrest & Hok).
      assert (r = Ok tt) by (apply Hok, Hengine). subst r.
      destruct (IH th1) as (th' & Hloop & Hup & Hempty).
      * rewrite Hrun1. exact Hon.
      * intros k. rewrite Heng1. apply Hengine.
      * symmetry. exact Hrest.
      * exists th'. split; [|split; [|exact Hempty]].
        -- simpl. rewrite Hon, Hbody. exact Hloop.
        -- rewrite Hup, Hu, <- app_assoc. reflexivity.
  - intros th fuel. destruct fuel; reflexivity.
Qed.

(** ** The send primitive: where its requests go and what it returns *)

Lemma aggregator_after_app a ev1 ev2 :
  aggregator_after a (ev1 ++ ev2) = aggregator_after (aggregator_after a ev1) ev2.
Proof.
  revert a. induction ev1 as [|e ev1 IH]; intros a; [reflexivity|].
  destruct e; simpl; apply IH.
Qed.

Lemma well_addressed_app a method url data ev1 ev2 :
  well_addressed a method url data (ev1 ++ ev2) <->
  well_addressed a method url data ev1 /\
  well_addressed (aggregator_after a ev1) method url data ev2.
Proof.
  revert a. induction ev1 as [|e ev1 IH]; intros a; simpl; [tauto|].
  destruct e; simpl; rewrite ?IH; tauto.
Qed.

(** A stretch of requests, all of them the same one to the aggregator in
    use. *)
Lemma sends_addressed a method url data ev :
  a <> "" ->
  List.Forall (fun e => exists au, e = Send (mkRequest method a url data au)) ev ->
  well_addressed a method url data ev /\ aggregator_after a ev = a.
Proof.
  intros Ha. induction 1 as [|e ev [au ->] _ [IH1 IH2]]; simpl; [auto|].
  repeat split; auto.
Qed.

(** The requests of an attempt all are the request it was asked to
    make, addressed to the aggregator in use. *)
Lemma attempt_requests cfg method url data R s r s' :
  attempt cfg method url data R s = (r, s') ->
  exists ev,
    trace s' = trace s ++ ev /\
    List.Forall (fun e => exists au, e = Send (mkRequest method (aggregator s) url data au)) ev.
Proof.
  intros H. revert H.
  unfold attempt, dispatch, except_RequestException, obtain_R, requests_request,
    fetch_auth_token, InvalidRequest. mstep.
  intros H. simpl in H.
  repeat (case_match; simpl in *; simplify_eq).
  all: simpl; rewrite <- ?app_assoc; simpl; eexists; split; [reflexivity|].
  all: repeat constructor; eexists; reflexivity.
Qed.

(** An attempt that makes the call return has just had its last request
    answered with a status that the call accepts. *)
Lemma attempt_returns cfg method url data R s b s' :
  stale R ->
  attempt cfg method url data R s = (Ok (Return b), s') ->
  exists ev,
    trace s' = trace s ++ ev /\
    ends_accepted (world s) (requests_made s') ev (aggregator s) b.
Proof.
  intros HR H. revert H.
  unfold attempt, dispatch, except_RequestException, obtain_R, requests_request,
    fetch_auth_token, InvalidRequest. mstep.
  intros H. simpl in H.
  repeat (case_match; simpl in *; simplify_eq).
  all: try (exfalso; decide_status).
  all: simpl; rewrite <- ?app_assoc; simpl; eexists; split; [reflexivity|].
  all: unfold ends_accepted.
  all: first [ eexists [], _, _; split; [reflexivity|]
             | eexists [_], _, _; split; [reflexivity|] ].
  all: split; [simpl; eassumption|]. all: split; [reflexivity|].
  all: unfold accepted.
  all: repeat match goal with
       | H : (_ =? _) || (_ =? _) = true |- _ =>
           apply orb_true_iff in H; rewrite !Z.eqb_eq in H
       | H : (_ =? _) = true |- _ => apply Z.eqb_eq in H
       | H : content_type _ = _ |- _ => rewrite H; clear H
       | H : String.prefix _ _ = _ |- _ => rewrite H; clear H
       end.
  all: first [ left; split;
                 [assumption
                 |first [reflexivity | eexists; split; [eassumption|reflexivity]]]
             | right; split; [assumption|reflexivity] ].
Qed.

(** The retry loop, round by round. *)
Lemma _SEND_loop_addressed cfg method url data range :
  forall R s r s',
    stale R ->
    _SEND_loop cfg range method url data R s = (r, s') ->
    exists ev,
      trace s' = trace s ++ ev /\
      well_addressed (aggregator s) method url data ev /\
      aggregator s' = aggregator_after (aggregator s) ev /\
      (forall b, r = Ok b ->
         ends_accepted (world s) (requests_made s') ev (aggregator s') b).
Proof.
  induction range as [|i range' IH]; intros R s r s' HR.
  - simpl. unfold TooManyRetries. mstep.
    destruct (_mdns_updater s); intros [= <- <-]; exists []; simpl.
    all: rewrite app_nil_r; repeat split; intros; discriminate.
  - simpl. mstep.
    destruct (String.eqb (aggregator s) "") eqn:Hagg.
    + unfold NoAggregator.
      destruct (_mdns_updater s); intros [= <- <-]; exists []; simpl.
      all: rewrite app_nil_r; repeat split; intros; discriminate.
    + apply String.eqb_neq in Hagg.
      destruct (attempt _ _ _ _ _ _) as [r1 s1] eqn:Hatt.
      pose proof (attempt_requests _ _ _ _ _ _ _ _ Hatt) as (ev1 & Htr & Hall).
      pose proof (attempt_spec _ _ _ _ _ _ _ _ HR Hatt)
        as (Hfr & Hag & _ & ev1' & Htr' & _ & _ & _ & _ & _ & Hres).
      simpl in Htr, Htr', Hag, Hres.
      assert (ev1' = ev1).
      { rewrite Htr in Htr'. apply app_inv_head in Htr'. symmetry. exact Htr'. }
      subst ev1'. rewrite <- app_assoc in Htr.
      assert (Hw : world s1 = world s) by apply Hfr.
      destruct (sends_addressed _ _ _ _ _ Hagg Hall) as [Hwa Haft].
      destruct r1 as [[b|R1]|e].
      * intros [= <- <-]. exists (Attempt i :: ev1).
        split; [exact Htr|]. split; [exact Hwa|].
        split; [simpl; rewrite Haft; exact Hag|].
        intros b0 [= <-].
        destruct (attempt_returns _ _ _ _ _ _ _ _ HR Hatt) as (ev1'' & Htr'' & Hend).
        simpl in Htr''. rewrite <- app_assoc in Htr''. rewrite Htr in Htr''.
        apply app_inv_head in Htr''. injection Htr'' as <-.
        destruct Hend as (ev0 & rq & resp & -> & Hq & Hto & Hacc).
        exists (Attempt i :: ev0), rq, resp. rewrite Hag. auto.
      * destruct Hres as [_ HR1].
        destruct (_get_api_href cfg s1) as [rh s2] eqn:Hhref.
        apply _get_api_href_spec in Hhref. destruct Hhref as (h & k & -> & ->).
        intros Hloop. apply IH in Hloop; [|exact HR1].
        destruct Hloop as (ev2 & Gtr & Gwa & Gag & Gend).
        simpl in Gtr, Gwa, Gag, Gend.
        exists ((Attempt i :: ev1) ++ Resolve h :: ev2).
        split; [rewrite Gtr, Htr, <- !app_assoc; reflexivity|].
        split; [apply well_addressed_app; split; [exact Hwa|exact Gwa]|].
        split; [rewrite aggregator_after_app; simpl; exact Gag|].
        intros b Hb. destruct (Gend b Hb) as (ev0 & rq & resp & -> & Hq & Hto & Hacc).
        exists ((Attempt i :: ev1) ++ Resolve h :: ev0), rq, resp.
        split; [rewrite <- !app_assoc; reflexivity|].
        rewrite <- Hw. auto.
      * intros [= <- <-]. exists (Attempt i :: ev1).
        split; [exact Htr|]. split; [exact Hwa|].
        split; [simpl; rewrite Haft; exact Hag|]. intros; discriminate.
Qed.

Lemma _SEND_addressed cfg method url data s r s' :
  _SEND cfg method url data s = (r, s') ->
  exists ev,
    trace s' = trace s ++ ev /\
    well_addressed (aggregator s) method
      (AGGREGATOR_APIROOT +:+ AGGREGATOR_APIVERSION cfg +:+ url) data ev /\
    aggregator s' = aggregator_after (aggregator s) ev /\
    (forall b, r = Ok b ->
       ends_accepted (world s) (requests_made s') ev (aggregator s') b).
Proof.
  intros Hrun.
  destruct (_SEND_unfold _ _ _ _ _ _ _ Hrun) as (s3 & pre & Htr3 & Hloop & Hpre).
  pose proof (_SEND_loop_spec _ _ _ _ _ None _ _ _ I Hloop) as ((_ & _ & _ & _ & _ & Hw3 & _) & _).
  pose proof (SEND_frame _ _ _ _ _ _ _ Hrun) as (_ & _ & _ & _ & _ & Hw & _).
  destruct (_SEND_loop_addressed _ _ _ _ _ None _ _ _ I Hloop)
    as (ev2 & Gtr & Gwa & Gag & Gend).
  exists (pre ++ ev2).
  split; [rewrite Gtr, Htr3, app_assoc; reflexivity|].
  destruct Hpre as [(_ & -> & ->)|(_ & ->)]; simpl.
  - split; [exact Gwa|]. split; [exact Gag|exact Gend].
  - split; [exact Gwa|]. split; [exact Gag|].
    intros b Hb. destruct (Gend b Hb) as (ev0 & rq & resp & -> & Hq & Hto & Hacc).
    exists (Resolve (aggregator s3) :: ev0), rq, resp.
    split; [reflexivity|]. rewrite <- Hw, Hw3. auto.
Qed.

(** X5.  Every request that a call of the send primitive issues, on the
    first attempt and on every retry, is the request it was asked to make:
    the same method, the URL [AGGREGATOR_APIROOT + AGGREGATOR_APIVERSION +
    url], the same data.  Each goes to the aggregator most recently
    resolved, or to the one held when the call began if none has been
    resolved since, and never to the empty URL; and the aggregator held
    when the call ends is the last one resolved. *)
Theorem requests_are_well_addressed cfg method url data s :
  let s' := (_SEND cfg method url data s).2 in
  exists ev,
    trace s' = trace s ++ ev /\
    well_addressed (aggregator s) method
      (AGGREGATOR_APIROOT +:+ AGGREGATOR_APIVERSION cfg +:+ url) data ev /\
    aggregator s' = aggregator_after (aggregator s) ev.
Proof.
  destruct (_SEND cfg method url data s) as [r s'] eqn:Hrun. simpl.
  destruct (_SEND_addressed _ _ _ _ _ _ _ Hrun) as (ev & H1 & H2 & H3 & _).
  exists ev. auto.
Qed.

(** X6.  When a call of the send primitive returns, the last thing it did
    was a request that was answered 200, 201 or 204.  For 200 and 201 with
    a content type that begins with [application/json], the body of that
    answer decoded and the value returned is the decoded body; for 200 and
    201 otherwise, a missing content type included, it is the raw content;
    for 204 it is nothing.  The aggregator that gave the answer is kept, is
    not the empty URL, and is the one [status] reports. *)
Theorem send_returns_accepted_response cfg method url data s b s' :
  _SEND cfg method url data s = (Ok b, s') ->
  exists ev0 rq resp,
    trace s' = trace s ++ ev0 ++ [Send rq] /\
    request (world s) (Nat.pred (requests_made s')) rq = Returns (Some resp) /\
    accepted resp b /\
    rq_aggregator rq = aggregator s' /\
    aggregator s' <> "" /\
    dict_get "api_href" (Aggregator.status cfg s') = Some (StatusStr (rq_aggregator rq)).
Proof.
  intros Hrun.
  destruct (_SEND_addressed _ _ _ _ _ _ _ Hrun) as (ev & Htr & _ & _ & Hend).
  destruct (Hend b eq_refl) as (ev0 & rq & resp & -> & Hq & Hto & Hacc).
  destruct (_SEND_spec _ _ _ _ _ _ _ Hrun)
    as (_ & _ & _ & ev' & _ & _ & _ & Hlvl & _).
  destruct (Hlvl eq_refl) as [_ Hne].
  exists ev0, rq, resp. split; [exact Htr|]. split; [exact Hq|].
  split; [exact Hacc|]. split; [exact Hto|]. split; [exact Hne|].
  simpl. rewrite Hto. reflexivity.
Qed.

(** X7.  In OAuth mode with a client attached, an [OAuth2Error] from the
    first request of a call leaves the local variable [R] unbound, and so
    does an [InvalidTokenError] followed by any exception from the request
    that is resent: the call then raises [UnboundLocalError] on the spot.
    It makes no further attempt and resolves no aggregator, the updater is
    not signalled, and in the second case the client has been dropped. *)
Theorem oauth_failure_on_first_attempt cfg method url data s :
  OAUTH_MODE cfg = true -> auth_client s = true -> aggregator s <> "" ->
  let rq := mkRequest method (aggregator s)
              (AGGREGATOR_APIROOT +:+ AGGREGATOR_APIVERSION cfg +:+ url) data true in
  let r := (_SEND cfg method url data s).1 in
  let s' := (_SEND cfg method url data s).2 in
  (request (world s) (requests_made s) rq = Throws OAuth2Error ->
   r = Raise UnboundLocalError /\
   trace s' = trace s ++ [Attempt 0; Send rq] /\
   _mdns_updater s' = _mdns_updater s /\ aggregator s' = aggregator s /\
   auth_client s' = true) /\
  (forall e,
     request (world s) (requests_made s) rq = Throws InvalidTokenError ->
     request (world s) (S (requests_made s)) rq = Throws e ->
     r = Raise UnboundLocalError /\
     trace s' = trace s ++ [Attempt 0; Send rq; Send rq] /\
     _mdns_updater s' = _mdns_updater s /\ aggregator s' = aggregator s /\
     auth_client s' = false).
Proof.
  intros Ho Hc Hagg rq r s'. subst r s'.
  apply String.eqb_neq in Hagg.
  split.
  - intros Hq.
    unfold _SEND. change (seq 0 3) with [0; 1; 2]%nat.
    unfold _SEND_loop, attempt, obtain_R, requests_request, fetch_auth_token. mstep.
    rewrite Hagg. msimp. rewrite Hagg. msimp.
    simpl. rewrite Ho, Hc. simpl. fold rq. rewrite Hq. simpl.
    rewrite <- app_assoc. auto.
  - intros e Hq1 Hq2.
    unfold _SEND. change (seq 0 3) with [0; 1; 2]%nat.
    unfold _SEND_loop, attempt, obtain_R, requests_request, fetch_auth_token. mstep.
    rewrite Hagg. msimp. rewrite Hagg. msimp.
    simpl. rewrite Ho, Hc. simpl. fold rq. rewrite Hq1. simpl.
    fold rq. rewrite Hq2. simpl.
    rewrite <- !app_assoc. auto.
Qed.

(** What an attempt does with an answer that it is to decode and that
    does not decode. *)
Lemma attempt_undecodable cfg method url data R s resp ct e :
  request (world s) (requests_made s)
    (mkRequest method (aggregator s) url data (OAUTH_MODE cfg && auth_client s)) =
    Returns (Some resp) ->
  (status_code resp =? 200) || (status_code resp =? 201) = true ->
  content_type resp = Some ct -> String.prefix "application/json" ct = true ->
  json resp = Undecodable e ->
  attempt cfg method url data R s =
  (match e with
   | RequestException => Ok (Continue (Some (Some resp)))
   | _ => Raise (Lib e)
   end,
   set_requests_made (S (requests_made s))
     (set_trace
        (trace s ++
           [Send (mkRequest method (aggregator s) url data
                    (OAUTH_MODE cfg && auth_client s))]) s)).
Proof.
  intros Hq Hst Hct Hpre Hj.
  unfold attempt, dispatch, except_RequestException, obtain_R, requests_request. mstep.
  destruct (OAUTH_MODE cfg), (auth_client s); simpl in *;
    rewrite Hq; simpl; rewrite Hst, Hct, Hpre, Hj; destruct e; reflexivity.
Qed.

(** X25.  An answer 200 or 201 whose content type begins with
    [application/json] and whose body does not decode never makes the call
    return.  When the decoding raises a [RequestException], the first
    attempt falls through as after a transport failure: the call resolves
    an aggregator afresh and goes on with the two attempts that are left,
    the updater not having been signalled.  When it raises anything else,
    the exception leaves the call at once: no retry, no resolution, and the
    updater is not signalled. *)
Theorem undecodable_answer cfg method url data s resp ct e :
  aggregator s <> "" ->
  let url' := AGGREGATOR_APIROOT +:+ AGGREGATOR_APIVERSION cfg +:+ url in
  let rq := mkRequest method (aggregator s) url' data
              (OAUTH_MODE cfg && auth_client s) in
  request (world s) (requests_made s) rq = Returns (Some resp) ->
  status_code resp = 200 \/ status_code resp = 201 ->
  content_type resp = Some ct -> String.prefix "application/json" ct = true ->
  json resp = Undecodable e ->
  (e = RequestException ->
   exists h s1,
     trace s1 = trace s ++ [Attempt 0; Send rq; Resolve h] /\
     aggregator s1 = h /\
     requests_made s1 = S (requests_made s) /\
     _mdns_updater s1 = _mdns_updater s /\
     _SEND cfg method url data s =
       _SEND_loop cfg [1; 2]%nat method url' data (Some (Some resp)) s1) /\
  (e <> RequestException ->
   _SEND cfg method url data s =
     (Raise (Lib e),
      set_requests_made (S (requests_made s))
        (set_trace (trace s ++ [Attempt 0; Send rq]) s))).
Proof.
  intros Hagg url' rq Hq Hst Hct Hpre Hj.
  assert (Hst' : (status_code resp =? 200) || (status_code resp =? 201) = true)
    by (destruct Hst as [-> | ->]; reflexivity).
  apply String.eqb_neq in Hagg.
  assert (Hsend : _SEND cfg method url data s =
                  _SEND_loop cfg [0; 1; 2]%nat method url' data None s).
  { unfold _SEND. mstep. rewrite Hagg. reflexivity. }
  pose proof (attempt_undecodable cfg method url' data None
                (set_trace (trace s ++ [Attempt 0]) s) resp ct e Hq Hst' Hct Hpre Hj)
    as Hatt.
  rewrite Hsend. cbn [_SEND_loop]. mstep. rewrite Hagg. msimp.
  rewrite Hatt. clear Hatt. simpl. rewrite <- app_assoc. simpl. fold rq.
  split.
  - intros ->. msimp.
    match goal with
    | |- context [_get_api_href cfg ?st] => set (sq := st)
    end.
    destruct (_get_api_href cfg sq) as [rh s2] eqn:Hhref.
    apply _get_api_href_spec in Hhref. destruct Hhref as (h & k & -> & ->).
    msimp.
    exists h, (set_aggregator h (set_trace (trace sq ++ [Resolve h]) (set_href_calls k sq))).
    split; [|split; [|split; [|split]]]; try reflexivity.
    simpl. rewrite <- app_assoc. reflexivity.
  - intros Hne. destruct e; try reflexivity. contradiction.
Qed.
(** ** The mirror: what the application calls store and remove *)

Lemma set_entities_id s : set_entities (entities s) s = s.
Proof. destruct s; reflexivity. Qed.

Lemma dict_mem_set_eq {V : Type} (k : string) (v : V) (d : Dict V) :
  dict_mem k (dict_set k v d) = true.
Proof. unfold dict_mem. rewrite dict_get_set_eq. reflexivity. Qed.

Lemma dict_mem_set_keep {V : Type} (k k' : string) (v : V) (d : Dict V) :
  dict_mem k' d = true -> dict_mem k' (dict_set k v d) = true.
Proof.
  destruct (decide (k' = k)) as [->|Hne]; [intros _; apply dict_mem_set_eq|].
  unfold dict_mem. rewrite dict_get_set_ne by exact Hne. tauto.
Qed.

(** Looking an entity up after the dictionary of one namespace has been
    replaced. *)
Lemma mirror_get_set ns (nsd' : Dict (Dict Envelope)) all ns' T' k' :
  mirror_get ns' T' k' (dict_set ns nsd' all) =
  if decide (ns' = ns) then td ← dict_get T' nsd'; dict_get k' td
  else mirror_get ns' T' k' all.
Proof.
  unfold mirror_get. destruct (decide (ns' = ns)) as [->|Hne].
  - rewrite dict_get_set_eq. reflexivity.
  - rewrite dict_get_set_ne by exact Hne. reflexivity.
Qed.

(** Replacing the dictionary of one type of one namespace changes the
    entities of that type and namespace only. *)
Lemma mirror_get_update ns T (X : Dict Envelope) nsd all ns' T' k' :
  dict_get ns all = Some nsd ->
  mirror_get ns' T' k' (dict_set ns (dict_set T X nsd) all) =
  if decide ((ns', T') = (ns, T)) then dict_get k' X else mirror_get ns' T' k' all.
Proof.
  intros Hns. rewrite mirror_get_set.
  destruct (decide (ns' = ns)) as [->|Hn].
  - destruct (decide (T' = T)) as [->|Ht].
    + rewrite dict_get_set_eq. simpl.
      destruct (decide ((ns, T) = (ns, T))); [reflexivity|congruence].
    + rewrite dict_get_set_ne by exact Ht.
      destruct (decide ((ns, T') = (ns, T))); [congruence|].
      unfold mirror_get. rewrite Hns. reflexivity.
  - destruct (decide ((ns', T') = (ns, T))); [congruence|reflexivity].
Qed.

(** [_add_mirror_keys] provides the two dictionaries and changes nothing
    else: no entity appears or disappears. *)
Lemma _add_mirror_keys_exact namespace res_type s :
  exists s1 nsd td,
    _add_mirror_keys namespace res_type s = (Ok tt, s1) /\
    s1 = set_entities (entities s1) s /\
    dict_get namespace (entities s1) = Some nsd /\
    dict_get res_type nsd = Some td /\
    (forall k, dict_get k td = mirror_get namespace res_type k (entities s)) /\
    (forall ns T k, mirror_get ns T k (entities s1) = mirror_get ns T k (entities s)) /\
    (forall ns, dict_mem ns (entities s) = true -> dict_mem ns (entities s1) = true) /\
    (has_bucket namespace res_type (entities s) -> s1 = s).
Proof.
  unfold _add_mirror_keys, subscript, dict_mem. mstep.
  destruct (dict_get namespace (entities s)) as [nsd|] eqn:Hns;
    repeat (progress (rewrite ?Hns; msimp)).
  - destruct (dict_get res_type nsd) as [td|] eqn:HT; msimp.
    + exists s, nsd, td. split; [reflexivity|].
      split; [symmetry; apply set_entities_id|].
      split; [exact Hns|]. split; [exact HT|].
      split; [intros k; unfold mirror_get; rewrite Hns; simpl; rewrite HT; reflexivity|].
      split; [reflexivity|]. split; [tauto|reflexivity].
    + eexists _, _, []. split; [reflexivity|]. simpl.
      split; [reflexivity|].
      split; [apply dict_get_set_eq|]. split; [apply dict_get_set_eq|].
      split; [intros k; unfold mirror_get; rewrite Hns; simpl; rewrite HT; reflexivity|].
      split; [|split].
      * intros ns T k. rewrite (mirror_get_update _ _ _ _ _ _ _ _ Hns).
        destruct (decide ((ns, T) = (namespace, res_type))) as [[= -> ->]|_];
          [|reflexivity].
        unfold mirror_get. rewrite Hns. simpl. rewrite HT. reflexivity.
      * intros ns Hmem. apply (dict_mem_set_keep namespace ns). exact Hmem.
      * intros (nsd0 & td0 & Hn0 & Ht0). congruence.
  - change (entities (set_entities (dict_set namespace [] (entities s)) s))
      with (dict_set namespace [] (entities s)).
    rewrite dict_get_set_eq. msimp.
    change (dict_get res_type []) with (@None (Dict Envelope)). msimp.
    eexists _, _, []. split; [reflexivity|]. simpl.
    split; [reflexivity|].
    split; [apply dict_get_set_eq|].
    split; [simpl; rewrite String.eqb_refl; reflexivity|].
    split; [intros k; unfold mirror_get; rewrite Hns; reflexivity|].
    split; [|split].
    + intros ns T k. rewrite !mirror_get_set.
      destruct (decide (ns = namespace)) as [->|Hne]; [|reflexivity].
      unfold mirror_get. rewrite Hns. simpl.
      destruct (String.eqb T res_type); reflexivity.
    + intros ns Hmem. apply (dict_mem_set_keep namespace ns).
      apply (dict_mem_set_keep namespace ns). exact Hmem.
    + intros (nsd0 & td0 & Hn0 & Ht0). congruence.
Qed.

(** The payload that [register_into] stores always has an ["id"]: the
    caller's, or else the key. *)
Lemma payload_id key (kwargs : Dict string) :
  let data := if dict_mem "id" kwargs then kwargs else dict_set "id" key kwargs in
  dict_get "id" data = Some (default key (dict_get "id" kwargs)) /\
  (forall f, f <> "id" -> dict_get f data = dict_get f kwargs).
Proof.
  unfold dict_mem. destruct (dict_get "id" kwargs) as [i|] eqn:Hid; simpl.
  - auto.
  - split; [apply dict_get_set_eq|]. intros f Hf. apply dict_get_set_ne. exact Hf.
Qed.

Lemma not_node_eqb namespace res_type :
  (namespace, res_type) <> ("resource", "node") ->
  String.eqb namespace "resource" && String.eqb res_type "node" = false.
Proof.
  intros Hne. apply andb_false_iff.
  destruct (String.eqb_spec namespace "resource") as [->|]; [|auto].
  destruct (String.eqb_spec res_type "node") as [->|]; [|auto].
  congruence.
Qed.

(** [register_into] for anything but the node, field by field. *)
Lemma register_into_entity cfg namespace res_type key kwargs s :
  (namespace, res_type) <> ("resource", "node") ->
  let data := if dict_mem "id" kwargs then kwargs else dict_set "id" key kwargs in
  exists E,
    register_into cfg namespace res_type key kwargs s =
      (Ok tt,
       set_reg_queue (_reg_queue s ++ [mkIntent "POST" namespace res_type key])
         (set_entities E s)) /\
    (forall ns T k,
       mirror_get ns T k E =
       if decide ((ns, T, k) = (namespace, res_type, key))
       then Some (mkEnvelope res_type data)
       else mirror_get ns T k (entities s)) /\
    (forall ns, dict_mem ns (entities s) = true -> dict_mem ns E = true) /\
    has_bucket namespace res_type E.
Proof.
  intros Hne data.
  destruct (_add_mirror_keys_exact namespace res_type s)
    as (s1 & nsd & td & Hadd & Hs1 & Hns & HT & Htd & Hget & Hkeep & _).
  unfold register_into, _queue_request, subscript. mstep.
  rewrite (not_node_eqb _ _ Hne). msimp. rewrite Hadd. msimp.
  repeat (progress (rewrite ?Hns, ?HT; msimp)).
  assert (Hse : forall X, set_entities X s1 = set_entities X s)
    by (intros X; rewrite Hs1; reflexivity).
  eexists. split.
  - rewrite Hse. reflexivity.
  - split; [|split].
    + intros ns T k. rewrite (mirror_get_update _ _ _ _ _ _ _ _ Hns).
      destruct (decide ((ns, T) = (namespace, res_type))) as [[= -> ->]|Hn].
      * destruct (decide (k = key)) as [->|Hk].
        -- rewrite dict_get_set_eq.
           destruct (decide (_ = _)); [reflexivity|congruence].
        -- rewrite dict_get_set_ne by exact Hk.
           destruct (decide (_ = _)); [congruence|]. apply Htd.
      * destruct (decide (_ = _)); [congruence|]. apply Hget.
    + intros ns Hmem. apply (dict_mem_set_keep namespace ns). apply Hkeep, Hmem.
    + apply has_bucket_new.
Qed.

(** X8.  [register_into], for anything but the node, never raises,
    whatever the state of the mirror: it creates the dictionaries that are
    missing, stores under the key an envelope with the given type and the
    keyword arguments, whose ["id"] is the caller's when there is one and
    the key otherwise, leaves every other entity as it was, and puts
    exactly one POST intent for the key at the end of the queue.  It sends
    nothing and does not touch the node or the flag. *)
Theorem register_into_stores cfg namespace res_type key kwargs s :
  (namespace, res_type) <> ("resource", "node") ->
  let s' := (register_into cfg namespace res_type key kwargs s).2 in
  register_into cfg namespace res_type key kwargs s = (Ok tt, s') /\
  (exists e,
     mirror_get namespace res_type key (entities s') = Some e /\
     env_type e = res_type /\
     dict_get "id" (env_data e) = Some (default key (dict_get "id" kwargs)) /\
     (forall f, f <> "id" -> dict_get f (env_data e) = dict_get f kwargs)) /\
  (forall ns T k,
     (ns, T, k) <> (namespace, res_type, key) ->
     mirror_get ns T k (entities s') = mirror_get ns T k (entities s)) /\
  _reg_queue s' = _reg_queue s ++ [mkIntent "POST" namespace res_type key] /\
  node s' = node s /\ registered s' = registered s /\ trace s' = trace s /\
  _mdns_updater s' = _mdns_updater s.
Proof.
  intros Hne. destruct (register_into_entity cfg namespace res_type key kwargs s Hne)
    as (E & -> & Hget & _). simpl.
  split; [reflexivity|]. split; [|split].
  - eexists. split.
    + rewrite Hget. destruct (decide (_ = _)); [reflexivity|congruence].
    + split; [reflexivity|]. apply payload_id.
  - intros ns T k Hother. rewrite Hget.
    destruct (decide (_ = _)); [congruence|reflexivity].
  - auto 10.
Qed.

(** [unregister_from] for anything but the node, when the namespace is
    there. *)
Lemma unregister_from_entity namespace res_type key s nsd :
  (namespace, res_type) <> ("resource", "node") ->
  dict_get namespace (entities s) = Some nsd ->
  exists E,
    unregister_from namespace res_type key s =
      (Ok tt,
       set_reg_queue (_reg_queue s ++ [mkIntent "DELETE" namespace res_type key])
         (set_entities E s)) /\
    (E = entities s \/ E = mirror_del namespace res_type key (entities s)) /\
    (forall ns T k,
       mirror_get ns T k E =
       if decide ((ns, T, k) = (namespace, res_type, key))
       then None else mirror_get ns T k (entities s)).
Proof.
  intros Hne Hns.
  unfold unregister_from, _queue_request, del_entity, subscript. mstep.
  rewrite (not_node_eqb _ _ Hne). msimp.
  repeat (progress (rewrite ?Hns; msimp)).
  unfold dict_mem at 1.
  destruct (dict_get res_type nsd) as [td|] eqn:HT; msimp.
  - destruct (_add_mirror_keys_exact namespace res_type s)
      as (s1 & nsd1 & td1 & Hadd & _ & _ & _ & _ & _ & _ & Hsame).
    rewrite Hsame in Hadd by (exists nsd, td; auto).
    rewrite Hadd. msimp.
    repeat (progress (rewrite ?Hns, ?HT; msimp)).
    unfold dict_mem.
    destruct (dict_get key td) as [e|] eqn:Hk; msimp.
    + repeat (progress (rewrite ?Hns, ?HT, ?Hk; msimp)).
      exists (mirror_del namespace res_type key (entities s)).
      split; [unfold mirror_del; rewrite Hns, HT; reflexivity|].
      split; [right; reflexivity|].
      intros ns T k. destruct (decide (_ = _)) as [[= -> -> ->]|Hother].
      * apply mirror_get_del_eq.
      * apply mirror_get_del_ne. exact Hother.
    + exists (entities s). rewrite set_entities_id.
      split; [reflexivity|]. split; [left; reflexivity|].
      intros ns T k. destruct (decide (_ = _)) as [[= -> -> ->]|Hother]; [|reflexivity].
      unfold mirror_get. rewrite Hns. simpl. rewrite HT. exact Hk.
  - exists (entities s). rewrite set_entities_id.
    split; [reflexivity|]. split; [left; reflexivity|].
    intros ns T k. destruct (decide (_ = _)) as [[= -> -> ->]|Hother]; [|reflexivity].
    unfold mirror_get. rewrite Hns. simpl. rewrite HT. reflexivity.
Qed.

(** X9.  [unregister_from], for anything but the node: when the mirror
    has the namespace, the call returns, the key is no longer in the
    mirror whether or not it was there, every other entity is as it was,
    and exactly one DELETE intent for the key is at the end of the queue;
    when the mirror does not have the namespace, the call raises
    [KeyError] and changes nothing, so no DELETE is queued. *)
Theorem unregister_from_removes namespace res_type key s :
  (namespace, res_type) <> ("resource", "node") ->
  let s' := (unregister_from namespace res_type key s).2 in
  (dict_mem namespace (entities s) = true ->
   unregister_from namespace res_type key s = (Ok tt, s') /\
   mirror_get namespace res_type key (entities s') = None /\
   (forall ns T k,
      (ns, T, k) <> (namespace, res_type, key) ->
      mirror_get ns T k (entities s') = mirror_get ns T k (entities s)) /\
   _reg_queue s' = _reg_queue s ++ [mkIntent "DELETE" namespace res_type key] /\
   node s' = node s /\ registered s' = registered s /\ trace s' = trace s) /\
  (dict_mem namespace (entities s) = false ->
   unregister_from namespace res_type key s = (Raise KeyError, s)).
Proof.
  intros Hne. split.
  - unfold dict_mem. destruct (dict_get namespace (entities s)) as [nsd|] eqn:Hns;
      [intros _|discriminate].
    destruct (unregister_from_entity namespace res_type key s nsd Hne Hns)
      as (E & -> & _ & Hget). simpl.
    split; [reflexivity|]. split; [|split].
    + rewrite Hget. destruct (decide (_ = _)); [reflexivity|congruence].
    + intros ns T k Hother. rewrite Hget.
      destruct (decide (_ = _)); [congruence|reflexivity].
    + auto.
  - unfold dict_mem. destruct (dict_get namespace (entities s)) as [nsd|] eqn:Hns;
      [discriminate|intros _].
    unfold unregister_from, subscript. mstep.
    rewrite (not_node_eqb _ _ Hne). msimp. rewrite Hns. reflexivity.
Qed.

(** *** What the steps of the proxy do to the envelopes *)

(** The handling of a dequeued intent leaves the node alone, and the
    mirror too unless it deletes the entity the intent names. *)
Lemma process_item_envelopes cfg item s :
  let s' := (process_item cfg item s).2 in
  node s' = node s /\
  (entities s' = entities s \/
   entities s' =
     mirror_del (namespace item) (res_type item) (key item) (entities s)).
Proof.
  unfold process_item, node_id, del_entity, subscript. mstep.
  repeat (case_match; msimp).
  all: repeat match goal with
       | H : _SEND _ _ _ _ _ = _ |- _ =>
           apply SEND_frame in H; destruct H as (? & _ & ? & _)
       end.
  all: simplify_eq; simpl in *.
  all: split; [unfold on_updater; repeat case_match; simpl; congruence|].
  all: try (left; unfold on_updater; repeat case_match; simpl; congruence).
  match goal with
  | He : entities ?s3 = entities ?s2,
    Hn : dict_get _ (entities ?s2) = Some ?nsd,
    Ht : dict_get _ ?nsd = Some ?td,
    Hm : dict_mem _ ?td = true |- _ =>
      rewrite He, Hn; msimp; rewrite Ht; msimp; rewrite Hm; msimp;
      right; unfold mirror_del; simpl; rewrite ?He, Hn, Ht; reflexivity
  end.
Qed.

Lemma _process_queue_body_envelopes cfg s :
  let s' := (_process_queue_body cfg s).2 in
  node s' = node s /\
  (entities s' = entities s \/
   exists item, entities s' =
     mirror_del (namespace item) (res_type item) (key item) (entities s)).
Proof.
  unfold _process_queue_body. mstep.
  destruct (_reg_queue s) as [|item rest]; msimp; [auto|].
  destruct (registered s); msimp; [|auto].
  pose proof (process_item_envelopes cfg item (set_reg_queue rest s)) as [Hn He].
  destruct (process_item cfg item (set_reg_queue rest s)) as [[[]|ex] s1]; simpl in *.
  - split; [exact Hn|]. destruct He as [He|He]; [left|right; exists item]; exact He.
  - destruct (on_updater_frame MDNSUpdater.P2P_disable (set_registered false s1))
      as (Hn' & _ & He' & _). simpl in Hn', He'.
    rewrite Hn', He'. split; [exact Hn|].
    destruct He as [He|He]; [left|right; exists item]; exact He.
Qed.

Lemma _heartbeat_body_node cfg s : node (_heartbeat_body cfg s).2 = node s.
Proof.
  destruct (registered s) eqn:Hreg.
  - unfold _heartbeat_body, node_id. mstep. rewrite Hreg. msimp.
    repeat (case_match; msimp).
    all: repeat match goal with
         | H : _SEND _ _ _ _ _ = _ |- _ =>
             apply SEND_frame in H; destruct H as (? & _)
         end.
    all: simplify_eq; simpl in *.
    all: unfold on_updater; repeat case_match; simpl; congruence.
  - rewrite (_heartbeat_body_unregistered cfg s Hreg).
    destruct (_process_reregister_run cfg s) as (s' & -> & Hrun). simpl.
    inversion Hrun as
      [ Hn Heq | e Hn Hid Heq | e id rd sd Hn Hid Hdel Hab Heq
      | e id rd sd rp sp Hn Hid Hdel Hab Hpost Hok Heq
      | e id rd sd rp sp rh sh Hn Hid Hdel Hab Hpost Hok Hh Hokh Heq
      | e id rd sd rp sp rh sh Hn Hid Hdel Hab Hpost Hok Hh Hokh Heq ].
    all: repeat match goal with
         | H : _SEND _ _ _ _ _ = _ |- _ =>
             apply SEND_frame in H; destruct H as (? & _)
         end.
    all: unfold after_walk, before_node_post, on_updater in *.
    all: repeat case_match; simpl in *; congruence.
Qed.

Lemma mirror_step_same s s' :
  node s' = node s -> entities s' = entities s -> mirror_step s s'.
Proof. intros Hn He. unfold mirror_step. rewrite Hn, He. auto. Qed.

Lemma mirror_step_del ns T k s s' :
  node s' = node s -> entities s' = mirror_del ns T k (entities s) ->
  mirror_step s s'.
Proof.
  intros Hn He. unfold mirror_step. rewrite Hn, He. split; [|split; [auto|]].
  - intros ns0 Hmem. unfold mirror_del.
    destruct (dict_get ns (entities s)) as [nsd|]; [|exact Hmem].
    destruct (dict_get T nsd) as [td|]; [|exact Hmem].
    apply dict_mem_set_keep. exact Hmem.
  - intros ns0 T0 k0 e Hget. left.
    destruct (decide ((ns0, T0, k0) = (ns, T, k))) as [[= -> -> ->]|Hother].
    + rewrite mirror_get_del_eq in Hget. discriminate.
    + rewrite mirror_get_del_ne in Hget by exact Hother. exact Hget.
Qed.

(** Every step of the proxy keeps the namespaces and adds none but well
    formed envelopes. *)
Lemma proxy_step_mirror cfg s l s' : proxy_step cfg s l s' -> mirror_step s s'.
Proof.
  intros Hstep. destruct Hstep as [Hon| |ns T k kw|ns T k|].
  - apply mirror_step_same; [apply _heartbeat_body_node|].
    apply (_heartbeat_body_mirror cfg s).
  - destruct (_process_queue_body_envelopes cfg s) as [Hn [He|[item He]]].
    + apply mirror_step_same; assumption.
    + eapply mirror_step_del; eassumption.
  - destruct (decide ((ns, T) = ("resource", "node"))) as [[= -> ->]|Hne].
    + (* the node *)
      unfold register_into, register_auth_client, _queue_request. mstep.
      change (String.eqb "resource" "resource" && String.eqb "node" "node") with true.
      msimp.
      assert (Hok : envelope_ok "node"
                (mkEnvelope "node"
                   (if dict_mem "id" kw then kw else dict_set "id" k kw))).
      { split; [reflexivity|]. simpl.
        destruct (dict_mem "id" kw) eqn:Hm; [exact Hm|apply dict_mem_set_eq]. }
      destruct (OAUTH_MODE cfg); msimp.
      * destruct (auth_dance _ _) as [[ex|] client]; simpl.
        all: split; [tauto|]; split; [|auto].
        all: intros e [= <-]; right; exact Hok.
      * simpl. split; [tauto|]. split; [|auto].
        intros e [= <-]. right. exact Hok.
    + destruct (register_into_entity cfg ns T k kw s Hne) as (E & -> & Hget & Hkeep & _).
      simpl. split; [exact Hkeep|]. split; [auto|].
      intros ns0 T0 k0 e. rewrite Hget.
      destruct (decide (_ = _)) as [[= -> -> ->]|_]; [|auto].
      intros [= <-]. right. split; [reflexivity|]. simpl.
      destruct (dict_mem "id" kw) eqn:Hm; [exact Hm|apply dict_mem_set_eq].
  - destruct (decide ((ns, T) = ("resource", "node"))) as [[= -> ->]|Hne].
    + unfold unregister_from, _queue_request. mstep.
      change (String.eqb "resource" "resource" && String.eqb "node" "node") with true.
      msimp. simpl. split; [tauto|]. split; [discriminate|auto].
    + destruct (dict_get ns (entities s)) as [nsd|] eqn:Hns.
      * destruct (unregister_from_entity ns T k s nsd Hne Hns) as (E & -> & [->| ->] & _).
        -- apply mirror_step_same; reflexivity.
        -- eapply mirror_step_del; reflexivity.
      * assert (Hraise : unregister_from ns T k s = (Raise KeyError, s)).
        { unfold unregister_from, subscript. mstep.
          rewrite (not_node_eqb _ _ Hne). msimp. rewrite Hns. reflexivity. }
        rewrite Hraise. apply mirror_step_same; reflexivity.
  - apply mirror_step_same; reflexivity.
Qed.

Lemma mirror_ok_step s s' : mirror_ok s -> mirror_step s s' -> mirror_ok s'.
Proof.
  intros (Hres & Hnode & Hent) (Skeep & Snode & Sent).
  split; [apply Skeep, Hres|]. split.
  - intros e He. destruct (Snode e He) as [Hold|Hok]; [exact (Hnode e Hold)|exact Hok].
  - intros ns T k e He.
    destruct (Sent ns T k e He) as [Hold|Hok]; [exact (Hent _ _ _ _ Hold)|exact Hok].
Qed.

Lemma proxy_run_mirror_ok cfg s ls s' :
  proxy_run cfg s ls s' -> mirror_ok s -> mirror_ok s'.
Proof.
  induction 1 as [s|s l s1 ls s2 Hstep Hrun IH]; intros Hok; [exact Hok|].
  apply IH. eapply mirror_ok_step; [exact Hok|]. eapply proxy_step_mirror, Hstep.
Qed.

Lemma __init___mirror_ok mdns_updater w : mirror_ok (__init__ mdns_updater w).
Proof.
  split; [reflexivity|]. split; [discriminate|].
  intros ns T k e. unfold mirror_get. simpl.
  destruct (String.eqb ns "resource"); discriminate.
Qed.

(** X10.  In every state that the proxy reaches from its construction, by
    whatever turns of the heartbeat loop and of the worker and whatever
    calls of the application, every envelope it holds is well formed: the
    node, when there is one, has type [node] and an ["id"], so that
    reading the node's id succeeds; and every entity of the mirror has the
    type under which it is filed and an ["id"]. *)
Theorem held_envelopes_have_ids cfg mdns_updater w ls s :
  proxy_run cfg (__init__ mdns_updater w) ls s ->
  (forall e, node s = Some e ->
     env_type e = "node" /\ exists id, node_id s = (Ok id, s)) /\
  (forall ns T k e,
     mirror_get ns T k (entities s) = Some e ->
     env_type e = T /\ exists id, dict_get "id" (env_data e) = Some id).
Proof.
  intros Hrun.
  destruct (proxy_run_mirror_ok _ _ _ _ Hrun (__init___mirror_ok mdns_updater w))
    as (_ & Hnode & Hent).
  split.
  - intros e He. destruct (Hnode e He) as [Ht Hid]. split; [exact Ht|].
    unfold node_id. mstep. rewrite He. unfold dict_mem in Hid.
    destruct (dict_get "id" (env_data e)) as [id|]; [|discriminate].
    exists id. reflexivity.
  - intros ns T k e He. destruct (Hent ns T k e He) as [Ht Hid]. split; [exact Ht|].
    unfold dict_mem in Hid.
    destruct (dict_get "id" (env_data e)) as [id|]; [|discriminate].
    exists id. reflexivity.
Qed.

(** X11.  In every state that the proxy reaches from its construction
    the mirror still has its [resource] namespace, so [unregister] never
    raises: for the node it forgets the node, for any other type it leaves
    the key out of the mirror, and in both cases it puts exactly one
    DELETE intent at the end of the queue and sends nothing. *)
Theorem unregister_always_queues_delete cfg mdns_updater w ls s res_type key :
  proxy_run cfg (__init__ mdns_updater w) ls s ->
  let s' := (unregister res_type key s).2 in
  unregister res_type key s = (Ok tt, s') /\
  _reg_queue s' = _reg_queue s ++ [mkIntent "DELETE" "resource" res_type key] /\
  (if String.eqb res_type "node" then node s' = None /\ entities s' = entities s
   else node s' = node s /\
        mirror_get "resource" res_type key (entities s') = None) /\
  registered s' = registered s /\ trace s' = trace s.
Proof.
  intros Hrun.
  destruct (proxy_run_mirror_ok _ _ _ _ Hrun (__init___mirror_ok mdns_updater w))
    as (Hres & _ & _).
  unfold unregister.
  destruct (String.eqb_spec res_type "node") as [->|HT].
  - unfold unregister_from, _queue_request. mstep.
    change (String.eqb "resource" "resource" && String.eqb "node" "node") with true.
    msimp. simpl. auto 10.
  - assert (Hne : ("resource", res_type) <> ("resource", "node")) by congruence.
    unfold dict_mem in Hres.
    destruct (dict_get "resource" (entities s)) as [nsd|] eqn:Hns; [|discriminate].
    destruct (unregister_from_entity "resource" res_type key s nsd Hne Hns)
      as (E & -> & _ & Hget). simpl.
    split; [reflexivity|]. split; [reflexivity|]. split; [|auto].
    split; [reflexivity|]. rewrite Hget.
    destruct (decide (_ = _)); [reflexivity|congruence].
Qed.

(** ** The queue worker: its loop, DELETE intents, intents overtaken *)

(** A turn of the worker on a registered proxy takes exactly the head of
    the queue, and ends normally. *)
Lemma _process_queue_body_takes cfg s item rest :
  registered s = true -> _reg_queue s = item :: rest ->
  let s1 := (_process_queue_body cfg s).2 in
  _process_queue_body cfg s = (Ok tt, s1) /\
  _reg_queue s1 = rest /\ _running s1 = _running s.
Proof.
  intros Hreg Hq. pose proof (_process_queue_body_running cfg s) as Hrun.
  rewrite (_process_queue_body_item _ _ _ _ Hreg Hq) in *.
  pose proof (process_item_mirror cfg item (set_reg_queue rest s)) as [Hpq _].
  destruct (process_item cfg item (set_reg_queue rest s)) as [[[]|ex] s1]; simpl in *.
  - auto.
  - split; [reflexivity|]. split; [|exact Hrun].
    destruct (on_updater_frame MDNSUpdater.P2P_disable (set_registered false s1))
      as (_ & _ & _ & _ & -> & _). exact Hpq.
Qed.

Lemma _process_queue_body_idle cfg s :
  registered s = false \/ _reg_queue s = [] ->
  _process_queue_body cfg s = (Ok tt, s).
Proof.
  intros Hidle. unfold _process_queue_body. mstep.
  destruct (_reg_queue s) as [|item rest]; [reflexivity|].
  destruct Hidle as [->|Hq]; [reflexivity|discriminate].
Qed.

Lemma _process_queue_idle cfg s fuel :
  registered s = false \/ _reg_queue s = [] ->
  _process_queue cfg fuel s = (Ok tt, s).
Proof.
  intros Hidle. induction fuel as [|fuel IH]; [reflexivity|].
  simpl. mstep. destruct (_ || _); [|reflexivity].
  rewrite (_process_queue_body_idle cfg s Hidle). exact IH.
Qed.

(** Once stopped, the worker needs no more turns than there are intents
    on the queue. *)
Lemma _process_queue_drains cfg (n : nat) :
  forall s,
    _running s = false -> (length (_reg_queue s) <= n)%nat ->
    let s' := (_process_queue cfg n s).2 in
    (forall extra, _process_queue cfg (n + extra) s = (Ok tt, s')) /\
    (registered s' = false \/ _reg_queue s' = []) /\
    _running s' = false /\
    exists taken, _reg_queue s = taken ++ _reg_queue s'.
Proof.
  induction n as [|n IH]; intros s Hoff Hlen.
  - assert (Hq : _reg_queue s = []) by (destruct (_reg_queue s); [reflexivity|simpl in Hlen; lia]).
    simpl. split; [|split; [auto|split; [exact Hoff|exists []; reflexivity]]].
    intros extra. apply _process_queue_idle. auto.
  - destruct (registered s) eqn:Hreg.
    2:{ cbv zeta. rewrite _process_queue_idle by auto. cbn [snd].
        split; [intros extra; apply _process_queue_idle; auto|].
        split; [auto|]. split; [exact Hoff|exists []; reflexivity]. }
    destruct (_reg_queue s) as [|item rest] eqn:Hq.
    { cbv zeta. rewrite _process_queue_idle by auto. cbn [snd].
      split; [intros extra; apply _process_queue_idle; auto|].
      split; [auto|]. split; [exact Hoff|exists []; auto]. }
    destruct (_process_queue_body_takes cfg s item rest Hreg Hq) as (Hbody & Hq1 & Hr1).
    set (s1 := (_process_queue_body cfg s).2) in *.
    assert (Hstep : forall k, _process_queue cfg (S k) s = _process_queue cfg k s1).
    { intros k. simpl. mstep. rewrite Hoff, Hreg, Hq. msimp.
      rewrite bool_decide_eq_false_2 by discriminate. msimp.
      fold (_process_queue_body cfg s). rewrite Hbody. reflexivity. }
    destruct (IH s1) as (I1 & I2 & I3 & taken & I4).
    + rewrite Hr1. exact Hoff.
    + rewrite Hq1. simpl in Hlen. lia.
    + cbv zeta. rewrite Hstep. split; [|split; [exact I2|split; [exact I3|]]].
      * intros extra. change (S n + extra)%nat with (S (n + extra)).
        rewrite Hstep. apply I1.
      * exists (item :: taken). simpl. rewrite <- I4, Hq1. reflexivity.
Qed.

(** X12.  The worker loop sends nothing and leaves the whole state as it
    is, however long it runs, while the proxy is not registered or the
    queue is empty.  After [stop], on a registered proxy, it goes on
    taking one intent per turn from the head of the queue, and leaves the
    loop after at most as many turns as there were intents, with the queue
    empty or the proxy no longer registered; further turns change
    nothing. *)
Theorem worker_idles_and_drains cfg s :
  (registered s = false \/ _reg_queue s = [] ->
   forall fuel, _process_queue cfg fuel s = (Ok tt, s)) /\
  (_running s = false ->
   let n := length (_reg_queue s) in
   let s' := (_process_queue cfg n s).2 in
   (forall extra, _process_queue cfg (n + extra) s = (Ok tt, s')) /\
   (registered s' = false \/ _reg_queue s' = []) /\
   _running s' = false /\
   exists taken, _reg_queue s = taken ++ _reg_queue s').
Proof.
  split.
  - intros Hidle fuel. apply _process_queue_idle. exact Hidle.
  - intros Hoff. apply _process_queue_drains; [exact Hoff|lia].
Qed.

(** X13.  A worker turn on a DELETE intent sends a DELETE, without data,
    to [/<namespace>/<res_type>s/<key>] under the API root and version.
    When the call returns or the registry answers 4xx, the intent is gone
    and nothing else has changed: the proxy stays registered and the
    mirror and the node are as they were.  The turn never touches the
    mirror or the node, whatever the call ends in. *)
Theorem worker_delete_intent cfg s item rest :
  registered s = true -> _reg_queue s = item :: rest ->
  method item = "DELETE" -> aggregator s <> "" ->
  let url := "/" +:+ namespace item +:+ "/" +:+ (res_type item +:+ "s") +:+ "/" +:+
             key item in
  let s' := (_process_queue_body cfg s).2 in
  _process_queue_body cfg s = (Ok tt, s') /\
  (exists more,
     trace s' =
     trace s ++
       Attempt 0 ::
       Send (mkRequest "DELETE" (aggregator s)
               (AGGREGATOR_APIROOT +:+ AGGREGATOR_APIVERSION cfg +:+ url) None
               (OAUTH_MODE cfg && auth_client s)) :: more) /\
  _reg_queue s' = rest /\ entities s' = entities s /\ node s' = node s /\
  (forall r s1,
     _SEND cfg "DELETE" url None (set_reg_queue rest s) = (r, s1) ->
     match r with
     | Ok _ | Raise (InvalidRequestE _) => s' = s1 /\ registered s' = true
     | Raise _ => registered s' = false
     end).
Proof.
  intros Hreg Hq Hm Hagg url s'.
  destruct (_process_queue_body_takes cfg s item rest Hreg Hq) as (Hbody & Hq1 & _).
  fold s' in Hbody, Hq1.
  destruct (_SEND cfg "DELETE" url None (set_reg_queue rest s)) as [r s1] eqn:Hsend.
  pose proof (process_item_delete cfg item (set_reg_queue rest s) r s1 Hm Hsend) as Hitem.
  pose proof (_process_queue_body_item cfg s item rest Hreg Hq) as Hturn.
  rewrite Hitem in Hturn.
  destruct (SEND_frame _ _ _ _ _ _ _ Hsend) as (Fn & Fr & Fe & _).
  simpl in Fn, Fr, Fe.
  destruct (_SEND_first cfg "DELETE" url None (set_reg_queue rest s) r s1 Hagg Hsend)
    as (more & Htr). simpl in Htr.
  destruct (on_updater_frame MDNSUpdater.P2P_disable (set_registered false s1))
    as (On & Or & Oe & _ & _ & Ot & _). simpl in On, Or, Oe, Ot.
  assert (Hs' : s' = match r with
                     | Ok _ | Raise (InvalidRequestE _) => s1
                     | Raise _ =>
                         on_updater MDNSUpdater.P2P_disable (set_registered false s1)
                     end).
  { unfold s'. rewrite Hturn. destruct r as [b|[]]; reflexivity. }
  split; [exact Hbody|]. split; [|split; [exact Hq1|split; [|split]]].
  - exists more. rewrite Hs'. destruct r as [b|[]]; rewrite ?Ot; exact Htr.
  - rewrite Hs'. destruct r as [b|[]]; rewrite ?Oe; exact Fe.
  - rewrite Hs'. destruct r as [b|[]]; rewrite ?On; exact Fn.
  - intros r' s1' [= <- <-]. rewrite Hs'.
    destruct r as [b|[]]; rewrite ?Or; try reflexivity.
    all: split; [reflexivity|]; rewrite Fr; exact Hreg.
Qed.

(** X14.  An entity that is registered and then unregistered before the
    worker has taken its POST is never sent: after the two calls the key
    is not in the mirror and the queue ends with the POST followed by the
    DELETE; and when the POST reaches the head of the queue of a
    registered proxy, the worker turn only takes it off, without any
    request, and leaves the DELETE at the head. *)
Theorem register_then_unregister cfg namespace res_type key kwargs s :
  res_type <> "node" ->
  let s1 := (register_into cfg namespace res_type key kwargs s).2 in
  let s2 := (unregister_from namespace res_type key s1).2 in
  let post := mkIntent "POST" namespace res_type key in
  let delete := mkIntent "DELETE" namespace res_type key in
  unregister_from namespace res_type key s1 = (Ok tt, s2) /\
  _reg_queue s2 = _reg_queue s ++ [post; delete] /\
  mirror_get namespace res_type key (entities s2) = None /\
  trace s2 = trace s /\
  (forall s3 rest,
     registered s3 = true -> entities s3 = entities s2 ->
     _reg_queue s3 = post :: rest ->
     _process_queue_body cfg s3 = (Ok tt, set_reg_queue rest s3)).
Proof.
  intros HT s1 s2 post delete.
  assert (Hne : (namespace, res_type) <> ("resource", "node")) by congruence.
  destruct (register_into_entity cfg namespace res_type key kwargs s Hne)
    as (E1 & Hreg & _ & _ & Hb1).
  assert (Hs1 : s1 = set_reg_queue (_reg_queue s ++ [post]) (set_entities E1 s))
    by (unfold s1; rewrite Hreg; reflexivity).
  destruct Hb1 as (nsd1 & td1 & Hns1 & HT1).
  assert (Hns1' : dict_get namespace (entities s1) = Some nsd1)
    by (rewrite Hs1; exact Hns1).
  destruct (unregister_from_entity namespace res_type key s1 nsd1 Hne Hns1')
    as (E2 & Hun & HE2 & Hget2).
  assert (Hs2 : s2 = set_reg_queue (_reg_queue s1 ++ [delete]) (set_entities E2 s1))
    by (unfold s2; rewrite Hun; reflexivity).
  assert (Habs : mirror_get namespace res_type key (entities s2) = None).
  { rewrite Hs2. simpl. rewrite Hget2.
    destruct (decide (_ = _)); [reflexivity|congruence]. }
  assert (Hb2 : has_bucket namespace res_type (entities s2)).
  { rewrite Hs2. simpl. destruct HE2 as [->| ->].
    - rewrite Hs1. simpl. exists nsd1, td1. auto.
    - apply has_bucket_del. rewrite Hs1. simpl. exists nsd1, td1. auto. }
  split; [rewrite Hun, Hs2; reflexivity|].
  split; [rewrite Hs2, Hs1; simpl; rewrite <- app_assoc; reflexivity|].
  split; [exact Habs|]. split; [rewrite Hs2, Hs1; reflexivity|].
  intros s3 rest Hreg3 He3 Hq3.
  destruct Hb2 as (nsd2 & td2 & Hns2 & HT2).
  apply (absent_key_is_noop cfg s3 post rest nsd2 td2); auto.
  - simpl. rewrite He3. exact Hns2.
  - simpl. unfold mirror_get in Habs. rewrite Hns2 in Habs. simpl in Habs.
    rewrite HT2 in Habs. exact Habs.
Qed.

(** X24.  On a registered proxy, whatever exception leaves the handling
    of a dequeued intent makes the worker clear [registered] and call
    [P2P_disable] on the updater, and nothing else; the turn itself ends
    normally.  That is what happens when the send for a DELETE, or for the
    POST of a mirrored entity other than the node, raises anything but
    [InvalidRequest]. *)
Theorem worker_unregisters_on_exception cfg s item rest :
  registered s = true -> _reg_queue s = item :: rest ->
  let s0 := set_reg_queue rest s in
  let s' := (_process_queue_body cfg s).2 in
  _process_queue_body cfg s = (Ok tt, s') /\
  (forall e s1,
      process_item cfg item s0 = (Raise e, s1) ->
      s' = on_updater MDNSUpdater.P2P_disable (set_registered false s1) /\
      registered s' = false /\
      _mdns_updater s' = MDNSUpdater.P2P_disable <$> _mdns_updater s1) /\
  (forall e s1,
      method item = "DELETE" ->
      _SEND cfg "DELETE"
        ("/" +:+ namespace item +:+ "/" +:+ (res_type item +:+ "s") +:+ "/" +:+ key item)
        None s0 = (Raise e, s1) ->
      (forall c, e <> InvalidRequestE c) ->
      process_item cfg item s0 = (Raise e, s1)) /\
  (forall e s1 nsd td data,
      method item = "POST" -> res_type item <> "node" ->
      dict_get (namespace item) (entities s) = Some nsd ->
      dict_get (res_type item) nsd = Some td ->
      dict_get (key item) td = Some data ->
      _SEND cfg "POST" ("/" +:+ namespace item) (Some data) s0 = (Raise e, s1) ->
      (forall c, e <> InvalidRequestE c) ->
      process_item cfg item s0 = (Raise e, s1)).
Proof.
  intros Hreg Hq s0 s'.
  destruct (_process_queue_body_takes cfg s item rest Hreg Hq) as (Hbody & _).
  fold s' in Hbody. split; [exact Hbody|].
  subst s'. rewrite (_process_queue_body_item _ _ _ _ Hreg Hq). fold s0.
  split; [|split].
  - intros e s1 ->. simpl.
    destruct (on_updater_frame MDNSUpdater.P2P_disable (set_registered false s1))
      as (_ & -> & _ & _ & _ & _ & _ & ->). auto.
  - intros e s1 Hm Hsend Hne.
    rewrite (process_item_delete _ _ _ _ _ Hm Hsend).
    destruct e; try reflexivity. exfalso. eapply Hne. reflexivity.
  - intros e s1 nsd td data Hm HT Hns Htd Hk Hsend Hne.
    rewrite (process_item_post cfg item s0 nsd td data _ s1 Hm HT Hns Htd Hk Hsend).
    destruct e; try reflexivity. exfalso. eapply Hne. reflexivity.
Qed.
(** ** The heartbeat controller and the re-registration pass *)

Lemma _process_reregister_no_node cfg s :
  node s = None -> _process_reregister cfg s = (Ok tt, s).
Proof. intros Hn. unfold _process_reregister. mstep. rewrite Hn. reflexivity. Qed.

(** X15.  A proxy that holds no node never sends anything from its
    heartbeat loop.  The turn that finds a registered proxy without a node
    clears [registered] and signals the updater once; from then on the
    loop, however long it runs, changes nothing: the updater is not
    signalled again and the queue is left as it is. *)
Theorem heartbeat_without_node cfg s :
  node s = None ->
  let s1 := (_heartbeat_body cfg s).2 in
  _heartbeat_body cfg s = (Ok tt, s1) /\
  registered s1 = false /\
  trace s1 = trace s /\ _reg_queue s1 = _reg_queue s /\ entities s1 = entities s /\
  _mdns_updater s1 =
    (if registered s then bumped (_mdns_updater s) else _mdns_updater s) /\
  (forall fuel, _heartbeat cfg fuel s1 = (Ok tt, s1)).
Proof.
  intros Hn.
  assert (Hfix : forall s0, node s0 = None -> registered s0 = false ->
            forall fuel, _heartbeat cfg fuel s0 = (Ok tt, s0)).
  { intros s0 Hn0 Hr0 fuel. induction fuel as [|fuel IH]; [reflexivity|].
    simpl. mstep. destruct (_running s0); [|reflexivity].
    unfold _heartbeat_body. mstep. rewrite Hr0. msimp.
    rewrite (_process_reregister_no_node cfg s0 Hn0). exact IH. }
  destruct (registered s) eqn:Hreg.
  - assert (Hbody : _heartbeat_body cfg s =
                    (Ok tt, on_updater MDNSUpdater.inc_P2P_enable_count
                              (set_registered false s))).
    { unfold _heartbeat_body. mstep. rewrite Hreg, Hn. reflexivity. }
    rewrite Hbody. simpl.
    destruct (on_updater_frame MDNSUpdater.inc_P2P_enable_count (set_registered false s))
      as (On & Or & Oe & _ & Oq & Ot & _ & Ou).
    simpl in On, Or, Oe, Oq, Ot, Ou.
    split; [reflexivity|]. split; [exact Or|]. split; [exact Ot|].
    split; [exact Oq|]. split; [exact Oe|]. split; [exact Ou|].
    apply Hfix; [rewrite On; exact Hn|exact Or].
  - rewrite (_heartbeat_body_unregistered cfg s Hreg).
    rewrite (_process_reregister_no_node cfg s Hn). simpl.
    split; [reflexivity|]. split; [exact Hreg|]. split; [reflexivity|].
    split; [reflexivity|]. split; [reflexivity|]. split; [reflexivity|].
    apply Hfix; assumption.
Qed.

(** X16.  A heartbeat of a registered proxy whose call does not end in a
    4xx: when the call returns, the turn changes nothing of the proxy, it
    stays registered and the updater is not signalled; when the call
    raises, the turn clears [registered] and nothing else, so the loop
    keeps running and its next turn is the re-registration pass, and the
    updater has been signalled exactly once when the exception is
    [NoAggregator] or [TooManyRetries] and not at all otherwise. *)
Theorem heartbeat_keeps_or_marks cfg s e id r s1 :
  registered s = true -> node s = Some e -> dict_get "id" (env_data e) = Some id ->
  _SEND cfg "POST" ("/health/nodes/" +:+ id) None s = (r, s1) ->
  (forall c, r <> Raise (InvalidRequestE c)) ->
  let s2 := (_heartbeat_body cfg s).2 in
  _heartbeat_body cfg s = (Ok tt, s2) /\
  registered s2 = is_ok r /\
  _running s2 = _running s /\ _reg_queue s2 = _reg_queue s /\
  entities s2 = entities s /\ node s2 = node s /\
  _mdns_updater s2 =
    (if sender_error r then bumped (_mdns_updater s) else _mdns_updater s) /\
  (is_ok r = false -> _heartbeat_body cfg s2 = _process_reregister cfg s2).
Proof.
  intros Hreg Hnode Hid Hsend Hno4.
  rewrite (_heartbeat_body_send _ _ _ _ _ _ Hreg Hnode Hid Hsend). simpl.
  destruct (_SEND_spec _ _ _ _ _ _ _ Hsend)
    as ((Fn & Fr & Fe & Frun & Fq & _) & Fu & _).
  destruct r as [b|ex].
  - simpl in *. split; [reflexivity|]. split; [rewrite Fr; exact Hreg|].
    repeat split; try assumption. discriminate.
  - assert (Hs2 : match ex with
                  | InvalidRequestE code =>
                      if code =? 404
                      then on_updater MDNSUpdater.inc_P2P_enable_count
                             (set_registered false s1)
                      else set_running false s1
                  | _ => set_registered false s1
                  end = set_registered false s1).
    { destruct ex; try reflexivity. exfalso. eapply Hno4. reflexivity. }
    rewrite Hs2. simpl.
    split; [reflexivity|]. split; [reflexivity|].
    split; [exact Frun|]. split; [exact Fq|]. split; [exact Fe|].
    split; [exact Fn|]. split; [exact Fu|].
    intros _. apply _heartbeat_body_unregistered. reflexivity.
Qed.

(** *** How the flag gets set *)

Lemma register_into_registered cfg namespace res_type key kwargs s :
  registered (register_into cfg namespace res_type key kwargs s).2 = registered s.
Proof.
  unfold register_into, register_auth_client, _queue_request, subscript.
  mstep.
  destruct (_ && _); msimp.
  - destruct (OAUTH_MODE cfg); msimp; [|reflexivity].
    destruct (auth_dance _ _) as [[ex|] client]; reflexivity.
  - destruct (_add_mirror_keys_exact namespace res_type s)
      as (s1 & nsd & td & Hadd & Hs1 & _).
    rewrite Hadd. msimp.
    assert (Hr : registered s1 = registered s) by (rewrite Hs1; reflexivity).
    repeat (case_match; msimp; simpl); simplify_eq; exact Hr.
Qed.

Lemma unregister_from_registered namespace res_type key s :
  registered (unregister_from namespace res_type key s).2 = registered s.
Proof.
  unfold unregister_from, _queue_request, del_entity, subscript. mstep.
  destruct (_ && _); msimp; [reflexivity|].
  destruct (dict_get namespace (entities s)) as [nsd|]; msimp; [|reflexivity].
  destruct (dict_mem res_type nsd); msimp; [|reflexivity].
  destruct (_add_mirror_keys_exact namespace res_type s)
    as (s1 & nsd1 & td1 & Hadd & Hs1 & _).
  rewrite Hadd. msimp.
  assert (Hr : registered s1 = registered s) by (rewrite Hs1; reflexivity).
  repeat (case_match; msimp; simpl); simplify_eq; exact Hr.
Qed.

Lemma well_addressed_last a method url data ev0 rq :
  well_addressed a method url data (ev0 ++ [Send rq]) ->
  rq_aggregator rq <> "" /\ rq_method rq = method /\ rq_url rq = url /\
  rq_data rq = data.
Proof.
  intros H. apply well_addressed_app in H. destruct H as [_ H]. simpl in H.
  destruct H as [(Ha & Hto & Hm & Hu & Hd) _]. rewrite Hto. auto.
Qed.

Lemma before_node_post_world sd :
  world (before_node_post sd) = world sd /\ node (before_node_post sd) = node sd /\
  entities (before_node_post sd) = entities sd /\
  registered (before_node_post sd) = false /\ _reg_queue (before_node_post sd) = [].
Proof.
  unfold before_node_post, on_updater. simpl.
  destruct (_mdns_updater sd); simpl; auto.
Qed.

Lemma on_updater_requests f s : requests_made (on_updater f s) = requests_made s.
Proof. unfold on_updater. destruct (_mdns_updater s); reflexivity. Qed.

Lemma P2P_disable_off u :
  MDNSUpdater.p2p_enable (MDNSUpdater.P2P_disable u) = false /\
  MDNSUpdater.p2p_enable_count (MDNSUpdater.P2P_disable u) = 0.
Proof.
  unfold MDNSUpdater.P2P_disable.
  destruct (MDNSUpdater.p2p_enable u) eqn:E; simpl; auto.
Qed.

(** X17.  The flag [registered] is set in one way only.  A step of the
    proxy (a turn of the heartbeat loop or of the worker, a call of the
    application) that finds it cleared and leaves it set is a turn of the
    heartbeat loop on a proxy that holds a node with an id, in which the
    POST of that node to [/resource] and then the POST to
    [/health/nodes/<id>] were both answered 200, 201 or 204, the heartbeat
    being the last request of the turn.  The step ends holding the
    aggregator that answered the heartbeat, with P2P off and the counter
    at 0, and with the walk of the mirror as the whole queue. *)
Theorem registration_is_earned cfg s l s' :
  proxy_step cfg s l s' -> registered s = false -> registered s' = true ->
  l = Heartbeat /\
  exists e id,
    node s = Some e /\ dict_get "id" (env_data e) = Some id /\
    (exists ev1 rq1 resp1 b1 ev2 rq2 resp2 b2 n1,
       trace s' = trace s ++ ev1 ++ Send rq1 :: ev2 ++ [Send rq2] /\
       rq_method rq1 = "POST" /\
       rq_url rq1 = AGGREGATOR_APIROOT +:+ AGGREGATOR_APIVERSION cfg +:+ "/resource" /\
       rq_data rq1 = Some e /\
       request (world s) n1 rq1 = Returns (Some resp1) /\ accepted resp1 b1 /\
       rq_method rq2 = "POST" /\
       rq_url rq2 = AGGREGATOR_APIROOT +:+ AGGREGATOR_APIVERSION cfg +:+
                    ("/health/nodes/" +:+ id) /\
       rq_data rq2 = None /\
       request (world s) (Nat.pred (requests_made s')) rq2 = Returns (Some resp2) /\
       accepted resp2 b2 /\
       rq_aggregator rq2 = aggregator s') /\
    aggregator s' <> "" /\
    (forall u, _mdns_updater s' = Some u ->
       MDNSUpdater.p2p_enable u = false /\ MDNSUpdater.p2p_enable_count u = 0) /\
    _reg_queue s' = ordered_intents (entities s) ++ other_intents (entities s).
Proof.
  intros Hstep Hoff Hon. destruct Hstep as [Hrunning| |ns T k kw|ns T k|].
  2:{ rewrite _process_queue_body_idle in Hon by auto. simpl in Hon. congruence. }
  2:{ rewrite register_into_registered in Hon. congruence. }
  2:{ rewrite unregister_from_registered in Hon. congruence. }
  2:{ simpl in Hon. congruence. }
  split; [reflexivity|].
  rewrite (_heartbeat_body_unregistered cfg s Hoff) in *.
  destruct (_process_reregister_run cfg s) as (s' & Heq & Hrun).
  rewrite Heq in *. simpl in Hon. simpl.
  inversion Hrun as
    [ Hn E | e Hn Hid E | e id rd sd Hn Hid Hdel Hab E
    | e id rd sd rp sp Hn Hid Hdel Hab Hpost Hok E
    | e id rd sd rp sp rh sh Hn Hid Hdel Hab Hpost Hok Hh Hokh E
    | e id rd sd rp sp rh sh Hn Hid Hdel Hab Hpost Hok Hh Hokh E ].
  - congruence.
  - congruence.
  - subst s'. apply SEND_frame in Hdel. destruct Hdel as (_ & Fr & _). congruence.
  - subst s'. apply SEND_frame in Hpost. destruct Hpost as (_ & Fr & _).
    simpl in Hon. rewrite Fr in Hon.
    destruct (before_node_post_world sd) as (_ & _ & _ & Hr & _). congruence.
  - subst s'. apply SEND_frame in Hpost. destruct Hpost as (_ & Fr & _).
    apply SEND_frame in Hh. destruct Hh as (_ & Fr' & _).
    simpl in Hon. rewrite Fr', Fr in Hon.
    destruct (before_node_post_world sd) as (_ & _ & _ & Hr & _). congruence.
  - exists e, id. split; [exact Hn|]. split; [exact Hid|].
    destruct rp as [bp|]; [|discriminate]. destruct rh as [bh|]; [|discriminate].
    destruct (before_node_post_world sd) as (Bw & _ & Be & _ & Bq).
    destruct (before_node_post_frame sd) as (Bt & _ & _).
    destruct (_SEND_spec _ _ _ _ _ _ _ Hdel) as ((_ & _ & De & _ & _ & Dw & _) & _ & _ & evd & Dtr & _).
    destruct (_SEND_addressed _ _ _ _ _ _ _ Hpost) as (evp & Ptr & Pwa & _ & Pend).
    destruct (Pend bp eq_refl) as (evp0 & rqp & respp & -> & Pq & _ & Pacc).
    destruct (well_addressed_last _ _ _ _ _ _ Pwa) as (_ & Pm & Pu & Pd).
    destruct (SEND_frame _ _ _ _ _ _ _ Hpost) as (_ & _ & Pe & _ & Pqueue & Pw & _).
    destruct (_SEND_addressed _ _ _ _ _ _ _ Hh) as (evh & Htr & Hwa & _ & Hend).
    destruct (Hend bh eq_refl) as (evh0 & rqh & resph & -> & Hq & Hto & Hacc).
    destruct (well_addressed_last _ _ _ _ _ _ Hwa) as (_ & Hm & Hu & Hd).
    destruct (_SEND_spec _ _ _ _ _ _ _ Hh)
      as ((_ & _ & He & _ & Hqueue & Hw & _) & _ & _ & evh' & _ & _ & _ & Hlvl & _).
    destruct (Hlvl eq_refl) as [_ Hagg].
    destruct (on_updater_frame MDNSUpdater.P2P_disable (set_registered true sh))
      as (_ & _ & Oe & _ & _ & Ot & Oa & Ou).
    simpl in Oe, Ot, Oa, Ou.
    rewrite Bw in Pq. rewrite Pw, Bw in Hq. rewrite Dw in Pq, Hq.
    split; [|split; [|split]].
    + exists (evd ++ evp0), rqp, respp, bp, evh0, rqh, resph, bh,
        (Nat.pred (requests_made sp)).
      unfold after_walk. simpl. rewrite Ot, Oa, on_updater_requests. simpl.
      split; [rewrite Htr, Ptr, Bt, Dtr, <- !app_assoc; reflexivity|].
      repeat split; assumption.
    + unfold after_walk. simpl. rewrite Oa. exact Hagg.
    + intros u Hu'. unfold after_walk in Hu'. simpl in Hu'. rewrite Ou in Hu'.
      destruct (_mdns_updater sh) as [u0|]; [|discriminate].
      simpl in Hu'. injection Hu' as <-. apply P2P_disable_off.
    + unfold after_walk. simpl. rewrite He, Pe, Be, De. reflexivity.
Qed.

(** *** A pass that does not get the node registered *)

Lemma SEND_trace cfg method url data s r s' :
  _SEND cfg method url data s = (r, s') -> exists ev, trace s' = trace s ++ ev.
Proof.
  intros H. destruct (_SEND_spec _ _ _ _ _ _ _ H) as (_ & _ & _ & ev & Htr & _).
  exists ev. exact Htr.
Qed.

(** The call begins by resolving when it holds no aggregator. *)
Lemma _SEND_resolves_first cfg method url data s r s' :
  aggregator s = "" ->
  _SEND cfg method url data s = (r, s') ->
  exists h more, trace s' = trace s ++ Resolve h :: more.
Proof.
  intros Hagg Hrun.
  destruct (_SEND_unfold _ _ _ _ _ _ _ Hrun) as (s3 & pre & Htr3 & Hloop & Hpre).
  destruct Hpre as [(Hne & _)|(_ & ->)]; [contradiction|].
  destruct (_SEND_loop_spec _ _ _ _ _ None _ _ _ I Hloop) as (_ & _ & _ & ev2 & Htr2 & _).
  exists (aggregator s3), ev2. rewrite Htr2, Htr3, <- app_assoc. reflexivity.
Qed.

(** The trace of a pass is the trace of its DELETE, extended. *)
Lemma reregister_after_delete cfg s e id rd sd :
  node s = Some e -> dict_get "id" (env_data e) = Some id ->
  _SEND cfg "DELETE" ("/resource/nodes/" +:+ id) None s = (rd, sd) ->
  exists more, trace (_process_reregister cfg s).2 = trace sd ++ more.
Proof.
  intros Hn Hid Hdel.
  destruct (_process_reregister_run cfg s) as (s' & -> & Hrun). simpl.
  inversion Hrun as
    [ Hn' E | e' Hn' Hid' E | e' id' rd' sd' Hn' Hid' Hdel' Hab E
    | e' id' rd' sd' rp sp Hn' Hid' Hdel' Hab Hpost Hok E
    | e' id' rd' sd' rp sp rh sh Hn' Hid' Hdel' Hab Hpost Hok Hh Hokh E
    | e' id' rd' sd' rp sp rh sh Hn' Hid' Hdel' Hab Hpost Hok Hh Hokh E ];
    try congruence.
  all: assert (e' = e) by congruence; subst e'.
  all: assert (id' = id) by congruence; subst id'.
  all: assert (sd' = sd) by congruence; subst sd'.
  all: destruct (before_node_post_frame sd) as (Bt & _ & _).
  - exists []. subst s'. rewrite app_nil_r. reflexivity.
  - destruct (SEND_trace _ _ _ _ _ _ _ Hpost) as (evp & Ptr).
    exists evp. simpl. rewrite Ptr, Bt. reflexivity.
  - destruct (SEND_trace _ _ _ _ _ _ _ Hpost) as (evp & Ptr).
    destruct (SEND_trace _ _ _ _ _ _ _ Hh) as (evh & Htr).
    exists (evp ++ evh). simpl. rewrite Htr, Ptr, Bt, app_assoc. reflexivity.
  - destruct (SEND_trace _ _ _ _ _ _ _ Hpost) as (evp & Ptr).
    destruct (SEND_trace _ _ _ _ _ _ _ Hh) as (evh & Htr).
    exists (evp ++ evh). unfold after_walk. simpl.
    destruct (on_updater_frame MDNSUpdater.P2P_disable (set_registered true sh))
      as (_ & _ & _ & _ & _ & -> & _). simpl.
    rewrite Htr, Ptr, Bt, app_assoc. reflexivity.
Qed.

(** X18.  A re-registration pass that gets past the DELETE of the node
    but does not end registered, because the POST of the node or the
    heartbeat after it failed in any way, a 4xx included, forgets the
    aggregator and leaves the queue drained: whatever was waiting on the
    queue is gone.  The node and the mirror are kept, so the next turn of
    the heartbeat loop is another pass, and it begins by resolving an
    aggregator afresh. *)
Theorem failed_reregistration_forgets_aggregator cfg s e id rd sd :
  node s = Some e -> dict_get "id" (env_data e) = Some id ->
  _SEND cfg "DELETE" ("/resource/nodes/" +:+ id) None s = (rd, sd) ->
  delete_aborts rd = false ->
  let s' := (_process_reregister cfg s).2 in
  registered s' = false ->
  aggregator s' = "" /\ _reg_queue s' = [] /\
  node s' = node s /\ entities s' = entities s /\
  _heartbeat_body cfg s' = _process_reregister cfg s' /\
  exists h more, trace (_heartbeat_body cfg s').2 = trace s' ++ Resolve h :: more.
Proof.
  intros Hn Hid Hdel Hab s' Hoff.
  assert (Hmain : aggregator s' = "" /\ _reg_queue s' = [] /\
                  node s' = node s /\ entities s' = entities s).
  { unfold s' in *. clear s'.
    destruct (_process_reregister_run cfg s) as (s' & Heq & Hrun).
    rewrite Heq in *. simpl in *.
    inversion Hrun as
      [ Hn' E | e' Hn' Hid' E | e' id' rd' sd' Hn' Hid' Hdel' Hab' E
      | e' id' rd' sd' rp sp Hn' Hid' Hdel' Hab' Hpost Hok E
      | e' id' rd' sd' rp sp rh sh Hn' Hid' Hdel' Hab' Hpost Hok Hh Hokh E
      | e' id' rd' sd' rp sp rh sh Hn' Hid' Hdel' Hab' Hpost Hok Hh Hokh E ];
      try congruence.
    all: assert (e' = e) by congruence; subst e'.
    all: assert (id' = id) by congruence; subst id'.
    all: assert (sd' = sd /\ rd' = rd) as [-> ->] by (split; congruence).
    all: try congruence.
    all: destruct (before_node_post_world sd) as (_ & Bn & Be & _ & Bq).
    all: destruct (SEND_frame _ _ _ _ _ _ _ Hdel) as (Dn & _ & De & _).
    all: destruct (SEND_frame _ _ _ _ _ _ _ Hpost) as (Pn & _ & Pe & _ & Pq & _).
    - simpl. rewrite Pq, Pn, Pe, Bq, Bn, Be, Dn, De. auto.
    - destruct (SEND_frame _ _ _ _ _ _ _ Hh) as (Hn'' & _ & He'' & _ & Hq'' & _).
      simpl. rewrite Hq'', Hn'', He'', Pq, Pn, Pe, Bq, Bn, Be, Dn, De. auto.
    - subst s'. unfold after_walk in Hoff. simpl in Hoff.
      destruct (on_updater_frame MDNSUpdater.P2P_disable (set_registered true sh))
        as (_ & Or & _). simpl in Or. congruence. }
  destruct Hmain as (Ha & Hq & Hnode & He).
  split; [exact Ha|]. split; [exact Hq|]. split; [exact Hnode|]. split; [exact He|].
  rewrite (_heartbeat_body_unregistered cfg s' Hoff). split; [reflexivity|].
  destruct (_SEND cfg "DELETE" ("/resource/nodes/" +:+ id) None s') as [rd2 sd2] eqn:Hdel2.
  destruct (_SEND_resolves_first _ _ _ _ _ _ _ Ha Hdel2) as (h & more & Htr).
  destruct (reregister_after_delete cfg s' e id rd2 sd2) as (more2 & Htr2);
    [rewrite Hnode; exact Hn|exact Hid|exact Hdel2|].
  exists h, (more ++ more2). rewrite Htr2, Htr, <- app_assoc. reflexivity.
Qed.

(** ** Invariants of the P2P counter and of the queue *)

Lemma update_mdns_p2p type action u u1 :
  MDNSUpdater.update_mdns type action u = Ok u1 ->
  MDNSUpdater.p2p_enable u1 = MDNSUpdater.p2p_enable u /\
  MDNSUpdater.p2p_enable_count u1 = MDNSUpdater.p2p_enable_count u /\
  MDNSUpdater.p2p_cut_in_count u1 = MDNSUpdater.p2p_cut_in_count u.
Proof.
  unfold MDNSUpdater.update_mdns, MDNSUpdater._increment_service_version.
  repeat case_match; intros; simplify_eq; simpl; auto.
Qed.

Lemma run_call_cut c u :
  MDNSUpdater.p2p_cut_in_count (run_call c u) = MDNSUpdater.p2p_cut_in_count u.
Proof.
  destruct c as [type action| | |]; simpl.
  - destruct (MDNSUpdater.update_mdns type action u) as [u1|] eqn:H; [|reflexivity].
    apply update_mdns_p2p in H. apply H.
  - unfold MDNSUpdater.inc_P2P_enable_count, MDNSUpdater.P2P_enable.
    repeat case_match; reflexivity.
  - unfold MDNSUpdater.P2P_enable. repeat case_match; reflexivity.
  - unfold MDNSUpdater.P2P_disable. repeat case_match; reflexivity.
Qed.

Lemma run_call_count c u :
  1 <= MDNSUpdater.p2p_cut_in_count u ->
  count_below_threshold u -> count_below_threshold (run_call c u).
Proof.
  intros Hcut [Hpos Hlt]. unfold count_below_threshold.
  destruct c as [type action| | |]; simpl.
  - destruct (MDNSUpdater.update_mdns type action u) as [u1|] eqn:H; [|auto].
    apply update_mdns_p2p in H. destruct H as (-> & -> & ->). auto.
  - unfold MDNSUpdater.inc_P2P_enable_count, MDNSUpdater.P2P_enable.
    destruct (MDNSUpdater.p2p_enable u) eqn:He; simpl.
    { rewrite He. split; [exact Hpos|discriminate]. }
    destruct (_ <=? _) eqn:Hle; simpl; rewrite ?He; simpl.
    + split; [lia|discriminate].
    + apply Z.leb_gt in Hle. split; [lia|]. intros _. exact Hle.
  - unfold MDNSUpdater.P2P_enable.
    destruct (MDNSUpdater.p2p_enable u) eqn:He; simpl.
    { rewrite He. split; [exact Hpos|discriminate]. }
    split; [exact Hpos|discriminate].
  - unfold MDNSUpdater.P2P_disable.
    destruct (MDNSUpdater.p2p_enable u) eqn:He; simpl.
    + split; [lia|]. intros _. lia.
    + split; [lia|]. intros _. lia.
Qed.

Lemma run_calls_count cs u :
  1 <= MDNSUpdater.p2p_cut_in_count u ->
  count_below_threshold u ->
  count_below_threshold (run_calls cs u) /\
  MDNSUpdater.p2p_cut_in_count (run_calls cs u) = MDNSUpdater.p2p_cut_in_count u.
Proof.
  revert u. induction cs as [|c cs IH]; intros u Hcut Hu; [auto|].
  simpl. change (fold_left _ cs ?x) with (run_calls cs x).
  destruct (IH (run_call c u)) as [I1 I2].
  - rewrite run_call_cut. exact Hcut.
  - apply run_call_count; assumption.
  - split; [exact I1|]. rewrite I2. apply run_call_cut.
Qed.

(** X19.  On an updater constructed with a threshold of at least 1, and
    whatever calls are made on it afterwards, the counter is never
    negative and, while P2P is off, stays below the threshold; so a signal
    turns P2P on exactly when it brings the counter to the threshold, and
    the counter never passes it while P2P is off. *)
Theorem p2p_count_stays_below_threshold mappings p2p cut txt
    (cs : list updater_call) :
  1 <= cut ->
  let u := run_calls cs (MDNSUpdater.__init__ mappings p2p cut txt) in
  MDNSUpdater.p2p_cut_in_count u = cut /\
  0 <= MDNSUpdater.p2p_enable_count u /\
  (MDNSUpdater.p2p_enable u = false ->
   MDNSUpdater.p2p_enable_count u < cut /\
   (MDNSUpdater.p2p_enable (MDNSUpdater.inc_P2P_enable_count u) = true <->
    MDNSUpdater.p2p_enable_count u + 1 = cut)).
Proof.
  intros Hcut u.
  destruct (run_calls_count cs (MDNSUpdater.__init__ mappings p2p cut txt))
    as [[Hpos Hlt] Hsame].
  - exact Hcut.
  - split; simpl; [lia|]. intros _. lia.
  - fold u in Hpos, Hlt, Hsame. simpl in Hsame.
    split; [exact Hsame|]. split; [exact Hpos|].
    intros He. specialize (Hlt He). rewrite Hsame in Hlt. split; [exact Hlt|].
    unfold MDNSUpdater.inc_P2P_enable_count, MDNSUpdater.P2P_enable.
    rewrite He. simpl. rewrite Hsame.
    destruct (cut <=? MDNSUpdater.p2p_enable_count u + 1) eqn:Hle; simpl.
    + apply Z.leb_le in Hle. rewrite He. simpl. split; [lia|reflexivity].
    + apply Z.leb_gt in Hle. rewrite He. split; [discriminate|lia].
Qed.

Lemma queue_methods_step cfg s l s' :
  proxy_step cfg s l s' -> queue_methods_ok s -> queue_methods_ok s'.
Proof.
  intros Hstep Hok item Hin. destruct Hstep as [Hon| |ns T k kw|ns T k|].
  - destruct (_heartbeat_body_mirror cfg s) as [_ [Hq|[Hq|Hq]]]; rewrite Hq in Hin.
    + exact (Hok item Hin).
    + destruct Hin.
    + left. apply in_app_or in Hin.
      destruct Hin as [Hin|Hin];
        [apply ordered_intents_In in Hin|apply other_intents_In in Hin]; tauto.
  - destruct (_process_queue_body_mirror cfg s) as [[Hq|(hd & Hq)] _].
    + rewrite Hq in Hin. exact (Hok item Hin).
    + apply Hok. rewrite Hq. right. exact Hin.
  - destruct (register_into_mirror cfg ns T k kw s) as [_ [Hq|[Hq _]]];
      rewrite Hq in Hin; [exact (Hok item Hin)|].
    apply in_app_or in Hin. destruct Hin as [Hin|[<-|[]]]; [exact (Hok item Hin)|].
    left. reflexivity.
  - destruct (unregister_from_mirror ns T k s) as [_ [Hq|Hq]];
      rewrite Hq in Hin; [exact (Hok item Hin)|].
    apply in_app_or in Hin. destruct Hin as [Hin|[<-|[]]]; [exact (Hok item Hin)|].
    right. reflexivity.
  - exact (Hok item Hin).
Qed.

Lemma proxy_run_queue_methods cfg s ls s' :
  proxy_run cfg s ls s' -> queue_methods_ok s -> queue_methods_ok s'.
Proof.
  induction 1 as [s|s l s1 ls s2 Hstep Hrun IH]; intros Hok; [exact Hok|].
  apply IH. exact (queue_methods_step _ _ _ _ Hstep Hok).
Qed.

(** X20.  In every state that the proxy reaches from its construction,
    every intent on the queue is a POST or a DELETE, so the worker's
    branch for unsupported methods is never taken: a worker turn on a
    registered proxy with a non-empty queue deals with the intent at the
    head as a POST or as a DELETE. *)
Theorem queued_intents_are_post_or_delete cfg mdns_updater w ls s :
  proxy_run cfg (__init__ mdns_updater w) ls s ->
  (forall item, In item (_reg_queue s) ->
     method item = "POST" \/ method item = "DELETE") /\
  (forall item rest, _reg_queue s = item :: rest ->
     String.eqb (method item) "POST" || String.eqb (method item) "DELETE" = true).
Proof.
  intros Hrun.
  assert (Hok : queue_methods_ok s).
  { apply (proxy_run_queue_methods _ _ _ _ Hrun). intros item []. }
  split; [exact Hok|].
  intros item rest Hq. destruct (Hok item) as [-> | ->];
    [rewrite Hq; left; reflexivity|reflexivity|reflexivity].
Qed.

(** ** The first thing a call and a worker turn send *)

(** A round of the retry loop that holds an aggregator begins with the
    request to it. *)
Lemma _SEND_loop_first cfg method url data i range' R s r s' :
  stale R -> aggregator s <> "" ->
  _SEND_loop cfg (i :: range') method url data R s = (r, s') ->
  exists more,
    trace s' =
    trace s ++
      Attempt i ::
      Send (mkRequest method (aggregator s) url data
              (OAUTH_MODE cfg && auth_client s)) :: more.
Proof.
  intros HR Hagg Hloop.
  destruct (_SEND_loop_step _ _ _ _ _ _ _ _ _ _ HR Hloop)
    as [(Hemp & _)|(_ & ev1 & _ & _ & (ev1' & ->) & [(_ & Hend)|(R1 & h & s3 & HR1 & Htr3 & _ & Hrec)])];
    [contradiction| |].
  - exists ev1'. exact Hend.
  - destruct (_SEND_loop_spec _ _ _ _ _ _ _ _ _ HR1 Hrec) as (_ & _ & _ & ev2 & Htr2 & _).
    exists (ev1' ++ [Resolve h] ++ ev2).
    rewrite Htr2, Htr3, <- !app_assoc. simpl. rewrite <- !app_assoc. reflexivity.
Qed.

(** X21.  A call of the send primitive that holds no aggregator asks the
    bridge for a registration service of the current type and, only when
    that yields the empty URL, of the legacy type.  When one of the two
    yields a URL, the first request goes to it.  When neither does, the
    call raises [NoAggregator] at once: no request is made, two queries
    have been put to the bridge, the updater has been signalled once and
    the proxy still holds no aggregator. *)
Theorem send_without_aggregator cfg method url data s :
  aggregator s = "" ->
  let protocol := if https_mode cfg then "https" else "http" in
  let h1 := getHref (world s) (href_calls s) REGISTRATION_MDNSTYPE protocol in
  let h2 := getHref (world s) (S (href_calls s)) LEGACY_REG_MDNSTYPE protocol in
  let h := if String.eqb h1 "" then h2 else h1 in
  let r := (_SEND cfg method url data s).1 in
  let s' := (_SEND cfg method url data s).2 in
  (h <> "" ->
   exists more,
     trace s' =
     trace s ++
       Resolve h :: Attempt 0 ::
       Send (mkRequest method h
               (AGGREGATOR_APIROOT +:+ AGGREGATOR_APIVERSION cfg +:+ url) data
               (OAUTH_MODE cfg && auth_client s)) :: more) /\
  (h = "" ->
   r = Raise NoAggregatorE /\
   trace s' = trace s ++ [Resolve ""] /\
   requests_made s' = requests_made s /\
   href_calls s' = S (S (href_calls s)) /\
   _mdns_updater s' = bumped (_mdns_updater s) /\
   aggregator s' = "").
Proof.
  intros Hagg protocol h1 h2 h r s'.
  set (s3 := set_aggregator h
               (set_trace (trace s ++ [Resolve h])
                  (set_href_calls (if String.eqb h1 "" then S (S (href_calls s))
                                   else S (href_calls s)) s))).
  assert (Hunfold : _SEND cfg method url data s =
                    _SEND_loop cfg (seq 0 3) method
                      (AGGREGATOR_APIROOT +:+ AGGREGATOR_APIVERSION cfg +:+ url)
                      data None s3).
  { unfold _SEND, _get_api_href, mdnsbridge_getHref. mstep. rewrite Hagg. msimp.
    simpl. fold protocol. fold h1. unfold s3, h.
    destruct (String.eqb h1 "") eqn:E1; simpl; [fold h2|]; reflexivity. }
  unfold r, s'. rewrite Hunfold. clear r s'. split.
  - intros Hne.
    destruct (_SEND_loop cfg (seq 0 3) method _ data None s3) as [r s'] eqn:Hloop.
    change (seq 0 3) with [0; 1; 2]%nat in Hloop.
    assert (Hne3 : aggregator s3 <> "") by exact Hne.
    destruct (_SEND_loop_first _ _ _ _ _ _ None s3 _ _ I Hne3 Hloop) as (more & Htr).
    exists more. simpl. rewrite Htr. simpl. rewrite <- app_assoc. reflexivity.
  - intros Hemp.
    assert (E1 : String.eqb h1 "" = true).
    { unfold h in Hemp. destruct (String.eqb h1 "") eqn:E; [reflexivity|].
      apply String.eqb_neq in E. contradiction. }
    change (seq 0 3) with [0; 1; 2]%nat.
    unfold _SEND_loop, NoAggregator. mstep. unfold s3. simpl.
    rewrite Hemp, E1. simpl.
    destruct (_mdns_updater s) eqn:Hu; simpl; rewrite ?Hu; auto 10.
Qed.

(** X22.  A worker turn on a POST intent for a mirrored entity other than
    the node posts the envelope that the mirror holds under the key when
    the turn is taken, to [/<namespace>] under the API root and version.
    When the call returns, the intent is gone and nothing else of the
    proxy has changed: it stays registered and the envelope stays in the
    mirror. *)
Theorem worker_posts_current_envelope cfg s item rest data :
  registered s = true -> _reg_queue s = item :: rest ->
  method item = "POST" -> res_type item <> "node" ->
  mirror_get (namespace item) (res_type item) (key item) (entities s) = Some data ->
  aggregator s <> "" ->
  let s' := (_process_queue_body cfg s).2 in
  _process_queue_body cfg s = (Ok tt, s') /\
  (exists more,
     trace s' =
     trace s ++
       Attempt 0 ::
       Send (mkRequest "POST" (aggregator s)
               (AGGREGATOR_APIROOT +:+ AGGREGATOR_APIVERSION cfg +:+
                ("/" +:+ namespace item)) (Some data)
               (OAUTH_MODE cfg && auth_client s)) :: more) /\
  _reg_queue s' = rest /\ node s' = node s /\
  (forall b s1,
     _SEND cfg "POST" ("/" +:+ namespace item) (Some data) (set_reg_queue rest s) =
       (Ok b, s1) ->
     s' = s1 /\ registered s' = true /\ entities s' = entities s).
Proof.
  intros Hreg Hq Hm HT Hget Hagg s'.
  destruct (_process_queue_body_takes cfg s item rest Hreg Hq) as (Hbody & Hq1 & _).
  fold s' in Hbody, Hq1.
  unfold mirror_get in Hget.
  destruct (dict_get (namespace item) (entities s)) as [nsd|] eqn:Hns; [|discriminate].
  simpl in Hget.
  destruct (dict_get (res_type item) nsd) as [td|] eqn:Htd; [|discriminate].
  simpl in Hget.
  destruct (_SEND cfg "POST" ("/" +:+ namespace item) (Some data) (set_reg_queue rest s))
    as [r s1] eqn:Hsend.
  pose proof (process_item_post cfg item (set_reg_queue rest s) nsd td data r s1
                Hm HT Hns Htd Hget Hsend) as Hitem.
  pose proof (_process_queue_body_item cfg s item rest Hreg Hq) as Hturn.
  rewrite Hitem in Hturn.
  destruct (SEND_frame _ _ _ _ _ _ _ Hsend) as (Fn & Fr & Fe & _).
  simpl in Fn, Fr, Fe.
  destruct (_SEND_first cfg "POST" ("/" +:+ namespace item) (Some data)
              (set_reg_queue rest s) r s1 Hagg Hsend) as (more & Htr).
  simpl in Htr.
  destruct (on_updater_frame MDNSUpdater.P2P_disable (set_registered false s1))
    as (On & _ & _ & _ & _ & Ot & _). simpl in On, Ot.
  split; [exact Hbody|]. split; [|split; [exact Hq1|split]].
  - exists more. unfold s'. rewrite Hturn.
    destruct r as [b|[]]; simpl; rewrite ?Ot; exact Htr.
  - unfold s'. rewrite Hturn. destruct r as [b|[]]; simpl; rewrite ?On; exact Fn.
  - intros b s1' [= -> <-]. unfold s'. rewrite Hturn. simpl.
    split; [reflexivity|]. split; [rewrite Fr; exact Hreg|exact Fe].
Qed.

(** X23.  A POST intent whose type is [node] is handled as the POST of
    the node whatever its namespace and key: the worker does not look at
    the mirror, and what it posts, to [/<namespace>], is the node that the
    proxy holds when the turn is taken.  When the proxy holds no node by
    then, the turn only takes the intent off the queue; no request is
    made.  In every case the turn ends normally with the proxy still
    registered and the mirror as it was. *)
Theorem node_typed_intent_posts_the_node cfg s item rest :
  registered s = true -> _reg_queue s = item :: rest ->
  method item = "POST" -> res_type item = "node" ->
  let s' := (_process_queue_body cfg s).2 in
  _process_queue_body cfg s = (Ok tt, s') /\
  _reg_queue s' = rest /\ entities s' = entities s /\ registered s' = true /\
  (node s = None -> s' = set_reg_queue rest s) /\
  (forall n id,
     node s = Some n -> dict_get "id" (env_data n) = Some id -> aggregator s <> "" ->
     exists more,
       trace s' =
       trace s ++
         Attempt 0 ::
         Send (mkRequest "POST" (aggregator s)
                 (AGGREGATOR_APIROOT +:+ AGGREGATOR_APIVERSION cfg +:+
                  ("/" +:+ namespace item)) (Some n)
                 (OAUTH_MODE cfg && auth_client s)) :: more).
Proof.
  intros Hreg Hq Hm HT s'.
  destruct (_process_queue_body_takes cfg s item rest Hreg Hq) as (Hbody & Hq1 & _).
  fold s' in Hbody, Hq1.
  pose proof (_process_queue_body_item cfg s item rest Hreg Hq) as Hturn.
  set (s0 := set_reg_queue rest s) in *.
  assert (Hitem :
    process_item cfg item s0 =
    match node s with
    | None => (Ok tt, s0)
    | Some n =>
        match dict_get "id" (env_data n) with
        | None => (Ok tt, s0)
        | Some id =>
            match _SEND cfg "POST" ("/" +:+ namespace item) (Some n) s0 with
            | (Ok _, s1) =>
                match _SEND cfg "POST" ("/health/nodes/" +:+ id) None s1 with
                | (Ok _, s2) =>
                    (Ok tt, on_updater MDNSUpdater.P2P_disable (set_registered true s2))
                | (Raise _, s2) => (Ok tt, s2)
                end
            | (Raise _, s1) => (Ok tt, s1)
            end
        end
    end).
  { unfold process_item, node_id. mstep.
    rewrite Hm, HT. change (String.eqb "POST" "POST") with true.
    change (String.eqb "node" "node") with true. msimp.
    change (node s0) with (node s).
    destruct (node s) as [n|] eqn:Hn; msimp; [|reflexivity].
    destruct (dict_get "id" (env_data n)) as [id|] eqn:Hid; msimp; [|reflexivity].
    destruct (_SEND cfg "POST" ("/" +:+ namespace item) (Some n) s0) as [r1 s1] eqn:H1.
    destruct r1 as [b1|e1]; msimp; [|reflexivity].
    destruct (SEND_frame _ _ _ _ _ _ _ H1) as (Fn & _). simpl in Fn.
    rewrite Fn, Hn. msimp. rewrite Hid. msimp.
    destruct (_SEND cfg "POST" ("/health/nodes/" +:+ id) None s1) as [r2 s2] eqn:H2.
    destruct r2 as [b2|e2]; reflexivity. }
  rewrite Hitem in Hturn. clear Hitem.
  assert (Hreg0 : registered s0 = true) by exact Hreg.
  split; [exact Hbody|]. split; [exact Hq1|].
  destruct (node s) as [n|] eqn:Hn.
  2:{ unfold s'. rewrite Hturn. simpl. auto 10 using eq_refl.
      repeat split; try reflexivity; try assumption. intros; discriminate. }
  destruct (dict_get "id" (env_data n)) as [id|] eqn:Hid.
  2:{ unfold s'. rewrite Hturn. simpl.
      repeat split; try reflexivity; try assumption; try discriminate.
      intros n0 id0 [= <-] Hid0. congruence. }
  destruct (_SEND cfg "POST" ("/" +:+ namespace item) (Some n) s0) as [r1 s1] eqn:H1.
  destruct (SEND_frame _ _ _ _ _ _ _ H1) as (_ & Fr1 & Fe1 & _).
  simpl in Fr1, Fe1.
  assert (Hfirst : aggregator s <> "" ->
            exists more1,
              trace s1 =
              trace s ++
                Attempt 0 ::
                Send (mkRequest "POST" (aggregator s)
                        (AGGREGATOR_APIROOT +:+ AGGREGATOR_APIVERSION cfg +:+
                         ("/" +:+ namespace item)) (Some n)
                        (OAUTH_MODE cfg && auth_client s)) :: more1).
  { intros Hagg. exact (_SEND_first cfg "POST" ("/" +:+ namespace item) (Some n) s0
                          r1 s1 Hagg H1). }
  destruct r1 as [b1|e1].
  - destruct (_SEND cfg "POST" ("/health/nodes/" +:+ id) None s1) as [r2 s2] eqn:H2.
    destruct (_SEND_spec _ _ _ _ _ _ _ H2)
      as ((_ & Fr2 & Fe2 & _) & _ & _ & ev2 & Htr2 & _).
    destruct (on_updater_frame MDNSUpdater.P2P_disable (set_registered true s2))
      as (_ & Or & Oe & _ & _ & Ot & _). simpl in Or, Oe, Ot.
    assert (Hs' : s' = match r2 with
                       | Ok _ => on_updater MDNSUpdater.P2P_disable
                                   (set_registered true s2)
                       | Raise _ => s2
                       end)
      by (unfold s'; rewrite Hturn; destruct r2; reflexivity).
    split; [rewrite Hs'; destruct r2; rewrite ?Oe; congruence|].
    split; [rewrite Hs'; destruct r2; rewrite ?Or; congruence|].
    split; [discriminate|].
    intros n0 id0 [= <-] _ Hagg. destruct (Hfirst Hagg) as (more1 & Htr1).
    exists (more1 ++ ev2). rewrite Hs'.
    destruct r2; rewrite ?Ot, Htr2, Htr1, <- app_assoc; reflexivity.
  - assert (Hs' : s' = s1) by (unfold s'; rewrite Hturn; reflexivity).
    rewrite Hs'. split; [exact Fe1|]. split; [congruence|].
    split; [discriminate|].
    intros n0 id0 [= <-] _ Hagg. exact (Hfirst Hagg).
Qed.


(** * Instances

    The properties above at sample inputs, and the inputs at which two
    sentences of the specification do not hold of the code. *)

(** A registered proxy whose heartbeat is answered 404. *)
Lemma heartbeat_404_witness :
  let s := registered_proxy (answering (status 404)) [] in
  let s2 := (_heartbeat_body sample_cfg s).2 in
  let s3 := (_heartbeat_body sample_cfg s2).2 in
  registered s = true /\
  registered s2 = false /\
  (exists u2, _mdns_updater s2 = Some u2 /\ MDNSUpdater.p2p_enable_count u2 = 2) /\
  exists rest,
    trace s3 =
    trace s2 ++
      Attempt 0 ::
      Send (mkRequest "DELETE" "http://reg:4000"
              "/x-nmos/registration/v1.3/resource/nodes/n1" None false) :: rest.
Proof.
  intros s s2 s3.
  assert (Hsend : _SEND sample_cfg "POST" ("/health/nodes/" +:+ "n1") None s =
                  (Raise (InvalidRequestE 404),
                   (_SEND sample_cfg "POST" ("/health/nodes/" +:+ "n1") None s).2))
    by (vm_compute; reflexivity).
  assert (Hcut : 2 <= MDNSUpdater.p2p_cut_in_count sample_updater)
    by (vm_compute; discriminate).
  destruct (heartbeat_404 sample_cfg s sample_node "n1" sample_updater _
              eq_refl eq_refl eq_refl eq_refl eq_refl eq_refl Hcut Hsend)
    as (H1 & H2 & _ & H4 & _).
  split; [reflexivity|]. split; [exact H1|]. split; [exact H2|].
  destruct H4 as (rest & H4). exists rest. exact H4.
Defined.

(** C1 fails as stated: from 0 the counter stands at 2, not 1, after the
    heartbeat that is answered 404. *)
Lemma heartbeat_404_counter_is_not_one :
  let s := registered_proxy (answering (status 404)) [] in
  let s2 := (_heartbeat_body sample_cfg s).2 in
  registered s = true /\
  request (world s) 0
    (mkRequest "POST" "http://reg:4000"
       "/x-nmos/registration/v1.3/health/nodes/n1" None false) = status 404 /\
  MDNSUpdater.p2p_enable_count <$> _mdns_updater s = Some 0 /\
  registered s2 = false /\
  MDNSUpdater.p2p_enable_count <$> _mdns_updater s2 = Some 2 /\
  MDNSUpdater.p2p_enable_count <$> _mdns_updater s2 <> Some 1.
Proof.
  vm_compute. repeat split; discriminate.
Qed.

(** A call that finds the registry silent three times over. *)
Lemma retry_budget_witness :
  let s := registered_proxy (answering (Throws RequestException)) [] in
  let r := (_SEND sample_cfg "POST" "/resource" (Some sample_sender) s).1 in
  let s' := (_SEND sample_cfg "POST" "/resource" (Some sample_sender) s).2 in
  r = Raise TooManyRetriesE /\
  exists ev,
    trace s' = trace s ++ ev /\ attempts ev = 3%nat /\ resolves ev = 3%nat.
Proof.
  intros s r s'.
  destruct (retry_budget sample_cfg "POST" "/resource" (Some sample_sender) s)
    as (ev & Htr & _ & _ & _ & _ & _ & _ & Htm).
  assert (Hr : r = Raise TooManyRetriesE) by (vm_compute; reflexivity).
  split; [exact Hr|]. exists ev. split; [exact Htr|].
  apply Htm in Hr. exact Hr.
Defined.

(** C2 fails as stated: the registry is silent three times over and the
    bridge, which found a registry after the first and the second attempt,
    finds none after the third.  That resolution yields the empty URL and
    is the last thing the call does, yet the call raises [TooManyRetries],
    not [NoAggregator]. *)
Lemma empty_resolution_after_third_attempt :
  let s := registered_proxy drying_up [] in
  let r := (_SEND sample_cfg "POST" "/resource" (Some sample_sender) s).1 in
  let s' := (_SEND sample_cfg "POST" "/resource" (Some sample_sender) s).2 in
  attempts (trace s') = 3%nat /\
  last (trace s') = Some (Resolve "") /\
  aggregator s' = "" /\
  r = Raise TooManyRetriesE /\
  r <> Raise NoAggregatorE.
Proof.
  vm_compute. repeat split; discriminate.
Qed.

(** Scenario: the mirror holds a receiver, a device and a flow, in that
    order of registration; the pass enqueues device, flow, receiver. *)
Lemma reregister_order_witness :
  let s0 := registered_proxy (answering (status 200)) [] in
  let s := set_registered false
             (set_entities
                [("resource",
                  [("receiver", [("r1", mkEnvelope "receiver" [("id", "r1")])]);
                   ("device", [("d1", mkEnvelope "device" [("id", "d1")])]);
                   ("flow", [("f1", mkEnvelope "flow" [("id", "f1")])])])] s0) in
  let s' := (_process_reregister sample_cfg s).2 in
  registered s' = true /\
  _reg_queue s' =
    [mkIntent "POST" "resource" "device" "d1";
     mkIntent "POST" "resource" "flow" "f1";
     mkIntent "POST" "resource" "receiver" "r1"] /\
  forall (i j : nat) x y,
    _reg_queue s' !! i = Some x -> _reg_queue s' !! j = Some y ->
    precedes (res_type x) (res_type y) -> (i < j)%nat.
Proof.
  intros s0 s s'.
  destruct (reregister_order sample_cfg s) as (enq & _ & _ & _ & Hord & _ & Hpass).
  assert (Hq : _reg_queue s' =
               [mkIntent "POST" "resource" "device" "d1";
                mkIntent "POST" "resource" "flow" "f1";
                mkIntent "POST" "resource" "receiver" "r1"])
    by (vm_compute; reflexivity).
  split; [vm_compute; reflexivity|]. split; [exact Hq|].
  cbv zeta in Hpass.
  change (_process_reregister sample_cfg s).2 with s' in Hpass.
  destruct Hpass as [Hp|[Hp|(_ & _ & Hp)]].
  - rewrite Hq in Hp. vm_compute in Hp. discriminate Hp.
  - rewrite Hq in Hp. discriminate Hp.
  - rewrite Hp. exact Hord.
Defined.

(** Scenario: the registry answers the POST of sender [s1] with 400. *)
Lemma rejected_post_dropped_witness :
  let item := mkIntent "POST" "resource" "sender" "s1" in
  let s := registered_proxy (answering (status 400)) [item] in
  let s' := (_process_queue_body sample_cfg s).2 in
  mirror_get "resource" "sender" "s1" (entities s) = Some sample_sender /\
  mirror_get "resource" "sender" "s1" (entities s') = None /\
  _reg_queue s' = [] /\ registered s' = true.
Proof.
  intros item s s'.
  assert (Hsend : _SEND sample_cfg "POST" ("/" +:+ namespace item) (Some sample_sender)
                    (set_reg_queue [] s) =
                  (Raise (InvalidRequestE 400),
                   (_SEND sample_cfg "POST" ("/" +:+ "resource") (Some sample_sender)
                      (set_reg_queue [] s)).2))
    by (vm_compute; reflexivity).
  assert (HT : res_type item <> "node") by (vm_compute; discriminate).
  destruct (rejected_post_dropped sample_cfg s item []
              [("sender", [("s1", sample_sender)])] [("s1", sample_sender)]
              sample_sender 400 _ eq_refl eq_refl eq_refl HT eq_refl eq_refl eq_refl
              Hsend)
    as (_ & _ & H3 & _ & H5 & H6 & _).
  split; [reflexivity|]. split; [exact H3|]. split; [exact H5|exact H6].
Defined.

(** Sender [s1] is registered and unregistered while the proxy is not yet
    registered; the heartbeat loop then registers the node, and its walk
    finds an empty dictionary of senders.  A second registration of [s1]
    followed by its removal leaves a POST for it at the head of the
    queue. *)
Lemma absent_post_is_noop_witness :
  let ls := [Register "resource" "node" "n1" [("id", "n1")];
             Heartbeat;
             Register "resource" "sender" "s1" [];
             Unregister "resource" "sender" "s1"] in
  let s0 := __init__ (Some sample_updater) (answering (status 200)) in
  let s1 := (register_into sample_cfg "resource" "node" "n1" [("id", "n1")] s0).2 in
  let s2 := (_heartbeat_body sample_cfg s1).2 in
  let s3 := (register_into sample_cfg "resource" "sender" "s1" [] s2).2 in
  let s := (unregister_from "resource" "sender" "s1" s3).2 in
  _reg_queue s = [mkIntent "POST" "resource" "sender" "s1";
                  mkIntent "DELETE" "resource" "sender" "s1"] /\
  mirror_get "resource" "sender" "s1" (entities s) = None /\
  _process_queue_body sample_cfg s =
    (Ok tt, set_reg_queue [mkIntent "DELETE" "resource" "sender" "s1"] s).
Proof.
  intros ls s0 s1 s2 s3 s.
  assert (Hrun : proxy_run sample_cfg s0 ls s).
  { eapply run_cons; [apply step_register|].
    eapply run_cons; [apply step_heartbeat; reflexivity|].
    eapply run_cons; [apply step_register|].
    eapply run_cons; [apply step_unregister|].
    apply run_nil. }
  assert (Hq : _reg_queue s = [mkIntent "POST" "resource" "sender" "s1";
                               mkIntent "DELETE" "resource" "sender" "s1"])
    by (vm_compute; reflexivity).
  assert (HT : res_type (mkIntent "POST" "resource" "sender" "s1") <> "node")
    by (vm_compute; discriminate).
  assert (Hreg : registered s = true) by (vm_compute; reflexivity).
  assert (Habs : mirror_get "resource" "sender" "s1" (entities s) = None)
    by (vm_compute; reflexivity).
  split; [exact Hq|]. split; [exact Habs|].
  exact (proj1 (absent_post_is_noop sample_cfg (Some sample_updater)
                  (answering (status 200)) ls s _ _ Hrun Hreg Hq eq_refl HT Habs)).
Defined.

(** C5.  The code at an input where it departs from the claim.  The
    dequeued intent is the POST of the node, every request fails in
    transport and the send primitive raises [TooManyRetries].  The node
    branch of the worker catches the exception itself: the turn takes the
    intent off the queue, [registered] stays true and [P2P_disable] is not
    called (the counter stands at 1, where that call would have left
    0). *)
Theorem node_post_failure_keeps_registered :
  let item := mkIntent "POST" "resource" "node" "n1" in
  let s := registered_proxy (answering (Throws RequestException)) [item] in
  let s' := (_process_queue_body sample_cfg s).2 in
  registered s = true /\
  (_SEND sample_cfg "POST" "/resource" (Some sample_node) (set_reg_queue [] s)).1 =
    Raise TooManyRetriesE /\
  _reg_queue s' = [] /\
  registered s' = true /\
  MDNSUpdater.p2p_enable_count <$> _mdns_updater s' = Some 1 /\
  _mdns_updater s' <>
    MDNSUpdater.P2P_disable <$>
      _mdns_updater (_SEND sample_cfg "POST" "/resource" (Some sample_node)
                       (set_reg_queue [] s)).2.
Proof.
  vm_compute. repeat split; discriminate.
Qed.


(** Five signals with the default threshold of 5. *)
Lemma p2p_engagement_witness :
  let after k := Nat.iter k MDNSUpdater.inc_P2P_enable_count sample_updater in
  MDNSUpdater.p2p_enable (after 4%nat) = false /\
  MDNSUpdater.p2p_enable (after 5%nat) = true /\
  MDNSUpdater._mdns_update_queue (after 5%nat) =
    [(TxtInt <$> MDNSUpdater.service_versions sample_updater) ∪
     MDNSUpdater.txt_rec_base sample_updater].
Proof.
  intros after.
  assert (Hpos : (1 <= 5)%nat) by lia.
  destruct (p2p_engagement sample_updater 5 eq_refl eq_refl eq_refl Hpos)
    as (H1 & H2 & H3).
  split; [apply (H3 4%nat); lia|]. split; [exact H1|exact H2].
Defined.

(** Two updates of one mapping from construction, and an update of a
    version that stands at 255. *)
Lemma service_version_wrap_witness :
  let u := MDNSUpdater.__init__ {[ "device" := "ver_dvc" ]} true 5 None in
  let cs := [Call_update_mdns "device" "register"; Call_update_mdns "device" "update"] in
  let u255 := MDNSUpdater.set_service_versions {[ "ver_dvc" := 255 ]} u in
  MDNSUpdater.service_versions (run_calls cs u) !! "ver_dvc" = Some 2 /\
  0 <= 2 <= 255 /\
  exists u1, MDNSUpdater.update_mdns "device" "update" u255 = Ok u1 /\
             MDNSUpdater.service_versions u1 !! "ver_dvc" = Some 0.
Proof.
  intros u cs u255.
  assert (H2 : MDNSUpdater.service_versions (run_calls cs u) !! "ver_dvc" = Some 2)
    by (vm_compute; reflexivity).
  split; [exact H2|]. split.
  - exact (proj1 service_version_wrap {[ "device" := "ver_dvc" ]} true 5 None cs
             "ver_dvc" 2 H2).
  - apply (proj2 service_version_wrap u255 "device" "update" "ver_dvc");
      [reflexivity|right; left; reflexivity|vm_compute; reflexivity|vm_compute; reflexivity].
Defined.

(** ** Instances of the further properties *)

(** With P2P on, an update of the mapped type [device] and of the unmapped
    type [flow]; with P2P off, the latter does nothing. *)
Lemma update_mdns_outcome_witness :
  (exists u1,
     MDNSUpdater.update_mdns "device" "update" enabled_updater = Ok u1 /\
     MDNSUpdater.service_versions u1 !! "ver_dvc" = Some 1) /\
  MDNSUpdater.update_mdns "flow" "update" enabled_updater = Raise KeyError /\
  MDNSUpdater.update_mdns "flow" "update" sample_updater = Ok sample_updater.
Proof.
  pose proof (update_mdns_outcome {[ "device" := "ver_dvc" ]} false 5 None
                [Call_P2P_enable] "device" "update") as [_ Hdev].
  pose proof (update_mdns_outcome {[ "device" := "ver_dvc" ]} false 5 None
                [Call_P2P_enable] "flow" "update") as [_ Hflow].
  pose proof (update_mdns_outcome {[ "device" := "ver_dvc" ]} false 5 None
                [] "flow" "update") as [Hoff _].
  assert (Hon : MDNSUpdater.p2p_enable enabled_updater && counted_action "update" = true)
    by (vm_compute; reflexivity).
  specialize (Hdev Hon). specialize (Hflow Hon).
  rewrite lookup_singleton_eq in Hdev.
  rewrite lookup_singleton_ne in Hflow by discriminate.
  destruct Hdev as (v & u1 & Hv & Hrun & Hv1 & _).
  assert (Hv0 : MDNSUpdater.service_versions enabled_updater !! "ver_dvc" = Some 0)
    by (vm_compute; reflexivity).
  assert (v = 0) by (unfold enabled_updater, sample_updater in Hv0; congruence).
  subst v.
  split; [exists u1; split; [exact Hrun|exact Hv1]|].
  split; [exact Hflow|]. apply Hoff. vm_compute. reflexivity.
Defined.

(** 256 updates of [device] bring its version back to 0. *)
Lemma service_version_counts_mod_256_witness :
  let u' := run_calls (repeat (Call_update_mdns "device" "update") 256) enabled_updater in
  MDNSUpdater.service_versions enabled_updater !! "ver_dvc" = Some 0 /\
  MDNSUpdater.service_versions u' !! "ver_dvc" = Some 0 /\
  length (MDNSUpdater._mdns_update_queue u') = 257%nat.
Proof.
  intros u'.
  assert (He : MDNSUpdater.p2p_enable enabled_updater = true) by (vm_compute; reflexivity).
  assert (Hv : MDNSUpdater.service_versions enabled_updater !! "ver_dvc" = Some 0)
    by (vm_compute; reflexivity).
  assert (Hm : ({[ "device" := "ver_dvc" ]} : gmap string string) !! "device" =
               Some "ver_dvc") by apply lookup_singleton_eq.
  destruct (service_version_counts_mod_256 {[ "device" := "ver_dvc" ]} false 5 None
              [Call_P2P_enable] "device" "ver_dvc" 0 256 He Hm Hv)
    as (_ & Hback & _ & Hlen).
  split; [exact Hv|]. split; [exact (Hback eq_refl)|exact Hlen].
Defined.

(** P2P is switched off after four signals and one switching on; five
    signals are needed again. *)
Lemma P2P_disable_resets_witness :
  let d := MDNSUpdater.P2P_disable enabled_updater in
  let after k := Nat.iter k MDNSUpdater.inc_P2P_enable_count d in
  MDNSUpdater.p2p_enable enabled_updater = true /\
  MDNSUpdater.p2p_enable d = false /\
  MDNSUpdater.p2p_enable (after 4%nat) = false /\
  MDNSUpdater.p2p_enable (after 5%nat) = true.
Proof.
  intros d after.
  destruct (P2P_disable_resets enabled_updater) as (Hoff & _ & _ & _ & Hagain).
  assert (Hpos : (1 <= 5)%nat) by lia.
  destruct (Hagain 5%nat Hpos eq_refl) as (Hbelow & Hon & _).
  split; [reflexivity|]. split; [exact Hoff|].
  split; [apply (Hbelow 4%nat); lia|exact Hon].
Defined.

(** Two record sets wait; the engine never finds the service; two turns
    hand both over, in order. *)
Lemma update_thread_delivers_in_order_witness :
  let th0 := MDNSThread.__init__ {[ "device" := "ver_dvc" ]} true 5 None deaf_engine in
  let th := MDNSThread.call (Call_update_mdns "device" "update")
              (MDNSThread.call (Call_update_mdns "device" "register") th0) in
  length (MDNSUpdater._mdns_update_queue (MDNSThread.updater th)) = 2%nat /\
  exists th',
    MDNSThread._modify_mdns 2 th = (Ok tt, th') /\
    MDNSThread.updates (MDNSThread.engine_calls th') =
      MDNSUpdater._mdns_update_queue (MDNSThread.updater th) /\
    MDNSUpdater._mdns_update_queue (MDNSThread.updater th') = [].
Proof.
  intros th0 th.
  destruct update_thread_delivers_in_order as (_ & Hall & _).
  assert (Hon : MDNSThread._running th = true) by reflexivity.
  assert (Heng : forall k, MDNSThread.engine th k <> EngineFailure) by (intros k; discriminate).
  assert (Hlen : length (MDNSUpdater._mdns_update_queue (MDNSThread.updater th)) = 2%nat)
    by (vm_compute; reflexivity).
  destruct (Hall th Hon Heng 0%nat) as (th' & Hrun & Hup & Hq).
  split; [exact Hlen|]. exists th'.
  rewrite Hlen in Hrun. split; [exact Hrun|]. split; [exact Hup|exact Hq].
Defined.

(** The first request goes unanswered; the retry goes to the aggregator
    resolved in between. *)
Lemma requests_are_well_addressed_witness :
  let s := registered_proxy failing_over [] in
  let s' := (_SEND sample_cfg "POST" "/resource" (Some sample_sender) s).2 in
  aggregator s = "http://reg:4000" /\ aggregator s' = "http://reg2:4000" /\
  exists ev,
    trace s' = trace s ++ ev /\
    well_addressed "http://reg:4000" "POST" "/x-nmos/registration/v1.3/resource"
      (Some sample_sender) ev /\
    aggregator s' = aggregator_after "http://reg:4000" ev.
Proof.
  intros s s'.
  split; [reflexivity|]. split; [vm_compute; reflexivity|].
  exact (requests_are_well_addressed sample_cfg "POST" "/resource" (Some sample_sender) s).
Defined.

(** A POST answered 200 with a JSON body. *)
Lemma send_returns_accepted_response_witness :
  let s := registered_proxy (answering json_reply) [] in
  let s' := (_SEND sample_cfg "POST" "/resource" (Some sample_sender) s).2 in
  _SEND sample_cfg "POST" "/resource" (Some sample_sender) s = (Ok (Json "{}"), s') /\
  exists ev0 rq resp,
    trace s' = trace s ++ ev0 ++ [Send rq] /\
    request (world s) (Nat.pred (requests_made s')) rq = Returns (Some resp) /\
    accepted resp (Json "{}") /\
    rq_aggregator rq = aggregator s'.
Proof.
  intros s s'.
  assert (Hrun : _SEND sample_cfg "POST" "/resource" (Some sample_sender) s =
                 (Ok (Json "{}"), s')) by (vm_compute; reflexivity).
  split; [exact Hrun|].
  destruct (send_returns_accepted_response sample_cfg "POST" "/resource"
              (Some sample_sender) s (Json "{}") s' Hrun)
    as (ev0 & rq & resp & H1 & H2 & H3 & H4 & _).
  exists ev0, rq, resp. auto.
Defined.

(** The OAuth client raises [OAuth2Error] on the first request. *)
Lemma oauth_failure_on_first_attempt_witness :
  let s := oauth_proxy (answering (Throws OAuth2Error)) in
  let r := (_SEND oauth_cfg "POST" "/resource" (Some sample_sender) s).1 in
  let s' := (_SEND oauth_cfg "POST" "/resource" (Some sample_sender) s).2 in
  r = Raise UnboundLocalError /\
  trace s' =
    [Attempt 0;
     Send (mkRequest "POST" "http://reg:4000" "/x-nmos/registration/v1.3/resource"
             (Some sample_sender) true)] /\
  _mdns_updater s' = _mdns_updater s.
Proof.
  intros s r s'.
  assert (Hagg : aggregator s <> "") by discriminate.
  destruct (oauth_failure_on_first_attempt oauth_cfg "POST" "/resource"
              (Some sample_sender) s eq_refl eq_refl Hagg) as [H _].
  destruct (H eq_refl) as (H1 & H2 & H3 & _).
  split; [exact H1|]. split; [exact H2|exact H3].
Defined.

(** A flow registered without an id on a fresh proxy. *)
Lemma register_into_stores_witness :
  let s := __init__ None (answering (status 200)) in
  let s' := (register_into sample_cfg "resource" "flow" "f1" [("label", "x")] s).2 in
  (exists e,
     mirror_get "resource" "flow" "f1" (entities s') = Some e /\
     env_type e = "flow" /\ dict_get "id" (env_data e) = Some "f1" /\
     dict_get "label" (env_data e) = Some "x") /\
  _reg_queue s' = [mkIntent "POST" "resource" "flow" "f1"].
Proof.
  intros s s'.
  assert (Hne : ("resource", "flow") <> ("resource", "node")) by discriminate.
  destruct (register_into_stores sample_cfg "resource" "flow" "f1" [("label", "x")] s Hne)
    as (_ & (e & H1 & H2 & H3 & H4) & _ & H5 & _).
  split; [|exact H5].
  exists e. split; [exact H1|]. split; [exact H2|]. split; [exact H3|].
  apply H4. discriminate.
Defined.

(** Sender [s1] is removed from the sample proxy; a removal from a
    namespace that the mirror does not have raises. *)
Lemma unregister_from_removes_witness :
  let s := registered_proxy (answering (status 200)) [] in
  let s' := (unregister_from "resource" "sender" "s1" s).2 in
  mirror_get "resource" "sender" "s1" (entities s) = Some sample_sender /\
  mirror_get "resource" "sender" "s1" (entities s') = None /\
  _reg_queue s' = [mkIntent "DELETE" "resource" "sender" "s1"] /\
  unregister_from "other" "sender" "s1" s = (Raise KeyError, s).
Proof.
  intros s s'.
  assert (Hne : ("resource", "sender") <> ("resource", "node")) by discriminate.
  assert (Hne' : ("other", "sender") <> ("resource", "node")) by discriminate.
  destruct (unregister_from_removes "resource" "sender" "s1" s Hne) as [Hin _].
  destruct (unregister_from_removes "other" "sender" "s1" s Hne') as [_ Hout].
  destruct (Hin eq_refl) as (_ & H2 & _ & H4 & _).
  split; [reflexivity|]. split; [exact H2|]. split; [exact H4|].
  apply Hout. reflexivity.
Defined.

(** A node and a flow are registered on a fresh proxy. *)
Lemma held_envelopes_have_ids_witness :
  let ls := [Register "resource" "node" "n1" [("label", "t")];
             Register "resource" "flow" "f1" []] in
  let s0 := __init__ None (answering (status 200)) in
  let s1 := (register_into sample_cfg "resource" "node" "n1" [("label", "t")] s0).2 in
  let s := (register_into sample_cfg "resource" "flow" "f1" [] s1).2 in
  (exists id, node_id s = (Ok id, s)) /\
  exists e, mirror_get "resource" "flow" "f1" (entities s) = Some e /\ env_type e = "flow".
Proof.
  intros ls s0 s1 s.
  assert (Hrun : proxy_run sample_cfg s0 ls s).
  { eapply run_cons; [apply step_register|].
    eapply run_cons; [apply step_register|]. apply run_nil. }
  destruct (held_envelopes_have_ids sample_cfg None (answering (status 200)) ls s Hrun)
    as [Hnode Hent].
  assert (Hn : node s = Some (mkEnvelope "node" [("label", "t"); ("id", "n1")]))
    by (vm_compute; reflexivity).
  assert (Hf : mirror_get "resource" "flow" "f1" (entities s) =
               Some (mkEnvelope "flow" [("id", "f1")])) by (vm_compute; reflexivity).
  split; [exact (proj2 (Hnode _ Hn))|].
  eexists. split; [exact Hf|]. exact (proj1 (Hent _ _ _ _ Hf)).
Defined.

(** A flow is registered on a fresh proxy and then unregistered. *)
Lemma unregister_always_queues_delete_witness :
  let ls := [Register "resource" "flow" "f1" []] in
  let s0 := __init__ None (answering (status 200)) in
  let s := (register_into sample_cfg "resource" "flow" "f1" [] s0).2 in
  let s' := (unregister "flow" "f1" s).2 in
  unregister "flow" "f1" s = (Ok tt, s') /\
  _reg_queue s' = _reg_queue s ++ [mkIntent "DELETE" "resource" "flow" "f1"] /\
  mirror_get "resource" "flow" "f1" (entities s') = None.
Proof.
  intros ls s0 s s'.
  assert (Hrun : proxy_run sample_cfg s0 ls s).
  { eapply run_cons; [apply step_register|]. apply run_nil. }
  destruct (unregister_always_queues_delete sample_cfg None (answering (status 200))
              ls s "flow" "f1" Hrun) as (H1 & H2 & H3 & _).
  split; [exact H1|]. split; [exact H2|]. exact (proj2 H3).
Defined.

(** A stopped, registered proxy with two DELETE intents that the registry
    answers 204. *)
Lemma worker_idles_and_drains_witness :
  let q := [mkIntent "DELETE" "resource" "sender" "s1";
            mkIntent "DELETE" "resource" "node" "n1"] in
  let s := set_running false (registered_proxy (answering (status 204)) q) in
  let s' := (_process_queue sample_cfg 2 s).2 in
  _reg_queue s' = [] /\ registered s' = true /\
  forall extra, _process_queue sample_cfg (2 + extra) s = (Ok tt, s').
Proof.
  intros q s s'.
  destruct (worker_idles_and_drains sample_cfg s) as [_ Hdrain].
  destruct (Hdrain eq_refl) as (Hmore & Hend & _).
  assert (Hreg : registered s' = true) by (vm_compute; reflexivity).
  split; [|split; [exact Hreg|exact Hmore]].
  destruct Hend as [Hoff|Hq]; [|exact Hq].
  change (registered s' = false) in Hoff. congruence.
Defined.

(** The DELETE of sender [s1] is answered 404. *)
Lemma worker_delete_intent_witness :
  let item := mkIntent "DELETE" "resource" "sender" "s1" in
  let s := registered_proxy (answering (status 404)) [item] in
  let s' := (_process_queue_body sample_cfg s).2 in
  registered s' = true /\ _reg_queue s' = [] /\ entities s' = entities s /\
  exists more,
    trace s' =
    Attempt 0 ::
    Send (mkRequest "DELETE" "http://reg:4000"
            "/x-nmos/registration/v1.3/resource/senders/s1" None false) :: more.
Proof.
  intros item s s'.
  assert (Hagg : aggregator s <> "") by discriminate.
  destruct (worker_delete_intent sample_cfg s item [] eq_refl eq_refl eq_refl Hagg)
    as (_ & H2 & H3 & H4 & _ & H6).
  pose (s1 := (_SEND sample_cfg "DELETE" "/resource/senders/s1" None
                 (set_reg_queue [] s)).2).
  assert (Hsend : _SEND sample_cfg "DELETE"
                    ("/" +:+ namespace item +:+ "/" +:+ (res_type item +:+ "s") +:+ "/" +:+
                     key item) None (set_reg_queue [] s) =
                  (Raise (InvalidRequestE 404), s1)) by (vm_compute; reflexivity).
  destruct (H6 _ _ Hsend) as [_ Hreg].
  split; [exact Hreg|]. split; [exact H3|]. split; [exact H4|exact H2].
Defined.

(** Flow [f1] is registered and unregistered on the sample proxy before
    the worker runs. *)
Lemma register_then_unregister_witness :
  let s := registered_proxy (answering (status 200)) [] in
  let s1 := (register_into sample_cfg "resource" "flow" "f1" [] s).2 in
  let s2 := (unregister_from "resource" "flow" "f1" s1).2 in
  _reg_queue s2 = [mkIntent "POST" "resource" "flow" "f1";
                   mkIntent "DELETE" "resource" "flow" "f1"] /\
  mirror_get "resource" "flow" "f1" (entities s2) = None /\
  _process_queue_body sample_cfg s2 =
    (Ok tt, set_reg_queue [mkIntent "DELETE" "resource" "flow" "f1"] s2).
Proof.
  intros s s1 s2.
  assert (HT : "flow" <> "node") by discriminate.
  destruct (register_then_unregister sample_cfg "resource" "flow" "f1" [] s HT)
    as (_ & H2 & H3 & _ & H5).
  split; [exact H2|]. split; [exact H3|].
  apply H5; [vm_compute; reflexivity|reflexivity|exact H2].
Defined.

(** A proxy marked registered that holds no node. *)
Lemma heartbeat_without_node_witness :
  let s := set_registered true (__init__ (Some sample_updater) (answering (status 200))) in
  let s1 := (_heartbeat_body sample_cfg s).2 in
  registered s1 = false /\ trace s1 = [] /\
  MDNSUpdater.p2p_enable_count <$> _mdns_updater s1 = Some 1 /\
  forall fuel, _heartbeat sample_cfg fuel s1 = (Ok tt, s1).
Proof.
  intros s s1.
  destruct (heartbeat_without_node sample_cfg s eq_refl) as (_ & H2 & H3 & _ & _ & H6 & H7).
  split; [exact H2|]. split; [exact H3|]. split; [|exact H7].
  change (_mdns_updater s1 = bumped (_mdns_updater s)) in H6.
  rewrite H6. vm_compute. reflexivity.
Defined.

(** The heartbeat finds the registry silent three times over. *)
Lemma heartbeat_keeps_or_marks_witness :
  let s := registered_proxy (answering (Throws RequestException)) [] in
  let s2 := (_heartbeat_body sample_cfg s).2 in
  registered s2 = false /\ _running s2 = true /\
  MDNSUpdater.p2p_enable_count <$> _mdns_updater s2 = Some 1.
Proof.
  intros s s2.
  pose (s1 := (_SEND sample_cfg "POST" ("/health/nodes/" +:+ "n1") None s).2).
  assert (Hsend : _SEND sample_cfg "POST" ("/health/nodes/" +:+ "n1") None s =
                  (Raise TooManyRetriesE, s1)) by (vm_compute; reflexivity).
  assert (Hno4 : forall c, (Raise TooManyRetriesE : Res Body) <> Raise (InvalidRequestE c))
    by (intros c; discriminate).
  destruct (heartbeat_keeps_or_marks sample_cfg s sample_node "n1" _ s1
              eq_refl eq_refl eq_refl Hsend Hno4)
    as (_ & H2 & H3 & _ & _ & _ & H7 & _).
  split; [exact H2|]. split; [exact H3|].
  change (_mdns_updater s2 = bumped (_mdns_updater s)) in H7.
  rewrite H7. vm_compute. reflexivity.
Defined.

(** A node is registered on a fresh proxy; the next heartbeat turn finds a
    registry that answers 200. *)
Lemma registration_is_earned_witness :
  let s0 := __init__ (Some sample_updater) (answering (status 200)) in
  let s := (register_into sample_cfg "resource" "node" "n1" [] s0).2 in
  let s' := (_heartbeat_body sample_cfg s).2 in
  registered s = false /\ registered s' = true /\
  aggregator s' <> "" /\
  (forall u, _mdns_updater s' = Some u ->
     MDNSUpdater.p2p_enable u = false /\ MDNSUpdater.p2p_enable_count u = 0) /\
  _reg_queue s' = [].
Proof.
  intros s0 s s'.
  assert (Hstep : proxy_step sample_cfg s Heartbeat s')
    by (apply step_heartbeat; reflexivity).
  assert (Hon : registered s' = true) by (vm_compute; reflexivity).
  destruct (registration_is_earned sample_cfg s Heartbeat s' Hstep eq_refl Hon)
    as (_ & e & id & _ & _ & _ & H4 & H5 & H6).
  split; [reflexivity|]. split; [exact Hon|]. split; [exact H4|].
  split; [exact H5|exact H6].
Defined.

(** The registry answers every request 400: the DELETE of the node is
    shrugged off, the POST of the node fails. *)
Lemma failed_reregistration_forgets_aggregator_witness :
  let q := [mkIntent "POST" "resource" "sender" "s1"] in
  let s := set_registered false (registered_proxy (answering (status 400)) q) in
  let s' := (_process_reregister sample_cfg s).2 in
  aggregator s = "http://reg:4000" /\ aggregator s' = "" /\ _reg_queue s' = [] /\
  exists h more, trace (_heartbeat_body sample_cfg s').2 = trace s' ++ Resolve h :: more.
Proof.
  intros q s s'.
  pose (sd := (_SEND sample_cfg "DELETE" ("/resource/nodes/" +:+ "n1") None s).2).
  assert (Hdel : _SEND sample_cfg "DELETE" ("/resource/nodes/" +:+ "n1") None s =
                 (Raise (InvalidRequestE 400), sd)) by (vm_compute; reflexivity).
  assert (Hoff : registered s' = false) by (vm_compute; reflexivity).
  destruct (failed_reregistration_forgets_aggregator sample_cfg s sample_node "n1" _ sd
              eq_refl eq_refl Hdel eq_refl Hoff)
    as (H1 & H2 & _ & _ & _ & H6).
  split; [reflexivity|]. split; [exact H1|]. split; [exact H2|exact H6].
Defined.

(** Four signals on the sample updater, whose threshold is 5: the fifth
    turns P2P on. *)
Lemma p2p_count_stays_below_threshold_witness :
  let u := run_calls (repeat Call_inc_P2P_enable_count 4) sample_updater in
  MDNSUpdater.p2p_enable u = false /\
  MDNSUpdater.p2p_enable_count u < 5 /\
  MDNSUpdater.p2p_enable (MDNSUpdater.inc_P2P_enable_count u) = true.
Proof.
  intros u.
  assert (Hcut : 1 <= 5) by lia.
  destruct (p2p_count_stays_below_threshold {[ "device" := "ver_dvc" ]} false 5 None
              (repeat Call_inc_P2P_enable_count 4) Hcut) as (_ & _ & Hoff).
  assert (He : MDNSUpdater.p2p_enable u = false) by (vm_compute; reflexivity).
  destruct (Hoff He) as [Hlt Hiff].
  split; [exact He|]. split; [exact Hlt|].
  apply Hiff. vm_compute. reflexivity.
Defined.

(** A flow is registered on a fresh proxy and unregistered again. *)
Lemma queued_intents_are_post_or_delete_witness :
  let ls := [Register "resource" "flow" "f1" []; Unregister "resource" "flow" "f1"] in
  let s0 := __init__ None (answering (status 200)) in
  let s1 := (register_into sample_cfg "resource" "flow" "f1" [] s0).2 in
  let s := (unregister_from "resource" "flow" "f1" s1).2 in
  length (_reg_queue s) = 2%nat /\
  forall item, In item (_reg_queue s) -> method item = "POST" \/ method item = "DELETE".
Proof.
  intros ls s0 s1 s.
  assert (Hrun : proxy_run sample_cfg s0 ls s).
  { eapply run_cons; [apply step_register|].
    eapply run_cons; [apply step_unregister|]. apply run_nil. }
  destruct (queued_intents_are_post_or_delete sample_cfg None (answering (status 200))
              ls s Hrun) as [Hall _].
  split; [vm_compute; reflexivity|exact Hall].
Defined.

(** A fresh proxy whose bridge knows a legacy registry only. *)
Lemma send_without_aggregator_witness :
  let s := __init__ None legacy_only in
  let s' := (_SEND sample_cfg "POST" "/resource" (Some sample_sender) s).2 in
  exists more,
    trace s' =
    Resolve "http://old:4000" :: Attempt 0 ::
    Send (mkRequest "POST" "http://old:4000" "/x-nmos/registration/v1.3/resource"
            (Some sample_sender) false) :: more.
Proof.
  intros s s'.
  destruct (send_without_aggregator sample_cfg "POST" "/resource" (Some sample_sender) s
              eq_refl) as [Hsome _].
  apply Hsome. discriminate.
Defined.

(** The POST of sender [s1], answered 200. *)
Lemma worker_posts_current_envelope_witness :
  let item := mkIntent "POST" "resource" "sender" "s1" in
  let s := registered_proxy (answering (status 200)) [item] in
  let s' := (_process_queue_body sample_cfg s).2 in
  registered s' = true /\ _reg_queue s' = [] /\ entities s' = entities s /\
  exists more,
    trace s' =
    Attempt 0 ::
    Send (mkRequest "POST" "http://reg:4000" "/x-nmos/registration/v1.3/resource"
            (Some sample_sender) false) :: more.
Proof.
  intros item s s'.
  assert (HT : res_type item <> "node") by discriminate.
  assert (Hagg : aggregator s <> "") by discriminate.
  destruct (worker_posts_current_envelope sample_cfg s item [] sample_sender
              eq_refl eq_refl eq_refl HT eq_refl Hagg) as (_ & H2 & H3 & _ & H5).
  pose (s1 := (_SEND sample_cfg "POST" "/resource" (Some sample_sender)
                 (set_reg_queue [] s)).2).
  assert (Hsend : _SEND sample_cfg "POST" ("/" +:+ namespace item) (Some sample_sender)
                    (set_reg_queue [] s) = (Ok (Raw ""), s1)) by (vm_compute; reflexivity).
  destruct (H5 _ _ Hsend) as (_ & Hreg & Hent).
  split; [exact Hreg|]. split; [exact H3|]. split; [exact Hent|exact H2].
Defined.

(** A POST intent of type [node] queued under another namespace and key. *)
Lemma node_typed_intent_posts_the_node_witness :
  let item := mkIntent "POST" "other" "node" "k" in
  let s := registered_proxy (answering (status 200)) [item] in
  let s' := (_process_queue_body sample_cfg s).2 in
  registered s' = true /\ _reg_queue s' = [] /\
  exists more,
    trace s' =
    Attempt 0 ::
    Send (mkRequest "POST" "http://reg:4000" "/x-nmos/registration/v1.3/other"
            (Some sample_node) false) :: more.
Proof.
  intros item s s'.
  assert (Hagg : aggregator s <> "") by discriminate.
  destruct (node_typed_intent_posts_the_node sample_cfg s item [] eq_refl eq_refl
              eq_refl eq_refl) as (_ & H2 & _ & H4 & _ & H6).
  split; [exact H4|]. split; [exact H2|].
  exact (H6 sample_node "n1" eq_refl eq_refl Hagg).
Defined.

(** A DELETE that exhausts the retries: the worker unregisters. *)
Lemma worker_unregisters_on_exception_witness :
  let item := mkIntent "DELETE" "resource" "sender" "s1" in
  let s := registered_proxy (answering (Throws RequestException)) [item] in
  let s' := (_process_queue_body sample_cfg s).2 in
  registered s = true /\ registered s' = false /\
  MDNSUpdater.p2p_enable_count <$> _mdns_updater s' = Some 0.
Proof.
  intros item s s'.
  destruct (worker_unregisters_on_exception sample_cfg s item [] eq_refl eq_refl)
    as (_ & Ha & Hb & _).
  pose (s1 := (_SEND sample_cfg "DELETE" "/resource/senders/s1" None
                 (set_reg_queue [] s)).2).
  assert (Hitem : process_item sample_cfg item (set_reg_queue [] s) =
                  (Raise TooManyRetriesE, s1)).
  { apply Hb; [reflexivity|vm_compute; reflexivity|discriminate]. }
  destruct (Ha _ _ Hitem) as (_ & Hr & Hu).
  split; [reflexivity|]. split; [exact Hr|].
  unfold s'. rewrite Hu. vm_compute. reflexivity.
Defined.

(** The registry answers every request 200, announcing JSON, with a body
    that does not decode: the call makes its three attempts and raises
    [TooManyRetries]. *)
Lemma undecodable_answer_witness :
  let s := registered_proxy (answering garbled_reply) [] in
  let r := (_SEND sample_cfg "POST" "/resource" (Some sample_sender) s).1 in
  let s' := (_SEND sample_cfg "POST" "/resource" (Some sample_sender) s).2 in
  r = Raise TooManyRetriesE /\ attempts (trace s') = 3%nat /\
  exists h s1,
    trace s1 =
      [Attempt 0;
       Send (mkRequest "POST" "http://reg:4000" "/x-nmos/registration/v1.3/resource"
               (Some sample_sender) false);
       Resolve h] /\
    _SEND sample_cfg "POST" "/resource" (Some sample_sender) s =
      _SEND_loop sample_cfg [1; 2]%nat "POST" "/x-nmos/registration/v1.3/resource"
        (Some sample_sender)
        (Some (Some (mkResponse 200 (Some "application/json") "not json"
                       (Undecodable RequestException)))) s1.
Proof.
  intros s r s'.
  assert (Hagg : aggregator s <> "") by discriminate.
  destruct (undecodable_answer sample_cfg "POST" "/resource" (Some sample_sender) s
              (mkResponse 200 (Some "application/json") "not json"
                 (Undecodable RequestException))
              "application/json" RequestException Hagg eq_refl (or_introl eq_refl)
              eq_refl eq_refl eq_refl) as [Hfall _].
  destruct (Hfall eq_refl) as (h & s1 & Htr & _ & _ & _ & Hrun).
  split; [vm_compute; reflexivity|]. split; [vm_compute; reflexivity|].
  exists h, s1. split; [exact Htr|exact Hrun].
Defined.
